(** * Verification of the NetDocuments synchronisation engine

    A shallow embedding of [src/netdocuments_sync.py] (class
    [NetDocumentsSync]), of [DocumentProcessor.process_document]
    ([src/document_processor.py]), of [VectorStore.add_documents]
    ([src/vector_store.py]) and of [RAGPipeline.add_documents]
    ([src/rag_pipeline.py]), followed by the properties of the
    synchronisation engine stated in the specification.

    Python dictionaries used as maps are [gmap]s; the dictionaries used
    as records (a document record, a synced entry, the sync state) are
    records whose fields are [option]s where the code reads them with
    [dict.get].  The values of a document record that are present are
    strings, as in the data model of the specification, or null; for
    the name, which the code reads with a default and hands to
    [pathlib.Path], an absent key and a null value are told apart
    ([field]).  Timestamps are compared as Python compares strings.
    Extracted text is a sequence of Unicode code points ([text]).  Effects (the state file, the
    log, temporary files, the vector store, the clock, exceptions) are
    threaded through a state and exception monad over an explicit
    [World].  The remote client, the text extractors, the text splitter
    and the vector store are parameters ([Env]) that may answer or raise
    in any way; appending to the log, writing the state file and
    unlinking a file are taken to succeed. *)

From Stdlib Require Import ZArith DecimalString Ascii String.
From Stdlib Require OrderedTypeEx.
From stdpp Require Import base option list gmap strings.

(** ** Models of the Python standard library functions the code calls *)

Module PyLib.

(** [str.rfind(c)]: index of the last occurrence, [None] for [-1]. *)
Fixpoint rfind (c : ascii) (s : string) : option nat :=
  match s with
  | EmptyString => None
  | String a s' =>
      match rfind c s' with
      | Some i => Some (S i)
      | None => if Ascii.eqb a c then Some 0 else None
      end
  end.

(** [s[i:]]. *)
Definition drop_str (i : nat) (s : string) : string :=
  String.substring i (String.length s - i) s.

(** [PurePath.name] for a path without trailing separator: the final
    component. *)
Definition path_name (p : string) : string :=
  match rfind "/" p with
  | Some i => drop_str (S i) p
  | None => p
  end.

(** [PurePath.suffix]:
    [i = name.rfind('.'); name[i:] if 0 < i < len(name) - 1 else '']. *)
Definition path_suffix (p : string) : string :=
  let name := path_name p in
  match rfind "." name with
  | Some i =>
      if (0 <? i) && (i <? String.length name - 1) then drop_str i name
      else ""
  | None => ""
  end.

(** [str.lower] on the ASCII range. *)
Definition lower_ascii (c : ascii) : ascii :=
  let n := nat_of_ascii c in
  if (65 <=? n) && (n <=? 90) then ascii_of_nat (n + 32) else c.

Fixpoint lower (s : string) : string :=
  match s with
  | EmptyString => EmptyString
  | String a s' => String (lower_ascii a) (lower s')
  end.

(** A Python [str] holding the text of a document: its Unicode code
    points.  [len] is [length] and [t[:n]] is [take n t]. *)
Definition text : Type := list N.

(** The text of a string literal of the code (ASCII). *)
Definition text_of_string (s : string) : text :=
  map N_of_ascii (list_ascii_of_string s).

(** [str.isspace] on one code point, which is also the set of characters
    that [str.strip()] removes: U+0009..U+000D, U+001C..U+0020, U+0085,
    U+00A0, U+1680, U+2000..U+200A, U+2028, U+2029, U+202F, U+205F and
    U+3000. *)
Definition is_space (c : N) : bool :=
  ((0x9 <=? c) && (c <=? 0xD) || (0x1C <=? c) && (c <=? 0x20)
   || (c =? 0x85) || (c =? 0xA0) || (c =? 0x1680)
   || (0x2000 <=? c) && (c <=? 0x200A)
   || (c =? 0x2028) || (c =? 0x2029) || (c =? 0x202F) || (c =? 0x205F)
   || (c =? 0x3000))%N.

(** [str.lstrip()]. *)
Fixpoint lstrip (t : text) : text :=
  match t with
  | [] => []
  | c :: t' => if is_space c then lstrip t' else t
  end.

(** [str.rstrip()]. *)
Fixpoint rstrip (t : text) : text :=
  match t with
  | [] => []
  | c :: t' =>
      match rstrip t' with
      | [] => if is_space c then [] else [c]
      | r => c :: r
      end
  end.

(** [str.strip()]. *)
Definition strip (t : text) : text := rstrip (lstrip t).

(** [bool(t)] for a text: non-empty. *)
Definition text_truthy (t : text) : bool :=
  match t with [] => false | _ => true end.

(** [str(n)] for an integer. *)
Definition str_of_int (z : Z) : string := NilZero.string_of_int (Z.to_int z).

(** [bool(s)] for a string: non-empty. *)
Definition nonempty (s : string) : bool :=
  match s with EmptyString => false | _ => true end.

(** [bool(v)] for a value that is [None] or a string. *)
Definition truthy (o : option string) : bool :=
  match o with Some s => nonempty s | None => false end.

(** [f"{v}"] for a value that is [None] or a string. *)
Definition fmt (o : option string) : string :=
  match o with Some s => s | None => "None" end.

(** [a > b] on strings: lexicographic on code points. *)
Definition str_gt (a b : string) : bool := String.ltb b a.

End PyLib.

Import PyLib.

Example path_suffix_pdf : path_suffix "Report.Final.PDF" = ".PDF".
Proof. reflexivity. Qed.
Example path_suffix_hidden : path_suffix ".bashrc" = "".
Proof. reflexivity. Qed.
Example path_suffix_dir : path_suffix "a.b/c" = "".
Proof. reflexivity. Qed.
Example strip_blank : strip [0xA; 0x20; 0xA0; 0x3000; 0x85]%N = [].
Proof. reflexivity. Qed.
Example strip_text : strip (text_of_string "  a b  ") = text_of_string "a b".
Proof. reflexivity. Qed.
Example strip_inner : strip [0x2003; 0x61; 0xA0; 0x62; 0x2028]%N = [0x61; 0xA0; 0x62]%N.
Proof. reflexivity. Qed.
Example strip_not_space : strip [0x200B; 0x1B]%N = [0x200B; 0x1B]%N.
Proof. reflexivity. Qed.
Example str_of_int_12 : str_of_int 12 = "12".
Proof. reflexivity. Qed.
Example str_of_int_0 : str_of_int 0 = "0".
Proof. reflexivity. Qed.

Module PyPath.

Definition rfindZ (c : ascii) (s : string) : Z :=
  match rfind c s with Some i => Z.of_nat i | None => (-1)%Z end.

(** [os.path.splitext(p)[1]]: the extension starts at the last dot of
    the final component, unless only dots precede it there. *)
Definition splitext_ext (p : string) : string :=
  let sepIndex := rfindZ "/" p in
  let dotIndex := rfindZ "." p in
  if (sepIndex <? dotIndex)%Z then
    let filenameIndex := Z.to_nat (sepIndex + 1) in
    let before := String.substring filenameIndex (Z.to_nat dotIndex - filenameIndex) p in
    if forallb (fun c => Ascii.eqb c ".") (list_ascii_of_string before)
    then "" else drop_str (Z.to_nat dotIndex) p
  else "".

(** [os.path.basename(p)]. *)
Definition basename (p : string) : string := path_name p.

End PyPath.

Import PyPath.

Example splitext_tmp : splitext_ext "/tmp/tmpab12.PDF" = ".PDF".
Proof. reflexivity. Qed.
Example splitext_dots : splitext_ext "/tmp/..txt" = "".
Proof. reflexivity. Qed.
Example splitext_none : splitext_ext "/tmp.d/file" = "".
Proof. reflexivity. Qed.

(** ** Data model *)

(** Values stored in chunk metadata. *)
Inductive pyval :=
| PNone
| PStr (s : string)
| PInt (z : Z).

Definition of_opt (o : option string) : pyval :=
  match o with Some s => PStr s | None => PNone end.

(** [f"{v}"]. *)
Definition py_str (v : pyval) : string :=
  match v with
  | PNone => "None"
  | PStr s => s
  | PInt z => str_of_int z
  end.

(** An entry of a dictionary that the code reads with a default: the key
    may be absent, or its value null, or a string. *)
Inductive field :=
| Absent
| Null
| Str (s : string).

(** [d.get(key)]: [None] is Python's [None]. *)
Definition get (f : field) : option string :=
  match f with Str s => Some s | _ => None end.

(** [d.get(key, default)]: the default stands in for an absent key only. *)
Definition get_or (dflt : string) (f : field) : option string :=
  match f with
  | Absent => Some dflt
  | Null => None
  | Str s => Some s
  end.

(** A document record of the remote source.  For the keys read with
    [doc_info.get(key)] only, [None] stands for a key that is absent or
    null. *)
Record DocumentRecord := {
  doc_id : option string;
  doc_name : field;
  doc_modified : option string;
  doc_author : option string;
  doc_workspace : option string
}.

(** A value of [sync_state["synced_documents"]]. *)
Record SyncedEntry := {
  entry_name : option string;
  entry_modified : option string;
  entry_sync_date : string
}.

(** An element of [failed_docs]. *)
Record FailureEntry := {
  failure_id : option string;
  failure_name : option string;
  failure_error : option string
}.

Record SyncState := {
  last_sync : option string;
  synced_documents : gmap string SyncedEntry;
  failed_documents : list FailureEntry
}.

(** What [get_sync_state] returns when there is no state file. *)
Definition empty_sync_state : SyncState :=
  {| last_sync := None; synced_documents := ∅; failed_documents := [] |}.

Record LangchainDocument := {
  page_content : text;
  metadata : gmap string pyval
}.

(** The dictionary returned by [RAGPipeline.add_documents]. *)
Record AddResult := {
  add_success : bool;
  add_message : string;
  add_document_ids : list string;
  add_document_count : nat
}.

(** The dictionary returned by [sync_documents]. *)
Record SyncReport := {
  success : bool;
  synced_count : nat;
  failed_count : nat;
  report_failed_documents : list FailureEntry;
  total_processed : nat
}.

(** ** The world: files, store, clock, and the trace of effects *)

Inductive event :=
| EvLog (timestamp level message : string)
| EvDownload (document_id : option string)
| EvUpsert (ids : list string)
| EvUnlink (path : string)
| EvSave (state : SyncState).

Definition is_save (e : event) : bool :=
  match e with EvSave _ => true | _ => false end.

Record World := {
  state_file : option SyncState;
  temp_files : gset string;
  vector_db : gmap string LangchainDocument;
  clock : nat;
  trace : list event
}.

Definition emit_in (e : event) (w : World) : World :=
  {| state_file := state_file w; temp_files := temp_files w;
     vector_db := vector_db w; clock := clock w; trace := trace w ++ [e] |}.

Definition tick_in (w : World) : World :=
  {| state_file := state_file w; temp_files := temp_files w;
     vector_db := vector_db w; clock := S (clock w); trace := trace w |}.

Definition with_temp_files (f : gset string) (w : World) : World :=
  {| state_file := state_file w; temp_files := f;
     vector_db := vector_db w; clock := clock w; trace := trace w |}.

Definition with_vector_db (db : gmap string LangchainDocument) (w : World) : World :=
  {| state_file := state_file w; temp_files := temp_files w;
     vector_db := db; clock := clock w; trace := trace w |}.

Definition with_state_file (s : SyncState) (w : World) : World :=
  {| state_file := Some s; temp_files := temp_files w;
     vector_db := vector_db w; clock := clock w; trace := trace w |}.

(** ** A state and exception monad *)

Inductive result (A : Type) :=
| Ok (a : A)
| Raise (e : string).
Arguments Ok {A} a.
Arguments Raise {A} e.

Definition M (A : Type) : Type := World -> result A * World.

Definition ret {A} (a : A) : M A := fun w => (Ok a, w).

Definition raise {A} (e : string) : M A := fun w => (Raise e, w).

Definition bind {A B} (m : M A) (f : A -> M B) : M B :=
  fun w =>
    match m w with
    | (Ok a, w') => f a w'
    | (Raise e, w') => (Raise e, w')
    end.

(** [try: body except Exception as e: handler(str(e))]. *)
Definition try_except {A} (body : M A) (handler : string -> M A) : M A :=
  fun w =>
    match body w with
    | (Ok a, w') => (Ok a, w')
    | (Raise e, w') => handler e w'
    end.

(** [try: body finally: cleanup]: the cleanup runs on both exits; an
    exception of the cleanup replaces the outcome of the body. *)
Definition try_finally {A} (body : M A) (cleanup : M unit) : M A :=
  fun w =>
    match body w with
    | (r, w') =>
        match cleanup w' with
        | (Ok _, w'') => (r, w'')
        | (Raise e, w'') => (Raise e, w'')
        end
    end.

Declare Scope py_scope.
Delimit Scope py_scope with py.
Notation "x <- m ;; k" := (bind m (fun x => k))
  (at level 100, m at next level, right associativity) : py_scope.
Notation "m ;;; k" := (bind m (fun _ => k))
  (at level 100, right associativity) : py_scope.
Local Open Scope py_scope.

Definition emit (e : event) : M unit := fun w => (Ok tt, emit_in e w).

(** A call that reads and writes nothing: it returns or raises. *)
Definition lift {A} (r : result A) : M A := fun w => (r, w).

(** [for x in l: acc = body(acc, x)]. *)
Fixpoint for_each {A S} (body : S -> A -> M S) (l : list A) (acc : S) : M S :=
  match l with
  | [] => ret acc
  | x :: l' => acc' <- body acc x ;; for_each body l' acc'
  end.

(** The collaborators the engine calls: the clock, the remote source
    client, the text extractors, the text splitter and the vector store.
    Their answers may depend on the world they are called in. *)
Record Env := {
  isoformat_now : nat -> string;
  api_download_document : World -> option string -> result (option string);
  extract_text_from_pdf : World -> string -> result text;
  extract_text_from_docx : World -> string -> result text;
  extract_text_from_txt : World -> string -> result text;
  split_text : text -> list text;
  chroma_add_documents : World -> list LangchainDocument -> list string -> result unit;
  rag_pipeline : bool
}.

(** [Config.SUPPORTED_EXTENSIONS]. *)
Definition SUPPORTED_EXTENSIONS : list string := [".pdf"; ".docx"; ".txt"].

(** [x in l] for a list of strings. *)
Definition str_in (x : string) (l : list string) : bool :=
  existsb (String.eqb x) l.

(** ** The chunking processor: [DocumentProcessor] *)

Section Engine.

Variable E : Env.

Definition datetime_now : M string :=
  fun w => (Ok (isoformat_now E (clock w)), tick_in w).

(** [extract_text]: dispatch on the lower-cased extension. *)
Definition extract_text (file_path : string) : M text :=
  let file_extension := lower (splitext_ext file_path) in
  if String.eqb file_extension ".pdf" then
    fun w => (extract_text_from_pdf E w file_path, w)
  else if String.eqb file_extension ".docx" then
    fun w => (extract_text_from_docx E w file_path, w)
  else if String.eqb file_extension ".txt" then
    fun w => (extract_text_from_txt E w file_path, w)
  else raise ("Unsupported file type: " +:+ file_extension).

(** The documents built from the chunks, with [enumerate]. *)
Definition make_documents (meta : gmap string pyval) (chunks : list text)
  : list LangchainDocument :=
  imap (fun i chunk =>
          {| page_content := chunk;
             metadata :=
               <["total_chunks" := PInt (Z.of_nat (length chunks))]>
                 (<["chunk_id" := PInt (Z.of_nat i)]> meta) |})
       chunks.

Definition process_document (file_path : string) : M (list LangchainDocument) :=
  text <- extract_text file_path ;;
  if negb (text_truthy (strip text)) then
    raise ("No text could be extracted from " +:+ file_path)
  else
    let filename := basename file_path in
    let meta : gmap string pyval :=
      <["source" := PStr filename]>
        (<["file_path" := PStr file_path]>
           (<["file_type" := PStr (lower (splitext_ext filename))]> ∅)) in
    let chunks := split_text E text in
    ret (make_documents meta chunks).

(** ** The knowledge store: [VectorStore] and [RAGPipeline] *)

(** The identifier of the document at position [i] of a batch. *)
Definition store_id (i : nat) (doc : LangchainDocument) : string :=
  "doc_" +:+ str_of_int (Z.of_nat i) +:+ "_"
    +:+ py_str (default (PStr "unknown") (metadata doc !! "source")) +:+ "_"
    +:+ py_str (default (PInt 0) (metadata doc !! "chunk_id")).

Definition store_ids (documents : list LangchainDocument) : list string :=
  imap store_id documents.

(** The store after the documents were written under the given ids. *)
Definition upsert_all (ids : list string) (documents : list LangchainDocument)
    (db : gmap string LangchainDocument) : gmap string LangchainDocument :=
  foldl (fun acc p => <[p.1 := p.2]> acc) db (zip ids documents).

(** [self.vector_store.add_documents(documents, ids=ids)]. *)
Definition chroma_add (documents : list LangchainDocument) (ids : list string)
  : M unit :=
  fun w =>
    match chroma_add_documents E w documents ids with
    | Ok _ =>
        (Ok tt,
         emit_in (EvUpsert ids)
           (with_vector_db (upsert_all ids documents (vector_db w)) w))
    | Raise e => (Raise e, w)
    end.

(** [VectorStore.add_documents]. *)
Definition vector_store_add_documents (documents : list LangchainDocument)
  : M (list string) :=
  try_except
    (let ids := store_ids documents in
     chroma_add documents ids ;;;
     ret ids)
    (fun e => raise ("Error adding documents to vector store: " +:+ e)).

(** [RAGPipeline.add_documents]. *)
Definition rag_add_documents (documents : list LangchainDocument) : M AddResult :=
  try_except
    (document_ids <- vector_store_add_documents documents ;;
     ret {| add_success := true;
            add_message :=
              "Successfully added " +:+ str_of_int (Z.of_nat (length documents))
                +:+ " document chunks";
            add_document_ids := document_ids;
            add_document_count := length documents |})
    (fun e =>
       ret {| add_success := false;
              add_message := "Error adding documents: " +:+ e;
              add_document_ids := [];
              add_document_count := 0 |}).

(** ** The sync engine: [NetDocumentsSync] *)

Definition get_sync_state : M SyncState :=
  fun w =>
    match state_file w with
    | Some s => (Ok s, w)
    | None => (Ok empty_sync_state, w)
    end.

Definition save_sync_state (state : SyncState) : M unit :=
  fun w => (Ok tt, emit_in (EvSave state) (with_state_file state w)).

Definition log_sync_activity (message level : string) : M unit :=
  timestamp <- datetime_now ;;
  emit (EvLog timestamp level message).

(** The message of the [TypeError] that [Path(None)] raises. *)
Definition path_type_error : string :=
  "expected str, bytes or os.PathLike object, not NoneType".

(** [is_document_supported]: [Path(filename)] raises when the name of
    the record is null. *)
Definition is_document_supported (doc_info : DocumentRecord) : result bool :=
  match get_or "" (doc_name doc_info) with
  | Some filename =>
      let file_ext := lower (path_suffix filename) in
      Ok (str_in file_ext SUPPORTED_EXTENSIONS)
  | None => Raise path_type_error
  end.

Definition should_sync_document (doc_info : DocumentRecord) (sync_state : SyncState)
  : result bool :=
  match doc_id doc_info with
  | None => Ok false
  | Some k =>
      if negb (nonempty k) then Ok false
      else
        match is_document_supported doc_info with
        | Raise e => Raise e
        | Ok supported =>
            if negb supported then Ok false
            else
              match synced_documents sync_state !! k with
              | Some entry =>
                  let last_modified := doc_modified doc_info in
                  let last_sync_modified := entry_modified entry in
                  match last_modified, last_sync_modified with
                  | Some lm, Some lsm =>
                      Ok (if nonempty lm && nonempty lsm then str_gt lm lsm
                          else true)
                  | _, _ => Ok true
                  end
              | None => Ok true
              end
        end
  end.

(** [self.api.download_document(doc_id)]: a returned path names a
    temporary file that now exists. *)
Definition api_download (document_id : option string) : M (option string) :=
  fun w =>
    let w1 := emit_in (EvDownload document_id) w in
    match api_download_document E w document_id with
    | Ok (Some p) => (Ok (Some p), with_temp_files ({[p]} ∪ temp_files w1) w1)
    | r => (r, w1)
    end.

Definition os_path_exists (p : string) : M bool :=
  fun w => (Ok (bool_decide (p ∈ temp_files w)), w).

Definition os_unlink (p : string) : M unit :=
  fun w => (Ok tt, emit_in (EvUnlink p) (with_temp_files (temp_files w ∖ {[p]}) w)).

(** The loop [for doc in documents: doc.metadata.update(...)]. *)
Definition add_netdocuments_metadata (doc_info : DocumentRecord)
    (name : option string) (doc : LangchainDocument) : M LangchainDocument :=
  now <- datetime_now ;;
  ret {| page_content := page_content doc;
         metadata :=
           <["sync_date" := PStr now]>
             (<["netdocuments_workspace" := of_opt (doc_workspace doc_info)]>
                (<["netdocuments_author" := of_opt (doc_author doc_info)]>
                   (<["netdocuments_modified" := of_opt (doc_modified doc_info)]>
                      (<["netdocuments_name" := of_opt name]>
                         (<["netdocuments_id" := of_opt (doc_id doc_info)]>
                            (metadata doc)))))) |}.

Fixpoint map_m {A B} (f : A -> M B) (l : list A) : M (list B) :=
  match l with
  | [] => ret []
  | x :: l' => y <- f x ;; ys <- map_m f l' ;; ret (y :: ys)
  end.

(** [doc_name] of [sync_document]:
    [doc_info.get("name", f"document_{doc_id}")]. *)
Definition name_or_default (doc_info : DocumentRecord) : option string :=
  get_or ("document_" +:+ fmt (doc_id doc_info)) (doc_name doc_info).

(** The name as the messages of [sync_document] show it: [f"{doc_name}"]. *)
Definition display_name (doc_info : DocumentRecord) : string :=
  fmt (name_or_default doc_info).

(** The body of the inner [try] of [sync_document]: process, tag, index. *)
Definition process_and_index (doc_info : DocumentRecord) (temp_file_path : string)
  : M (bool * option string) :=
  let name := display_name doc_info in
  documents <- process_document temp_file_path ;;
  documents <- map_m (add_netdocuments_metadata doc_info (name_or_default doc_info))
                 documents ;;
  failure <- (if rag_pipeline E then
                result <- rag_add_documents documents ;;
                if negb (add_success result) then
                  let error_msg :=
                    "Failed to add " +:+ name +:+ " to knowledge base: "
                      +:+ add_message result in
                  log_sync_activity error_msg "ERROR" ;;;
                  ret (Some error_msg)
                else ret None
              else ret None) ;;
  match failure with
  | Some error_msg => ret (false, Some error_msg)
  | None =>
      log_sync_activity
        ("Successfully synced " +:+ name +:+ " ("
           +:+ str_of_int (Z.of_nat (length documents)) +:+ " chunks)")
        "INFO" ;;;
      ret (true, None)
  end.

(** The [finally] clause of [sync_document]. *)
Definition cleanup (temp_file_path : string) : M unit :=
  present <- os_path_exists temp_file_path ;;
  if present then os_unlink temp_file_path else ret tt.

Definition syncing_message (doc_info : DocumentRecord) : string :=
  "Syncing document: " +:+ display_name doc_info +:+ " (ID: "
    +:+ fmt (doc_id doc_info) +:+ ")".

(** The body of the outer [try] of [sync_document]. *)
Definition sync_document_try (doc_info : DocumentRecord) : M (bool * option string) :=
  log_sync_activity (syncing_message doc_info) "INFO" ;;;
  temp_file_path <- api_download (doc_id doc_info) ;;
  match temp_file_path with
  | Some path =>
      if nonempty path then
        try_finally (process_and_index doc_info path) (cleanup path)
      else
        let error_msg := "Failed to download document " +:+ display_name doc_info in
        log_sync_activity error_msg "ERROR" ;;;
        ret (false, Some error_msg)
  | None =>
      let error_msg := "Failed to download document " +:+ display_name doc_info in
      log_sync_activity error_msg "ERROR" ;;;
      ret (false, Some error_msg)
  end.

(** The [except Exception as e] clause of [sync_document]. *)
Definition sync_document_except (doc_info : DocumentRecord) (e : string)
  : M (bool * option string) :=
  let error_msg := "Error syncing document " +:+ display_name doc_info +:+ ": " +:+ e in
  log_sync_activity error_msg "ERROR" ;;;
  ret (false, Some error_msg).

Definition sync_document (doc_info : DocumentRecord) : M (bool * option string) :=
  try_except (sync_document_try doc_info) (sync_document_except doc_info).

(** The variables of the loop of [sync_documents]. *)
Record LoopVars := {
  v_sync_state : SyncState;
  v_synced_count : nat;
  v_failed_count : nat;
  v_failed_docs : list FailureEntry
}.

(** [sync_state["synced_documents"][doc_id] = {...}].  The key is the
    document id, which is a non-empty string whenever this is reached
    (see [should_sync_document_id]). *)
Definition record_synced (doc_info : DocumentRecord) (sync_date : string)
    (st : SyncState) : SyncState :=
  match doc_id doc_info with
  | Some k =>
      {| last_sync := last_sync st;
         synced_documents :=
           <[k := {| entry_name := get (doc_name doc_info);
                     entry_modified := doc_modified doc_info;
                     entry_sync_date := sync_date |}]> (synced_documents st);
         failed_documents := failed_documents st |}
  | None => st
  end.

Definition failure_of (doc_info : DocumentRecord) (error : option string)
  : FailureEntry :=
  {| failure_id := doc_id doc_info;
     failure_name := get (doc_name doc_info);
     failure_error := error |}.

(** One iteration of the loop of [sync_documents]: an exception of the
    eligibility check leaves the loop, and [sync_documents] with it. *)
Definition sync_step (vars : LoopVars) (doc_info : DocumentRecord) : M LoopVars :=
  eligible <- lift (should_sync_document doc_info (v_sync_state vars)) ;;
  if negb eligible then ret vars
  else
    r <- sync_document doc_info ;;
    if r.1 then
      sync_date <- datetime_now ;;
      ret {| v_sync_state := record_synced doc_info sync_date (v_sync_state vars);
             v_synced_count := v_synced_count vars + 1;
             v_failed_count := v_failed_count vars;
             v_failed_docs := v_failed_docs vars |}
    else
      ret {| v_sync_state := v_sync_state vars;
             v_synced_count := v_synced_count vars;
             v_failed_count := v_failed_count vars + 1;
             v_failed_docs := v_failed_docs vars ++ [failure_of doc_info r.2] |}.

Definition init_vars (sync_state : SyncState) : LoopVars :=
  {| v_sync_state := sync_state; v_synced_count := 0;
     v_failed_count := 0; v_failed_docs := [] |}.

(** The state written at the end of the batch. *)
Definition final_state (vars : LoopVars) (now : string) : SyncState :=
  {| last_sync := Some now;
     synced_documents := synced_documents (v_sync_state vars);
     failed_documents := v_failed_docs vars |}.

Definition report_of (vars : LoopVars) (documents : list DocumentRecord)
  : SyncReport :=
  {| success := Nat.eqb (v_failed_count vars) 0;
     synced_count := v_synced_count vars;
     failed_count := v_failed_count vars;
     report_failed_documents := v_failed_docs vars;
     total_processed := length documents |}.

Definition sync_documents (documents : list DocumentRecord) : M SyncReport :=
  sync_state <- get_sync_state ;;
  log_sync_activity
    ("Starting sync of " +:+ str_of_int (Z.of_nat (length documents))
       +:+ " documents") "INFO" ;;;
  vars <- for_each sync_step documents (init_vars sync_state) ;;
  now <- datetime_now ;;
  save_sync_state (final_state vars now) ;;;
  let result := report_of vars documents in
  log_sync_activity
    ("Sync completed: " +:+ str_of_int (Z.of_nat (v_synced_count vars))
       +:+ " synced, " +:+ str_of_int (Z.of_nat (v_failed_count vars))
       +:+ " failed") "INFO" ;;;
  ret result.

End Engine.


(** * Properties *)

(** ** Eligibility *)

(** A record with the given id, name and modified timestamp, where
    [None] stands for an absent key. *)
Definition mk_doc (i n m : option string) : DocumentRecord :=
  {| doc_id := i;
     doc_name := match n with Some s => Str s | None => Absent end;
     doc_modified := m;
     doc_author := None; doc_workspace := None |}.

Definition mk_entry (m : option string) : SyncedEntry :=
  {| entry_name := None; entry_modified := m; entry_sync_date := "" |}.

Definition state_of (m : gmap string SyncedEntry) : SyncState :=
  {| last_sync := None; synced_documents := m; failed_documents := [] |}.

Lemma truthy_Some (o : option string) :
  truthy o = true <-> exists s, o = Some s /\ nonempty s = true.
Proof.
  destruct o as [s|]; simpl; split.
  - intros H. exists s. auto.
  - intros (s' & [= <-] & H). exact H.
  - discriminate.
  - intros (s' & [=] & _).
Qed.

(** An eligible document has a non-empty id and a supported type: the
    branch of [record_synced] without a key is never taken. *)
Lemma should_sync_document_id (d : DocumentRecord) (st : SyncState) :
  should_sync_document d st = Ok true ->
  exists k, doc_id d = Some k /\ nonempty k = true /\
            is_document_supported d = Ok true.
Proof.
  unfold should_sync_document.
  destruct (doc_id d) as [k|]; [|discriminate].
  destruct (nonempty k) eqn:Hk; [|discriminate].
  destruct (is_document_supported d) as [[|]|e] eqn:Hs; [|discriminate..].
  intros _. exists k. auto.
Qed.

(** The type check raises for a record whose name is null, and for no
    other. *)
Lemma is_document_supported_raises (d : DocumentRecord) (e : string) :
  is_document_supported d = Raise e <-> doc_name d = Null /\ e = path_type_error.
Proof.
  unfold is_document_supported.
  destruct (doc_name d); cbn [get_or]; split;
    try discriminate; try (intros [? _]; discriminate).
  - intros [= <-]. auto.
  - intros [_ ->]. reflexivity.
Qed.

Lemma is_document_supported_returns (d : DocumentRecord) :
  doc_name d <> Null -> exists b, is_document_supported d = Ok b.
Proof.
  intros H. destruct (is_document_supported d) as [b|e] eqn:Hs; [eauto|].
  apply is_document_supported_raises in Hs. tauto.
Qed.

(** The records on which the eligibility check returns: those without a
    usable id, which are skipped before the name is looked at, and those
    whose name is not null. *)
Definition checkable (d : DocumentRecord) : bool :=
  negb (truthy (doc_id d))
  || match doc_name d with Null => false | _ => true end.

Lemma should_sync_document_raises (d : DocumentRecord) (st : SyncState) (e : string) :
  should_sync_document d st = Raise e <->
  truthy (doc_id d) = true /\ doc_name d = Null /\ e = path_type_error.
Proof.
  unfold should_sync_document, truthy.
  destruct (doc_id d) as [k|]; [|split; [discriminate | intros [? _]; discriminate]].
  destruct (nonempty k); cbn [negb];
    [|split; [discriminate | intros [? _]; discriminate]].
  destruct (is_document_supported d) as [b|e'] eqn:Hs.
  - split.
    + destruct b; cbn [negb]; [|discriminate].
      destruct (synced_documents st !! k) as [entry|]; [|discriminate].
      destruct (doc_modified d), (entry_modified entry); discriminate.
    + intros (_ & Hn & _).
      assert (Hr : is_document_supported d = Raise path_type_error)
        by (apply is_document_supported_raises; auto).
      congruence.
  - apply is_document_supported_raises in Hs. destruct Hs as [Hn ->].
    split; [intros [= <-]; auto | intros (_ & _ & ->); reflexivity].
Qed.

Lemma should_sync_document_checkable (d : DocumentRecord) (st : SyncState) :
  checkable d = true <-> exists b, should_sync_document d st = Ok b.
Proof.
  destruct (should_sync_document d st) as [b|e] eqn:Hs.
  - split; [eauto|]. intros _. unfold checkable.
    destruct (truthy (doc_id d)) eqn:Ht; [|reflexivity].
    destruct (doc_name d) eqn:Hn; try reflexivity.
    assert (Hr : should_sync_document d st = Raise path_type_error)
      by (apply should_sync_document_raises; auto).
    congruence.
  - apply should_sync_document_raises in Hs. destruct Hs as (Ht & Hn & _).
    unfold checkable. rewrite Ht, Hn. split; [discriminate|].
    intros [b [=]].
Qed.

(** The eligibility decision reads the state only at the document's id. *)
Lemma should_sync_document_ext (d : DocumentRecord) (st st' : SyncState) :
  (forall k, doc_id d = Some k ->
             synced_documents st !! k = synced_documents st' !! k) ->
  should_sync_document d st = should_sync_document d st'.
Proof.
  intros H. unfold should_sync_document.
  destruct (doc_id d) as [k|]; [|reflexivity].
  rewrite (H k eq_refl). reflexivity.
Qed.

(** ** Reasoning about runs *)

(** A computation that returns normally from every world. *)
Definition total {A} (m : M A) : Prop :=
  forall w, exists a w', m w = (Ok a, w').

Lemma total_ret {A} (a : A) : total (ret a).
Proof. intros w. exists a, w. reflexivity. Qed.

Lemma total_bind {A B} (m : M A) (f : A -> M B) :
  total m -> (forall a, total (f a)) -> total (bind m f).
Proof.
  intros Hm Hf w. destruct (Hm w) as (a & w' & Ha).
  unfold bind. rewrite Ha. apply Hf.
Qed.

Lemma total_try_except {A} (body : M A) (handler : string -> M A) :
  (forall e, total (handler e)) -> total (try_except body handler).
Proof.
  intros Hh w. unfold try_except.
  destruct (body w) as [[a|e] w'].
  - exists a, w'. reflexivity.
  - apply Hh.
Qed.

Lemma total_for_each {A S} (body : S -> A -> M S) (l : list A) :
  (forall acc x, total (body acc x)) -> forall acc, total (for_each body l acc).
Proof.
  intros Hb. induction l as [|x l IH]; intros acc; simpl.
  - apply total_ret.
  - apply total_bind; [apply Hb | exact IH].
Qed.

(** Relations between the world before and after a computation that are
    preserved by the control structures. *)
Section Preserve.

Variable P : World -> World -> Prop.
Hypothesis P_refl : forall w, P w w.
Hypothesis P_trans : forall a b c, P a b -> P b c -> P a c.

Definition preserves {A} (m : M A) : Prop := forall w, P w (m w).2.

Lemma preserves_ret {A} (a : A) : preserves (ret a).
Proof. intros w. apply P_refl. Qed.

Lemma preserves_raise {A} (e : string) : preserves (@raise A e).
Proof. intros w. apply P_refl. Qed.

Lemma preserves_bind {A B} (m : M A) (f : A -> M B) :
  preserves m -> (forall a, preserves (f a)) -> preserves (bind m f).
Proof.
  intros Hm Hf w. unfold bind. specialize (Hm w).
  destruct (m w) as [[a|e] w']; simpl in *.
  - eapply P_trans; [exact Hm | apply Hf].
  - exact Hm.
Qed.

Lemma preserves_try_except {A} (body : M A) (handler : string -> M A) :
  preserves body -> (forall e, preserves (handler e)) ->
  preserves (try_except body handler).
Proof.
  intros Hm Hh w. unfold try_except. specialize (Hm w).
  destruct (body w) as [[a|e] w']; simpl in *.
  - exact Hm.
  - eapply P_trans; [exact Hm | apply Hh].
Qed.

Lemma preserves_try_finally {A} (body : M A) (fin : M unit) :
  preserves body -> preserves fin -> preserves (try_finally body fin).
Proof.
  intros Hm Hf w. unfold try_finally. specialize (Hm w).
  destruct (body w) as [r w']. specialize (Hf w').
  destruct (fin w') as [[u|e] w'']; simpl in *; eapply P_trans; eauto.
Qed.

Lemma preserves_for_each {A S} (body : S -> A -> M S) (l : list A) :
  (forall acc x, preserves (body acc x)) ->
  forall acc, preserves (for_each body l acc).
Proof.
  intros Hb. induction l as [|x l IH]; intros acc; simpl.
  - apply preserves_ret.
  - apply preserves_bind; [apply Hb | exact IH].
Qed.

(** What the primitive effects of the engine, other than the write of the
    state file, must satisfy. *)
Hypothesis P_tick : forall w, P w (tick_in w).
Hypothesis P_emit : forall e w, is_save e = false -> P w (emit_in e w).
Hypothesis P_files : forall f w, P w (with_temp_files f w).
Hypothesis P_db : forall db w, P w (with_vector_db db w).

Variable E : Env.

Lemma preserves_now : preserves (datetime_now E).
Proof. intros w. apply P_tick. Qed.

Lemma preserves_log (m l : string) : preserves (log_sync_activity E m l).
Proof.
  intros w. simpl. eapply P_trans; [apply P_tick | apply P_emit; reflexivity].
Qed.

Lemma preserves_map_m {A B} (f : A -> M B) (l : list A) :
  (forall x, preserves (f x)) -> preserves (map_m f l).
Proof.
  intros Hf. induction l as [|x l IH]; simpl.
  - apply preserves_ret.
  - apply preserves_bind; [apply Hf|]. intros y.
    apply preserves_bind; [exact IH|]. intros ys. apply preserves_ret.
Qed.

Lemma preserves_extract_text (p : string) : preserves (extract_text E p).
Proof.
  unfold extract_text.
  repeat match goal with |- context [if ?b then _ else _] => destruct b end;
    try (intros w; apply P_refl).
Qed.

Lemma preserves_process_document (p : string) : preserves (process_document E p).
Proof.
  unfold process_document. apply preserves_bind; [apply preserves_extract_text|].
  intros text. destruct (negb _); [apply preserves_raise | apply preserves_ret].
Qed.

Lemma preserves_chroma_add docs ids : preserves (chroma_add E docs ids).
Proof.
  intros w. unfold chroma_add.
  destruct (chroma_add_documents E w docs ids); cbn [snd].
  - eapply P_trans; [apply P_db | apply P_emit; reflexivity].
  - apply P_refl.
Qed.

Lemma preserves_rag_add_documents docs : preserves (rag_add_documents E docs).
Proof.
  unfold rag_add_documents, vector_store_add_documents.
  apply preserves_try_except.
  - apply preserves_bind.
    + apply preserves_try_except.
      * apply preserves_bind; [apply preserves_chroma_add|].
        intros _. apply preserves_ret.
      * intros e. apply preserves_raise.
    + intros ids. apply preserves_ret.
  - intros e. apply preserves_ret.
Qed.

Lemma preserves_process_and_index d p : preserves (process_and_index E d p).
Proof.
  unfold process_and_index.
  apply preserves_bind; [apply preserves_process_document|]. intros docs.
  apply preserves_bind.
  { apply preserves_map_m. intros x. unfold add_netdocuments_metadata.
    apply preserves_bind; [apply preserves_now|]. intros now. apply preserves_ret. }
  intros docs'. apply preserves_bind.
  - destruct (rag_pipeline E); [|apply preserves_ret].
    apply preserves_bind; [apply preserves_rag_add_documents|].
    intros r. destruct (negb _); [|apply preserves_ret].
    apply preserves_bind; [apply preserves_log|]. intros _. apply preserves_ret.
  - intros [msg|]; [apply preserves_ret|].
    apply preserves_bind; [apply preserves_log|]. intros _. apply preserves_ret.
Qed.

Lemma preserves_cleanup p : preserves (cleanup p).
Proof.
  intros w. unfold cleanup, bind, os_path_exists, os_unlink.
  destruct (bool_decide _); cbn [snd].
  - eapply P_trans; [apply P_files | apply P_emit; reflexivity].
  - apply P_refl.
Qed.

Lemma preserves_api_download i : preserves (api_download E i).
Proof.
  intros w. unfold api_download.
  destruct (api_download_document E w i) as [[p|]|e]; cbn [snd].
  - eapply P_trans; [apply (P_emit (EvDownload i)); reflexivity | apply P_files].
  - apply P_emit; reflexivity.
  - apply P_emit; reflexivity.
Qed.

Lemma preserves_sync_document d : preserves (sync_document E d).
Proof.
  unfold sync_document. apply preserves_try_except.
  - unfold sync_document_try.
    apply preserves_bind; [apply preserves_log|]. intros _.
    apply preserves_bind; [apply preserves_api_download|]. intros [p|].
    + destruct (nonempty p).
      * apply preserves_try_finally;
          [apply preserves_process_and_index | apply preserves_cleanup].
      * apply preserves_bind; [apply preserves_log|]. intros _. apply preserves_ret.
    + apply preserves_bind; [apply preserves_log|]. intros _. apply preserves_ret.
  - intros e. unfold sync_document_except.
    apply preserves_bind; [apply preserves_log|]. intros _. apply preserves_ret.
Qed.

Lemma preserves_sync_step vars d : preserves (sync_step E vars d).
Proof.
  unfold sync_step. apply preserves_bind; [intros w; apply P_refl|].
  intros eligible. destruct (negb eligible); [apply preserves_ret|].
  apply preserves_bind; [apply preserves_sync_document|]. intros [b err].
  destruct b; simpl.
  - apply preserves_bind; [apply preserves_now|]. intros ts. apply preserves_ret.
  - apply preserves_ret.
Qed.

Lemma preserves_sync_loop docs vars :
  preserves (for_each (sync_step E) docs vars).
Proof. apply preserves_for_each. intros acc x. apply preserves_sync_step. Qed.

End Preserve.

(** ** Which runs return *)

Section Returning.

Variable E : Env.

Lemma log_sync_activity_eq (m l : string) (w : World) :
  log_sync_activity E m l w =
  (Ok tt, emit_in (EvLog (isoformat_now E (clock w)) l m) (tick_in w)).
Proof. reflexivity. Qed.

Lemma total_log (m l : string) : total (log_sync_activity E m l).
Proof. intros w. eexists _, _. apply log_sync_activity_eq. Qed.

Lemma total_sync_document_except d e : total (sync_document_except E d e).
Proof.
  unfold sync_document_except. apply total_bind; [apply total_log|].
  intros _. apply total_ret.
Qed.

Lemma total_sync_document d : total (sync_document E d).
Proof. apply total_try_except. intros e. apply total_sync_document_except. Qed.

(** The part of an iteration that follows a positive eligibility check. *)
Definition attempt (vars : LoopVars) (d : DocumentRecord) : M LoopVars :=
  r <- sync_document E d ;;
  if r.1 then
    sync_date <- datetime_now E ;;
    ret {| v_sync_state := record_synced d sync_date (v_sync_state vars);
           v_synced_count := v_synced_count vars + 1;
           v_failed_count := v_failed_count vars;
           v_failed_docs := v_failed_docs vars |}
  else
    ret {| v_sync_state := v_sync_state vars;
           v_synced_count := v_synced_count vars;
           v_failed_count := v_failed_count vars + 1;
           v_failed_docs := v_failed_docs vars ++ [failure_of d r.2] |}.

Lemma sync_step_eq vars d w :
  sync_step E vars d w =
  match should_sync_document d (v_sync_state vars) with
  | Ok true => attempt vars d w
  | Ok false => (Ok vars, w)
  | Raise e => (Raise e, w)
  end.
Proof.
  unfold sync_step, lift, bind at 1.
  destruct (should_sync_document d (v_sync_state vars)) as [[|]|e]; reflexivity.
Qed.

Lemma total_attempt vars d : total (attempt vars d).
Proof.
  unfold attempt.
  apply total_bind; [apply total_sync_document|]. intros [b err].
  destruct b; simpl; [|apply total_ret].
  apply total_bind; [|intros ts; apply total_ret].
  intros w. eexists _, _. reflexivity.
Qed.

(** An iteration returns when the eligibility check does; the exception
    of the check is the only one that leaves it. *)
Lemma returns_sync_step vars d w :
  (exists b, should_sync_document d (v_sync_state vars) = Ok b) ->
  exists vars' w', sync_step E vars d w = (Ok vars', w').
Proof.
  intros [b Hb]. rewrite sync_step_eq, Hb. destruct b.
  - apply total_attempt.
  - eauto.
Qed.

Lemma raises_sync_step vars d w e w' :
  sync_step E vars d w = (Raise e, w') ->
  should_sync_document d (v_sync_state vars) = Raise e /\ w' = w.
Proof.
  rewrite sync_step_eq.
  destruct (should_sync_document d (v_sync_state vars)) as [[|]|e0] eqn:Hs.
  - destruct (total_attempt vars d w) as (v & w1 & H). rewrite H. discriminate.
  - discriminate.
  - intros [= -> ->]. auto.
Qed.

(** The loop returns on the lists all of whose records can be checked,
    and on no other. *)
Lemma returns_sync_loop docs vars w :
  Forall (fun d => checkable d = true) docs ->
  exists vars' w', for_each (sync_step E) docs vars w = (Ok vars', w').
Proof.
  intros H. revert vars w. induction H as [|d docs Hd _ IH]; intros vars w.
  - eexists _, _. reflexivity.
  - cbn [for_each]. unfold bind.
    destruct (returns_sync_step vars d w) as (v & w1 & Hs).
    { apply should_sync_document_checkable, Hd. }
    rewrite Hs. apply IH.
Qed.

Lemma sync_loop_checkable docs vars w vars' w' :
  for_each (sync_step E) docs vars w = (Ok vars', w') ->
  Forall (fun d => checkable d = true) docs.
Proof.
  revert vars w. induction docs as [|d docs IH]; intros vars w H; [constructor|].
  cbn [for_each] in H. unfold bind in H.
  destruct (sync_step E vars d w) as [[v|e] w1] eqn:Hs; [|discriminate].
  constructor; [|eapply IH, H].
  rewrite sync_step_eq in Hs.
  apply (should_sync_document_checkable d (v_sync_state vars)).
  destruct (should_sync_document d (v_sync_state vars)) as [b|e]; [eauto|discriminate].
Qed.

(** A loop that raises does so with the [TypeError] of the type check,
    at a record that has an id and a null name. *)
Lemma sync_loop_raises docs vars w e w' :
  for_each (sync_step E) docs vars w = (Raise e, w') ->
  e = path_type_error /\
  exists l1 d l2, docs = l1 ++ d :: l2 /\
    Forall (fun d => checkable d = true) l1 /\
    truthy (doc_id d) = true /\ doc_name d = Null /\
    exists vars1, for_each (sync_step E) l1 vars w = (Ok vars1, w').
Proof.
  revert vars w. induction docs as [|d docs IH]; intros vars w H; [discriminate|].
  cbn [for_each] in H. unfold bind in H.
  destruct (sync_step E vars d w) as [[v|e0] w1] eqn:Hs.
  - destruct (IH _ _ H) as (He & l1 & d' & l2 & -> & Hl1 & Ht & Hn & vars1 & Hrun).
    split; [exact He|]. exists (d :: l1), d', l2.
    split; [reflexivity|]. split.
    { constructor; [|exact Hl1].
      apply (should_sync_document_checkable d (v_sync_state vars)).
      rewrite sync_step_eq in Hs.
      destruct (should_sync_document d (v_sync_state vars)) as [b|e1];
        [eauto|discriminate]. }
    split; [exact Ht|]. split; [exact Hn|]. exists vars1.
    cbn [for_each]. unfold bind. rewrite Hs. exact Hrun.
  - injection H as <- <-.
    apply raises_sync_step in Hs. destruct Hs as [Hs ->].
    apply should_sync_document_raises in Hs. destruct Hs as (Ht & Hn & ->).
    split; [reflexivity|]. exists [], d, docs. repeat split; auto.
    exists vars. reflexivity.
Qed.

(** The state [get_sync_state] returns in a world. *)
Definition loaded (w : World) : SyncState :=
  match state_file w with
  | Some s => s
  | None => empty_sync_state
  end.

(** The world in which the loop of [sync_documents] starts. *)
Definition start_world (docs : list DocumentRecord) (w : World) : World :=
  (log_sync_activity E
     ("Starting sync of " +:+ str_of_int (Z.of_nat (length docs)) +:+ " documents")
     "INFO" w).2.

(** The world [sync_documents] ends in, from the world the loop ended in. *)
Definition commit_world (vars : LoopVars) (w1 : World) : World :=
  let st := final_state vars (isoformat_now E (clock w1)) in
  (log_sync_activity E
     ("Sync completed: " +:+ str_of_int (Z.of_nat (v_synced_count vars))
        +:+ " synced, " +:+ str_of_int (Z.of_nat (v_failed_count vars)) +:+ " failed")
     "INFO"
     (emit_in (EvSave st) (with_state_file st (tick_in w1)))).2.

Lemma sync_documents_eq docs w vars w1 :
  for_each (sync_step E) docs (init_vars (loaded w)) (start_world docs w) = (Ok vars, w1) ->
  sync_documents E docs w = (Ok (report_of vars docs), commit_world vars w1).
Proof.
  intros H. unfold sync_documents, get_sync_state, loaded, start_world in *.
  unfold bind at 1.
  assert (Hl : (match state_file w with
                | Some s => (Ok s, w)
                | None => (Ok empty_sync_state, w)
                end) = (Ok (match state_file w with
                            | Some s => s | None => empty_sync_state end), w)).
  { destruct (state_file w); reflexivity. }
  rewrite Hl. unfold bind at 1. rewrite log_sync_activity_eq in *.
  cbn [snd] in H. unfold bind at 1. rewrite H. reflexivity.
Qed.

(** An exception of the loop leaves [sync_documents]: nothing after the
    loop runs. *)
Lemma sync_documents_raise docs w e w1 :
  for_each (sync_step E) docs (init_vars (loaded w)) (start_world docs w)
    = (Raise e, w1) ->
  sync_documents E docs w = (Raise e, w1).
Proof.
  intros H. unfold sync_documents, get_sync_state, loaded, start_world in *.
  unfold bind at 1.
  assert (Hl : (match state_file w with
                | Some s => (Ok s, w)
                | None => (Ok empty_sync_state, w)
                end) = (Ok (match state_file w with
                            | Some s => s | None => empty_sync_state end), w)).
  { destruct (state_file w); reflexivity. }
  rewrite Hl. unfold bind at 1. rewrite log_sync_activity_eq in *.
  cbn [snd] in H. unfold bind at 1. rewrite H. reflexivity.
Qed.

(** A run that returns went through the whole loop. *)
Lemma sync_documents_returns docs w report :
  (sync_documents E docs w).1 = Ok report ->
  exists vars w1,
    for_each (sync_step E) docs (init_vars (loaded w)) (start_world docs w)
      = (Ok vars, w1) /\
    report = report_of vars docs.
Proof.
  intros H.
  destruct (for_each (sync_step E) docs (init_vars (loaded w)) (start_world docs w))
    as [[vars|e] w1] eqn:Hloop.
  - exists vars, w1. split; [reflexivity|].
    rewrite (sync_documents_eq _ _ _ _ Hloop) in H. cbn [fst] in H. congruence.
  - rewrite (sync_documents_raise _ _ _ _ Hloop) in H. discriminate.
Qed.

(** [sync_documents] returns on the lists all of whose records can be
    checked. *)
Lemma sync_documents_total docs w :
  Forall (fun d => checkable d = true) docs ->
  exists report w', sync_documents E docs w = (Ok report, w').
Proof.
  intros Hc.
  destruct (returns_sync_loop docs (init_vars (loaded w)) (start_world docs w) Hc)
    as (vars & w1 & H).
  eexists _, _. apply (sync_documents_eq _ _ _ _ H).
Qed.

End Returning.

(** ** No write of the state file before the end of the batch *)

Definition not_save (e : event) : bool := negb (is_save e).

(** The state file is untouched and no write of it is in the new part of
    the trace. *)
Definition quiet (w w' : World) : Prop :=
  state_file w' = state_file w /\
  exists evs, trace w' = trace w ++ evs /\ forallb not_save evs = true.

Lemma quiet_refl w : quiet w w.
Proof. split; [reflexivity|]. exists []. rewrite app_nil_r. auto. Qed.

Lemma quiet_trans a b c : quiet a b -> quiet b c -> quiet a c.
Proof.
  intros (H1 & e1 & T1 & F1) (H2 & e2 & T2 & F2). split; [congruence|].
  exists (e1 ++ e2). rewrite T2, T1, <- app_assoc. split; [reflexivity|].
  rewrite forallb_app, F1, F2. reflexivity.
Qed.

Lemma quiet_tick w : quiet w (tick_in w).
Proof. split; [reflexivity|]. exists []. simpl. rewrite app_nil_r. auto. Qed.

Lemma quiet_emit e w : is_save e = false -> quiet w (emit_in e w).
Proof.
  intros H. split; [reflexivity|]. exists [e]. simpl.
  unfold not_save. rewrite H. auto.
Qed.

Lemma quiet_files f w : quiet w (with_temp_files f w).
Proof. split; [reflexivity|]. exists []. simpl. rewrite app_nil_r. auto. Qed.

Lemma quiet_db db w : quiet w (with_vector_db db w).
Proof. split; [reflexivity|]. exists []. simpl. rewrite app_nil_r. auto. Qed.

Lemma sync_loop_quiet E docs vars w :
  quiet w (for_each (sync_step E) docs vars w).2.
Proof.
  apply (preserves_sync_loop quiet quiet_refl quiet_trans
           quiet_tick quiet_emit quiet_files quiet_db).
Qed.

Lemma for_each_app {A S} (body : S -> A -> M S) (l1 l2 : list A) acc w :
  for_each body (l1 ++ l2) acc w =
  match for_each body l1 acc w with
  | (Ok acc', w') => for_each body l2 acc' w'
  | (Raise e, w') => (Raise e, w')
  end.
Proof.
  revert acc w. induction l1 as [|x l1 IH]; intros acc w; simpl.
  - reflexivity.
  - unfold bind. destruct (body acc x w) as [[acc'|e] w']; [apply IH | reflexivity].
Qed.

Lemma start_world_quiet E docs w : quiet w (start_world E docs w).
Proof.
  unfold start_world. rewrite log_sync_activity_eq. cbn [snd].
  eapply quiet_trans; [apply quiet_tick | apply quiet_emit; reflexivity].
Qed.

(** A run that raises leaves the state file as it was. *)
Lemma sync_documents_raised_state E docs w e :
  (sync_documents E docs w).1 = Raise e ->
  state_file (sync_documents E docs w).2 = state_file w.
Proof.
  intros He.
  destruct (for_each (sync_step E) docs (init_vars (loaded w)) (start_world E docs w))
    as [[vars|e'] w1] eqn:Hloop.
  { rewrite (sync_documents_eq E docs w vars w1 Hloop) in He. discriminate. }
  rewrite (sync_documents_raise E docs w e' w1 Hloop). cbn [snd].
  pose proof (sync_loop_quiet E docs (init_vars (loaded w)) (start_world E docs w)) as Hq.
  rewrite Hloop in Hq.
  apply (quiet_trans _ _ _ (start_world_quiet E docs w) Hq).
Qed.

(** X28: on a list all of whose records can be checked (no record has
    an id and a null name), [sync_documents] returns; the loop leaves the
    state file as it was and writes it in no step, also after every
    prefix of the batch; the state file is written exactly once, after
    the loop, as the last effect but the closing log line; the written
    state has [last_sync] set to the time read when the loop has ended.
    On every other list [sync_documents] raises the [TypeError] of the
    type check and the state file is not written at all. *)
Theorem sync_documents_single_commit (E : Env) (docs : list DocumentRecord) (w : World) :
  (Forall (fun d => checkable d = true) docs ->
   exists vars w1 evs,
    for_each (sync_step E) docs (init_vars (loaded w)) (start_world E docs w)
      = (Ok vars, w1) /\
    trace w1 = trace w ++ evs /\ forallb not_save evs = true /\
    state_file w1 = state_file w /\
    (forall l1 l2, docs = l1 ++ l2 ->
       exists vars' w',
         for_each (sync_step E) l1 (init_vars (loaded w)) (start_world E docs w)
           = (Ok vars', w') /\
         quiet w w') /\
    let st := final_state vars (isoformat_now E (clock w1)) in
    let w' := (sync_documents E docs w).2 in
    (exists report, (sync_documents E docs w).1 = Ok report) /\
    (exists tlog msg,
        trace w' = trace w ++ evs ++ [EvSave st; EvLog tlog "INFO" msg]) /\
    length (List.filter is_save (drop (length (trace w)) (trace w'))) = 1 /\
    state_file w' = Some st /\
    last_sync st = Some (isoformat_now E (clock w1))) /\
  (~ Forall (fun d => checkable d = true) docs ->
   exists w',
     sync_documents E docs w = (Raise path_type_error, w') /\
     state_file w' = state_file w /\
     List.filter is_save (drop (length (trace w)) (trace w')) = []).
Proof.
  pose proof (start_world_quiet E docs w) as Hstart.
  assert (Hfilter : forall evs, forallb not_save evs = true ->
                                List.filter is_save evs = []).
  { intros evs Hns. induction evs as [|e evs IH]; [reflexivity|].
    simpl in *. apply andb_true_iff in Hns as [He Hr].
    unfold not_save in He. destruct (is_save e); [discriminate|]. auto. }
  split; cycle 1.
  { intros Hnot.
    destruct (for_each (sync_step E) docs (init_vars (loaded w)) (start_world E docs w))
      as [[vars|e] w1] eqn:Hloop.
    { exfalso. apply Hnot. eapply sync_loop_checkable, Hloop. }
    pose proof (sync_loop_quiet E docs (init_vars (loaded w)) (start_world E docs w)) as Hq.
    rewrite Hloop in Hq. cbn [snd] in Hq.
    destruct (quiet_trans _ _ _ Hstart Hq) as (Hfile & evs & Htr & Hns).
    destruct (sync_loop_raises E _ _ _ _ _ Hloop) as [-> _].
    exists w1. split; [apply sync_documents_raise, Hloop|].
    split; [exact Hfile|].
    rewrite Htr, drop_app_length. apply Hfilter, Hns. }
  intros Hc.
  destruct (returns_sync_loop E docs (init_vars (loaded w)) (start_world E docs w) Hc)
    as (vars & w1 & Hloop).
  pose proof (sync_loop_quiet E docs (init_vars (loaded w)) (start_world E docs w)) as Hq.
  rewrite Hloop in Hq. cbn [snd] in Hq.
  destruct (quiet_trans _ _ _ Hstart Hq) as (Hfile & evs & Htr & Hns).
  exists vars, w1, evs. repeat (split; [assumption|]).
  split.
  { intros l1 l2 Hd.
    destruct (returns_sync_loop E l1 (init_vars (loaded w)) (start_world E docs w))
      as (vars' & w' & Hl1).
    { rewrite Hd in Hc. apply Forall_app in Hc. apply Hc. }
    exists vars', w'. split; [exact Hl1|].
    pose proof (sync_loop_quiet E l1 (init_vars (loaded w)) (start_world E docs w)) as Hq1.
    rewrite Hl1 in Hq1. exact (quiet_trans _ _ _ Hstart Hq1). }
  rewrite (sync_documents_eq E docs w vars w1 Hloop). cbn [fst snd].
  unfold commit_world. rewrite log_sync_activity_eq. cbn [snd].
  split; [eauto|]. split.
  { eexists _, _. cbn [trace emit_in tick_in with_state_file].
    rewrite Htr, <- !app_assoc. reflexivity. }
  split.
  { cbn [trace emit_in tick_in with_state_file].
    rewrite Htr, <- !app_assoc, drop_app_length.
    rewrite List.filter_app. simpl.
    rewrite (Hfilter evs Hns). reflexivity. }
  split; reflexivity.
Qed.

(** ** Results of computations *)

(** Every normal result of [m] satisfies [Q]. *)
Definition returns {A} (Q : A -> Prop) (m : M A) : Prop :=
  forall w a w', m w = (Ok a, w') -> Q a.

Lemma returns_ret {A} (Q : A -> Prop) (a : A) : Q a -> returns Q (ret a).
Proof. intros H w a' w' [= <- _]. exact H. Qed.

Lemma returns_bind {A B} (Q : B -> Prop) (m : M A) (f : A -> M B) :
  (forall a, returns Q (f a)) -> returns Q (bind m f).
Proof.
  intros Hf w b w'. unfold bind.
  destruct (m w) as [[a|e] w1]; [apply Hf | discriminate].
Qed.

Lemma returns_try_except {A} (Q : A -> Prop) (body : M A) (handler : string -> M A) :
  returns Q body -> (forall e, returns Q (handler e)) ->
  returns Q (try_except body handler).
Proof.
  intros Hb Hh w a w'. unfold try_except.
  destruct (body w) as [[a1|e] w1] eqn:Hbw.
  - intros [= <- _]. eapply Hb, Hbw.
  - apply Hh.
Qed.

Lemma returns_try_finally {A} (Q : A -> Prop) (body : M A) (fin : M unit) :
  returns Q body -> returns Q (try_finally body fin).
Proof.
  intros Hb w a w'. unfold try_finally.
  destruct (body w) as [r w1] eqn:Hbw.
  destruct (fin w1) as [[u|e] w2]; [|discriminate].
  intros [= -> _]. eapply Hb, Hbw.
Qed.

(** The two shapes of what [sync_document] returns: [(True, None)] or
    [(False, error_msg)]. *)
Definition outcome_ok (r : bool * option string) : Prop :=
  r = (true, None) \/ exists msg, r = (false, Some msg).

Lemma returns_outcome_process_and_index E d p :
  returns outcome_ok (process_and_index E d p).
Proof.
  unfold process_and_index.
  apply returns_bind. intros docs. apply returns_bind. intros docs'.
  apply returns_bind. intros [msg|].
  - apply returns_ret. right. eauto.
  - apply returns_bind. intros _. apply returns_ret. left. reflexivity.
Qed.

Lemma returns_outcome_sync_document E d : returns outcome_ok (sync_document E d).
Proof.
  unfold sync_document. apply returns_try_except.
  - unfold sync_document_try. apply returns_bind. intros _.
    apply returns_bind. intros [p|].
    + destruct (nonempty p).
      * apply returns_try_finally, returns_outcome_process_and_index.
      * apply returns_bind. intros _. apply returns_ret. right. eauto.
    + apply returns_bind. intros _. apply returns_ret. right. eauto.
  - intros e. unfold sync_document_except.
    apply returns_bind. intros _. apply returns_ret. right. eauto.
Qed.

(** An exception of the [try] block is turned into a failure result. *)
Lemma sync_document_caught E d w e :
  (sync_document_try E d w).1 = Raise e ->
  (sync_document E d w).1 =
    Ok (false, Some ("Error syncing document " +:+ display_name d +:+ ": " +:+ e)).
Proof.
  intros H. unfold sync_document, try_except.
  destruct (sync_document_try E d w) as [[a|e'] w']; simpl in H; [discriminate|].
  injection H as ->. reflexivity.
Qed.

(** What one iteration does with an attempted document that failed. *)
Lemma sync_step_failed E vars d w err w' :
  should_sync_document d (v_sync_state vars) = Ok true ->
  sync_document E d w = (Ok (false, err), w') ->
  sync_step E vars d w =
    (Ok {| v_sync_state := v_sync_state vars;
           v_synced_count := v_synced_count vars;
           v_failed_count := v_failed_count vars + 1;
           v_failed_docs := v_failed_docs vars ++ [failure_of d err] |}, w').
Proof.
  intros He Hs. rewrite sync_step_eq, He. unfold attempt.
  unfold bind at 1. rewrite Hs. reflexivity.
Qed.

(** What one iteration does with an attempted document that succeeded. *)
Lemma sync_step_synced E vars d w err w' :
  should_sync_document d (v_sync_state vars) = Ok true ->
  sync_document E d w = (Ok (true, err), w') ->
  sync_step E vars d w =
    (Ok {| v_sync_state :=
             record_synced d (isoformat_now E (clock w')) (v_sync_state vars);
           v_synced_count := v_synced_count vars + 1;
           v_failed_count := v_failed_count vars;
           v_failed_docs := v_failed_docs vars |}, tick_in w').
Proof.
  intros He Hs. rewrite sync_step_eq, He. unfold attempt.
  unfold bind at 1. rewrite Hs. reflexivity.
Qed.

(** What one iteration does with a document that is not eligible. *)
Lemma sync_step_skipped E vars d w :
  should_sync_document d (v_sync_state vars) = Ok false ->
  sync_step E vars d w = (Ok vars, w).
Proof. intros He. rewrite sync_step_eq, He. reflexivity. Qed.

(** What one iteration does with a record whose check raises. *)
Lemma sync_step_raised E vars d w e :
  should_sync_document d (v_sync_state vars) = Raise e ->
  sync_step E vars d w = (Raise e, w).
Proof. intros He. rewrite sync_step_eq, He. reflexivity. Qed.

(** An exception of the vector store is turned into a failure result by
    [RAGPipeline.add_documents]. *)
Lemma rag_add_documents_caught E docs w e :
  chroma_add_documents E w docs (store_ids docs) = Raise e ->
  rag_add_documents E docs w =
    (Ok {| add_success := false;
           add_message :=
             "Error adding documents: Error adding documents to vector store: " +:+ e;
           add_document_ids := [];
           add_document_count := 0 |}, w).
Proof.
  intros H.
  unfold rag_add_documents, vector_store_add_documents, try_except, bind, chroma_add.
  rewrite H. reflexivity.
Qed.

(** ** The temporary file *)

(** The temporary files are the same before and after. *)
Definition same_files (w w' : World) : Prop := temp_files w' = temp_files w.

(** The trace only grows. *)
Definition extends (w w' : World) : Prop :=
  exists evs, trace w' = trace w ++ evs.

Lemma extends_refl w : extends w w.
Proof. exists []. symmetry. apply app_nil_r. Qed.

Lemma extends_trans a b c : extends a b -> extends b c -> extends a c.
Proof.
  intros [e1 H1] [e2 H2]. exists (e1 ++ e2). rewrite H2, H1. symmetry. apply app_assoc.
Qed.

Lemma quiet_extends w w' : quiet w w' -> extends w w'.
Proof. intros (_ & evs & H & _). exists evs. exact H. Qed.

Lemma process_and_index_same_files E d p w :
  same_files w (process_and_index E d p w).2.
Proof.
  apply (preserves_process_and_index same_files); unfold same_files;
    intros; simpl; congruence.
Qed.

Lemma process_and_index_extends E d p w :
  extends w (process_and_index E d p w).2.
Proof.
  apply (preserves_process_and_index extends extends_refl extends_trans).
  - intros w0. exists []. simpl. symmetry. apply app_nil_r.
  - intros e w0 _. exists [e]. reflexivity.
  - intros db w0. exists []. simpl. symmetry. apply app_nil_r.
Qed.

(** The world in which [sync_document] issues the download. *)
Definition at_download (E : Env) (d : DocumentRecord) (w : World) : World :=
  (log_sync_activity E (syncing_message d) "INFO" w).2.

(** The world right after a download that returned the path [p]. *)
Definition downloaded (E : Env) (d : DocumentRecord) (p : string) (w : World) : World :=
  let w1 := emit_in (EvDownload (doc_id d)) (at_download E d w) in
  with_temp_files ({[p]} ∪ temp_files w1) w1.

Lemma sync_document_try_downloaded E d w p :
  api_download_document E (at_download E d w) (doc_id d) = Ok (Some p) ->
  nonempty p = true ->
  sync_document_try E d w =
  try_finally (process_and_index E d p) (cleanup p) (downloaded E d p w).
Proof.
  intros Hd Hp. unfold sync_document_try, at_download in *.
  unfold bind at 1. rewrite log_sync_activity_eq in *. cbn [snd] in Hd.
  unfold bind at 1. unfold api_download. rewrite Hd, Hp. reflexivity.
Qed.

(** C9: when the download returned a path, that file is gone when
    [sync_document] returns, whatever extraction, chunking and the store
    upsert did: the [finally] clause found it and unlinked it, after the
    download and before the return. *)
Theorem temp_file_removed (E : Env) (d : DocumentRecord) (w : World) (p : string) :
  api_download_document E (at_download E d w) (doc_id d) = Ok (Some p) ->
  nonempty p = true ->
  let w' := (sync_document E d w).2 in
  (p ∈ temp_files (downloaded E d p w)) /\
  (exists r, (sync_document E d w).1 = Ok r) /\
  (p ∉ temp_files w') /\
  exists before after,
    trace w' =
      trace w ++ before ++ [EvDownload (doc_id d)] ++ after ++ [EvUnlink p] ++
        match (process_and_index E d p (downloaded E d p w)).1 with
        | Ok _ => []
        | Raise e =>
            [EvLog (isoformat_now E (clock (process_and_index E d p (downloaded E d p w)).2))
               "ERROR"
               ("Error syncing document " +:+ display_name d +:+ ": " +:+ e)]
        end.
Proof.
  intros Hd Hp. cbn zeta.
  assert (Hin : p ∈ temp_files (downloaded E d p w)).
  { unfold downloaded. cbn [temp_files with_temp_files].
    apply elem_of_union_l, elem_of_singleton. reflexivity. }
  split; [exact Hin|].
  split.
  { destruct (total_sync_document E d w) as (r & w1 & H). exists r. rewrite H. reflexivity. }
  unfold sync_document, try_except.
  rewrite (sync_document_try_downloaded E d w p Hd Hp).
  unfold try_finally.
  pose proof (process_and_index_same_files E d p (downloaded E d p w)) as Hsame.
  pose proof (process_and_index_extends E d p (downloaded E d p w)) as [evs Hext].
  destruct (process_and_index E d p (downloaded E d p w)) as [r w3].
  cbn [fst snd] in *. unfold same_files in Hsame.
  unfold cleanup, bind, os_path_exists.
  rewrite bool_decide_eq_true_2 by (rewrite Hsame; exact Hin).
  unfold os_unlink.
  assert (Htr : trace w3 =
                trace w ++ [EvLog (isoformat_now E (clock w)) "INFO" (syncing_message d)]
                  ++ [EvDownload (doc_id d)] ++ evs).
  { rewrite Hext. unfold downloaded, at_download. rewrite log_sync_activity_eq.
    cbn [snd trace with_temp_files emit_in tick_in]. rewrite <- !app_assoc. reflexivity. }
  destruct r as [a|e]; cbn [fst snd].
  - split.
    { cbn [temp_files with_temp_files emit_in].
      intros [_ Hn]%elem_of_difference. apply Hn, elem_of_singleton. reflexivity. }
    exists [EvLog (isoformat_now E (clock w)) "INFO" (syncing_message d)], evs.
    cbn [trace with_temp_files emit_in]. rewrite Htr, <- !app_assoc.
    reflexivity.
  - unfold sync_document_except. unfold bind, ret. rewrite log_sync_activity_eq.
    cbn [fst snd].
    split.
    { cbn [temp_files with_temp_files emit_in tick_in].
      intros [_ Hn]%elem_of_difference. apply Hn, elem_of_singleton. reflexivity. }
    exists [EvLog (isoformat_now E (clock w)) "INFO" (syncing_message d)], evs.
    cbn [trace with_temp_files emit_in tick_in clock].
    rewrite Htr, <- !app_assoc. reflexivity.
Qed.

(** ** The chunking processor *)

Lemma extract_text_world E p w : (extract_text E p w).2 = w.
Proof.
  unfold extract_text.
  repeat match goal with |- context [if ?b then _ else _] => destruct b end;
    reflexivity.
Qed.

Lemma make_documents_lookup meta chunks i doc :
  make_documents meta chunks !! i = Some doc ->
  exists chunk,
    chunks !! i = Some chunk /\ page_content doc = chunk /\
    metadata doc !! "chunk_id" = Some (PInt (Z.of_nat i)) /\
    metadata doc !! "total_chunks" = Some (PInt (Z.of_nat (length chunks))).
Proof.
  unfold make_documents. rewrite list_lookup_imap.
  destruct (chunks !! i) as [chunk|]; [|discriminate].
  intros [= <-]. exists chunk. cbn [page_content metadata].
  split; [reflexivity|]. split; [reflexivity|]. split.
  - rewrite lookup_insert_ne by discriminate. apply lookup_insert_eq.
  - apply lookup_insert_eq.
Qed.

Lemma make_documents_length meta chunks :
  length (make_documents meta chunks) = length chunks.
Proof. unfold make_documents. apply length_imap. Qed.

(** A text that trimming empties: every character of it is whitespace
    (the empty text is one). *)
Definition blank (t : text) : bool := forallb is_space t.

Lemma rstrip_nil_iff (t : text) : rstrip t = [] <-> blank t = true.
Proof.
  unfold blank. induction t as [|c t IH]; cbn [rstrip forallb]; [tauto|].
  destruct (rstrip t) as [|c' r] eqn:Hr.
  - destruct (is_space c); cbn [andb].
    + split; [intros _; apply IH; reflexivity | reflexivity].
    + split; discriminate.
  - split; [discriminate|]. intros [_ H]%andb_true_iff.
    apply IH in H. discriminate.
Qed.

Lemma blank_lstrip (t : text) : blank (lstrip t) = blank t.
Proof.
  unfold blank. induction t as [|c t IH]; cbn [lstrip forallb]; [reflexivity|].
  destruct (is_space c) eqn:Hc; cbn [andb forallb]; [exact IH|].
  rewrite Hc. reflexivity.
Qed.

Lemma strip_nil_iff (t : text) : strip t = [] <-> blank t = true.
Proof. unfold strip. rewrite rstrip_nil_iff, blank_lstrip. tauto. Qed.

(** What trimming keeps: the text between its leading and its trailing
    whitespace, which starts and ends with a character that is not
    whitespace. *)
Lemma lstrip_split (t : text) :
  exists l, t = l ++ lstrip t /\ blank l = true /\
            match lstrip t with c :: _ => is_space c = false | [] => True end.
Proof.
  induction t as [|c t IH]; [exists []; repeat split|].
  destruct IH as (l & Ht & Hl & Hh).
  cbn [lstrip]. destruct (is_space c) eqn:Hc.
  - exists (c :: l). split; [rewrite <- app_comm_cons; f_equal; exact Ht|].
    split; [|exact Hh].
    unfold blank in *. cbn [forallb]. rewrite Hc, Hl. reflexivity.
  - exists []. auto.
Qed.

Lemma rstrip_split (t : text) :
  exists r, t = rstrip t ++ r /\ blank r = true /\
            match last (rstrip t) with Some c => is_space c = false | None => True end.
Proof.
  induction t as [|c t IH]; [exists []; repeat split|].
  destruct IH as (r & Ht & Hr & Hh).
  cbn [rstrip]. destruct (rstrip t) as [|c' s] eqn:Hs.
  - destruct (is_space c) eqn:Hc.
    + exists (c :: t). split; [reflexivity|]. split; [|exact I].
      cbn [app] in Ht. subst r. unfold blank in *. cbn [forallb].
      rewrite Hc, Hr. reflexivity.
    + exists t. split; [reflexivity|]. cbn [app] in Ht. subst r.
      split; [exact Hr|]. exact Hc.
  - exists r. split; [rewrite <- app_comm_cons; f_equal; exact Ht|].
    split; [exact Hr|]. exact Hh.
Qed.

(** C8: the extracted text is empty after trimming exactly when every
    character of it is whitespace, as [str.strip] understands it
    (Unicode whitespace, not ASCII alone).  On such a text, the empty one
    included, [process_document] raises and returns no chunk list, empty
    or not; on every other text it returns one document per chunk of the
    splitter, in order, the one at position [i] carrying [chunk_id = i]
    and [total_chunks] equal to the number of documents returned. *)
Theorem process_document_chunks (E : Env) (p : string) (w : World) (text : text) :
  (extract_text E p w).1 = Ok text ->
  (strip text = [] <-> forallb is_space text = true) /\
  (forallb is_space text = true ->
     process_document E p w = (Raise ("No text could be extracted from " +:+ p), w)) /\
  (forallb is_space text = false ->
     exists docs,
       process_document E p w = (Ok docs, w) /\
       length docs = length (split_text E text) /\
       forall i, i < length docs ->
         exists doc,
           docs !! i = Some doc /\
           Some (page_content doc) = split_text E text !! i /\
           metadata doc !! "chunk_id" = Some (PInt (Z.of_nat i)) /\
           metadata doc !! "total_chunks" = Some (PInt (Z.of_nat (length docs)))).
Proof.
  intros Hx. pose proof (extract_text_world E p w) as Hw.
  destruct (extract_text E p w) as [r w1] eqn:Hext. simpl in Hx, Hw. subst r w1.
  split; [apply strip_nil_iff|].
  split; intros Hs; unfold process_document; unfold bind at 1; rewrite Hext.
  - apply strip_nil_iff in Hs. rewrite Hs. reflexivity.
  - destruct (strip text) as [|c s] eqn:Hst.
    { apply strip_nil_iff in Hst. unfold blank in Hst. congruence. }
    cbn [text_truthy negb].
    eexists. split; [reflexivity|].
    rewrite make_documents_length. split; [reflexivity|].
    intros i Hi.
    destruct (lookup_lt_is_Some_2 (make_documents
       (<["source":=PStr (basename p)]>
          (<["file_path":=PStr p]>
             (<["file_type":=PStr (lower (splitext_ext (basename p)))]> ∅)))
       (split_text E text)) i) as [doc Hdoc].
    { rewrite make_documents_length. exact Hi. }
    exists doc. split; [exact Hdoc|].
    destruct (make_documents_lookup _ _ _ _ Hdoc) as (chunk & Hc & Hpc & Hid & Htot).
    rewrite Hc, Hpc. auto.
Qed.

(** ** Identifiers in the knowledge store *)

(** The value written last under key [k] by a sequence of writes. *)
Fixpoint last_write {V} (k : string) (l : list (string * V)) : option V :=
  match l with
  | [] => None
  | (k0, v0) :: l' =>
      match last_write k l' with
      | Some v => Some v
      | None => if String.eqb k k0 then Some v0 else None
      end
  end.

Lemma lookup_foldl_insert {V} (l : list (string * V)) (db : gmap string V) (k : string) :
  foldl (fun acc p => <[p.1 := p.2]> acc) db l !! k =
  match last_write k l with
  | Some v => Some v
  | None => db !! k
  end.
Proof.
  revert db. induction l as [|[k0 v0] l IH]; intros db; simpl.
  - reflexivity.
  - rewrite IH. destruct (last_write k l); [reflexivity|].
    destruct (String.eqb_spec k k0) as [->|Hne].
    + apply lookup_insert_eq.
    + apply lookup_insert_ne. congruence.
Qed.

Lemma upsert_all_idempotent ids docs db :
  upsert_all ids docs (upsert_all ids docs db) = upsert_all ids docs db.
Proof.
  apply map_eq. intros k. unfold upsert_all.
  rewrite !lookup_foldl_insert. destruct (last_write k (zip ids docs)); reflexivity.
Qed.

Definition chunk_doc (source : string) (chunk_id : Z) (content : string)
  : LangchainDocument :=
  {| page_content := text_of_string content;
     metadata := <["chunk_id" := PInt chunk_id]> (<["source" := PStr source]> ∅) |}.

(** The identity of chunks in the words of the specification: two chunks
    that agree on [source] and [chunk_id] get the same identifier, at
    whatever position of whatever batch each is submitted. *)
Definition spec_chunk_identity : Prop :=
  forall (b1 b2 : list LangchainDocument) (i1 i2 : nat) (c1 c2 : LangchainDocument),
    b1 !! i1 = Some c1 -> b2 !! i2 = Some c2 ->
    metadata c1 !! "source" = metadata c2 !! "source" ->
    metadata c1 !! "chunk_id" = metadata c2 !! "chunk_id" ->
    store_ids b1 !! i1 = store_ids b2 !! i2.

(** C6, as stated, fails: the first chunk of ["b.txt"] is stored as
    ["doc_0_b.txt_0"] when submitted alone and as ["doc_1_b.txt_0"] when
    submitted after a chunk of another file. *)
Lemma store_ids_position_counterexample : ~ spec_chunk_identity.
Proof.
  intros H.
  specialize (H [chunk_doc "b.txt" 0 "text"]
                [chunk_doc "a.txt" 0 "other"; chunk_doc "b.txt" 0 "text"]
                0 1 (chunk_doc "b.txt" 0 "text") (chunk_doc "b.txt" 0 "text")
                eq_refl eq_refl eq_refl eq_refl).
  vm_compute in H. discriminate.
Qed.

(** C6 (amended): the identifier is a function of the position in the
    batch, the [source] and the [chunk_id]: two chunks that agree on
    [source] and [chunk_id] and stand at the same position of their
    batches get the same identifier, whatever else the batches hold; and
    submitting the same batch again overwrites what the first submission
    stored. *)
Theorem store_ids_same_position
    (b1 b2 : list LangchainDocument) (i : nat) (c1 c2 : LangchainDocument) :
  b1 !! i = Some c1 -> b2 !! i = Some c2 ->
  metadata c1 !! "source" = metadata c2 !! "source" ->
  metadata c1 !! "chunk_id" = metadata c2 !! "chunk_id" ->
  store_ids b1 !! i = store_ids b2 !! i /\
  forall db,
    upsert_all (store_ids b1) b1 (upsert_all (store_ids b1) b1 db)
    = upsert_all (store_ids b1) b1 db.
Proof.
  intros H1 H2 Hs Hc. split; [|intros db; apply upsert_all_idempotent].
  unfold store_ids. rewrite !list_lookup_imap, H1, H2. simpl.
  unfold store_id. rewrite Hs, Hc. reflexivity.
Qed.

Lemma store_ids_same_position_witness :
  store_ids [chunk_doc "b.txt" 0 "text"] !! 0
  = store_ids [chunk_doc "b.txt" 0 "new text"; chunk_doc "b.txt" 1 "more"] !! 0.
Proof.
  apply (store_ids_same_position
           [chunk_doc "b.txt" 0 "text"]
           [chunk_doc "b.txt" 0 "new text"; chunk_doc "b.txt" 1 "more"]
           0 (chunk_doc "b.txt" 0 "text") (chunk_doc "b.txt" 0 "new text"));
    reflexivity.
Defined.

(** ** One iteration of the batch loop *)

Definition vars_failed (vars : LoopVars) (d : DocumentRecord) (msg : string) : LoopVars :=
  {| v_sync_state := v_sync_state vars;
     v_synced_count := v_synced_count vars;
     v_failed_count := v_failed_count vars + 1;
     v_failed_docs := v_failed_docs vars ++ [failure_of d (Some msg)] |}.

Definition vars_synced (vars : LoopVars) (d : DocumentRecord) (sync_date : string)
  : LoopVars :=
  {| v_sync_state := record_synced d sync_date (v_sync_state vars);
     v_synced_count := v_synced_count vars + 1;
     v_failed_count := v_failed_count vars;
     v_failed_docs := v_failed_docs vars |}.

(** Whether [sync_document] reports success for [d] from world [w]. *)
Definition sync_succeeded (E : Env) (d : DocumentRecord) (w : World) : bool :=
  match (sync_document E d w).1 with
  | Ok (b, _) => b
  | Raise _ => false
  end.

(** The four ways one iteration can go: skipped, failed, synced, or left
    by the exception of the eligibility check. *)
Lemma sync_step_cases E vars d w :
  (should_sync_document d (v_sync_state vars) = Ok false /\
   sync_step E vars d w = (Ok vars, w)) \/
  (should_sync_document d (v_sync_state vars) = Ok true /\
   sync_succeeded E d w = false /\
   exists msg w',
     sync_document E d w = (Ok (false, Some msg), w') /\
     sync_step E vars d w = (Ok (vars_failed vars d msg), w')) \/
  (should_sync_document d (v_sync_state vars) = Ok true /\
   sync_succeeded E d w = true /\
   exists w',
     sync_document E d w = (Ok (true, None), w') /\
     sync_step E vars d w =
       (Ok (vars_synced vars d (isoformat_now E (clock w'))), tick_in w')) \/
  (exists e,
     should_sync_document d (v_sync_state vars) = Raise e /\
     sync_step E vars d w = (Raise e, w)).
Proof.
  destruct (should_sync_document d (v_sync_state vars)) as [[|]|e] eqn:He.
  - right. destruct (total_sync_document E d w) as (r & w' & Hs).
    destruct (returns_outcome_sync_document E d w r w' Hs) as [-> | [msg ->]].
    + right. left. split; [reflexivity|]. unfold sync_succeeded. rewrite Hs.
      split; [reflexivity|]. exists w'. split; [reflexivity|].
      apply (sync_step_synced _ _ _ _ _ _ He Hs).
    + left. split; [reflexivity|]. unfold sync_succeeded. rewrite Hs.
      split; [reflexivity|]. exists msg, w'. split; [reflexivity|].
      apply (sync_step_failed _ _ _ _ _ _ He Hs).
  - left. split; [reflexivity|]. apply sync_step_skipped, He.
  - right. right. right. exists e. split; [reflexivity|].
    apply sync_step_raised, He.
Qed.

Lemma extends_tick w : extends w (tick_in w).
Proof. exists []. simpl. symmetry. apply app_nil_r. Qed.

Lemma extends_emit e w : extends w (emit_in e w).
Proof. exists [e]. reflexivity. Qed.

Lemma extends_files f w : extends w (with_temp_files f w).
Proof. exists []. simpl. symmetry. apply app_nil_r. Qed.

Lemma extends_db db w : extends w (with_vector_db db w).
Proof. exists []. simpl. symmetry. apply app_nil_r. Qed.

(** An attempt starts with the log line and the download request. *)
Lemma sync_document_attempts E d w :
  exists evs,
    trace (sync_document E d w).2 =
    trace w ++ [EvLog (isoformat_now E (clock w)) "INFO" (syncing_message d);
                EvDownload (doc_id d)] ++ evs.
Proof.
  set (P := @preserves extends).
  assert (Hlog : forall m l, P unit (log_sync_activity E m l)).
  { intros m l. apply (preserves_log extends extends_trans extends_tick).
    intros e w0 _. apply extends_emit. }
  assert (Hfail : forall m, P _ (log_sync_activity E m "ERROR" ;;; ret (false, Some m))).
  { intros m. apply (preserves_bind extends extends_trans); [apply Hlog|].
    intros _ w0. apply extends_refl. }
  unfold sync_document, try_except, sync_document_try.
  unfold bind at 1. rewrite log_sync_activity_eq.
  set (w1 := emit_in _ (tick_in w)).
  unfold bind at 1. unfold api_download at 1.
  set (w2 := emit_in (EvDownload (doc_id d)) w1).
  assert (Hw2 : trace w2 = trace w ++
            [EvLog (isoformat_now E (clock w)) "INFO" (syncing_message d);
             EvDownload (doc_id d)]).
  { subst w2 w1. cbn [trace emit_in tick_in]. rewrite <- app_assoc. reflexivity. }
  assert (Hgoal : forall w3 : World, extends w2 w3 ->
            exists evs, trace w3 = trace w ++
              [EvLog (isoformat_now E (clock w)) "INFO" (syncing_message d);
               EvDownload (doc_id d)] ++ evs).
  { intros w3 [evs H]. exists evs. rewrite H, Hw2, <- app_assoc. reflexivity. }
  assert (Hexc : forall e, P _ (sync_document_except E d e)).
  { intros e. unfold sync_document_except. apply Hfail. }
  assert (Hfin : forall p, P _ (try_finally (process_and_index E d p) (cleanup p))).
  { intros p. apply (preserves_try_finally extends extends_trans).
    - intros w0. apply process_and_index_extends.
    - apply (preserves_cleanup extends extends_refl extends_trans
               (fun e w _ => extends_emit e w) extends_files). }
  destruct (api_download_document E w1 (doc_id d)) as [[p|]|e].
  - set (w3 := with_temp_files _ w2).
    assert (H23 : extends w2 w3) by apply extends_files.
    destruct (nonempty p).
    + pose proof (Hfin p w3) as H.
      destruct (try_finally _ _ w3) as [[r|e] w4]; cbn [snd] in H; apply Hgoal.
      * exact (extends_trans _ _ _ H23 H).
      * exact (extends_trans _ _ _ (extends_trans _ _ _ H23 H) (Hexc e w4)).
    + pose proof (Hfail ("Failed to download document " +:+ display_name d) w3) as H.
      destruct (bind _ _ w3) as [[r|e] w4]; cbn [snd] in H; apply Hgoal.
      * exact (extends_trans _ _ _ H23 H).
      * exact (extends_trans _ _ _ (extends_trans _ _ _ H23 H) (Hexc e w4)).
  - pose proof (Hfail ("Failed to download document " +:+ display_name d) w2) as H.
    destruct (bind _ _ w2) as [[r|e'] w4]; cbn [snd] in H; apply Hgoal.
    + exact H.
    + exact (extends_trans _ _ _ H (Hexc e' w4)).
  - apply Hgoal. apply Hexc.
Qed.

(** An eligible document is attempted: the iteration issues its download. *)
Lemma sync_step_attempts E vars d w :
  should_sync_document d (v_sync_state vars) = Ok true ->
  exists evs,
    trace (sync_step E vars d w).2 =
    trace w ++ [EvLog (isoformat_now E (clock w)) "INFO" (syncing_message d);
                EvDownload (doc_id d)] ++ evs.
Proof.
  intros He. destruct (sync_document_attempts E d w) as [evs Hevs].
  destruct (sync_step_cases E vars d w)
    as [[Hf _] | [(_ & _ & msg & w' & Hs & Hstep)
                 | [(_ & _ & w' & Hs & Hstep) | (e & Hr & _)]]].
  - congruence.
  - rewrite Hstep. rewrite Hs in Hevs. exists evs. exact Hevs.
  - rewrite Hstep. rewrite Hs in Hevs. exists evs. exact Hevs.
  - congruence.
Qed.

(** The skip condition in the words of the specification: (a) the type is
    not supported, or (b) an entry exists for the id and the current
    timestamp is not strictly greater than the stored fingerprint. *)
Definition timestamp_gt (current stored : option string) : Prop :=
  exists a b, current = Some a /\ stored = Some b /\ str_gt a b = true.

Definition spec_skipped (d : DocumentRecord) (st : SyncState) : Prop :=
  is_document_supported d = Ok false \/
  exists k entry,
    doc_id d = Some k /\ synced_documents st !! k = Some entry /\
    ~ timestamp_gt (doc_modified d) (entry_modified entry).

(** C1, as stated, fails: a record without an id is skipped although its
    type is supported and no entry exists for it. *)
Lemma should_sync_document_spec_counterexample :
  ~ (should_sync_document (mk_doc None (Some "a.pdf") (Some "T1")) (state_of ∅) = Ok false
     <-> spec_skipped (mk_doc None (Some "a.pdf") (Some "T1")) (state_of ∅)).
Proof.
  intros [H _]. destruct (H eq_refl) as [Hs | (k & e & Hk & _)].
  - vm_compute in Hs. discriminate.
  - simpl in Hk. discriminate.
Qed.

(** C1 (amended): a document is skipped exactly when its id is missing or
    empty, or its type is not supported, or an entry exists for its id and
    both the current timestamp and the stored fingerprint are present and
    non-empty and the current one is not strictly greater; otherwise it is
    eligible.  In particular a document with an id and a supported type
    whose timestamp is strictly greater than the stored fingerprint is
    eligible.  The loop passes over a skipped document without effect
    and requests the download of an eligible one.  (The type check
    answers for every record whose name is not null; for a record with an
    id and a null name it raises, the record is neither skipped nor
    eligible, and the exception leaves the loop in the world it was
    raised in.) *)
Theorem should_sync_document_skipped_iff (d : DocumentRecord) (st : SyncState) :
  (should_sync_document d st = Ok false <->
     truthy (doc_id d) = false \/
     is_document_supported d = Ok false \/
     doc_name d <> Null /\
     exists k entry lm lsm,
       doc_id d = Some k /\ synced_documents st !! k = Some entry /\
       doc_modified d = Some lm /\ entry_modified entry = Some lsm /\
       nonempty lm = true /\ nonempty lsm = true /\ str_gt lm lsm = false)
  /\
  (doc_name d <> Null ->
   should_sync_document d st = Ok true \/ should_sync_document d st = Ok false)
  /\
  (forall k entry,
      doc_id d = Some k -> nonempty k = true -> is_document_supported d = Ok true ->
      synced_documents st !! k = Some entry ->
      timestamp_gt (doc_modified d) (entry_modified entry) ->
      should_sync_document d st = Ok true)
  /\
  (forall E vars w,
      v_sync_state vars = st ->
      match should_sync_document d st with
      | Ok true =>
          exists evs,
            trace (sync_step E vars d w).2 =
            trace w ++ [EvLog (isoformat_now E (clock w)) "INFO" (syncing_message d);
                        EvDownload (doc_id d)] ++ evs
      | Ok false => sync_step E vars d w = (Ok vars, w)
      | Raise e => sync_step E vars d w = (Raise e, w)
      end).
Proof.
  split; [split|split; [|split]].
  - unfold should_sync_document, truthy.
    destruct (doc_id d) as [k|]; [|auto].
    destruct (nonempty k) eqn:Hk; [|auto]. cbn [negb].
    destruct (is_document_supported d) as [[|]|e] eqn:Hs; [|auto|discriminate].
    cbn [negb].
    assert (Hn : doc_name d <> Null).
    { intros Hn. unfold is_document_supported in Hs. rewrite Hn in Hs. discriminate. }
    destruct (synced_documents st !! k) as [entry|] eqn:He; [|discriminate].
    destruct (doc_modified d) as [lm|]; [|discriminate].
    destruct (entry_modified entry) as [lsm|] eqn:Hm; [|discriminate].
    destruct (nonempty lm) eqn:Hlm; [|discriminate].
    destruct (nonempty lsm) eqn:Hlsm; [|discriminate].
    cbn [andb]. intros [= Hgt]. right. right. split; [exact Hn|].
    exists k, entry, lm, lsm. auto 10.
  - unfold should_sync_document, truthy.
    intros [H | [H | (Hn & k & entry & lm & lsm & Hk & He & Hlm & Hlsm & N1 & N2 & Hgt)]].
    + destruct (doc_id d) as [k|]; [|reflexivity]. rewrite H. reflexivity.
    + destruct (doc_id d) as [k|]; [|reflexivity].
      destruct (nonempty k); [|reflexivity]. rewrite H. reflexivity.
    + rewrite Hk, He, Hlm, Hlsm, N1, N2.
      destruct (nonempty k); [|reflexivity]. cbn [negb].
      destruct (is_document_supported_returns d Hn) as [b ->].
      destruct b; [|reflexivity].
      cbn [negb andb]. rewrite Hgt. reflexivity.
  - intros Hn.
    destruct (should_sync_document d st) as [[|]|e] eqn:Hs; [auto..|].
    apply should_sync_document_raises in Hs. tauto.
  - intros k entry Hk Hne Hs He (a & b & Ha & Hb & Hgt).
    unfold should_sync_document.
    rewrite Hk, Hne, Hs, He, Ha, Hb. cbn [negb].
    destruct (nonempty a && nonempty b); [rewrite Hgt|]; reflexivity.
  - intros E vars w <-.
    destruct (should_sync_document d (v_sync_state vars)) as [[|]|e] eqn:He.
    + apply sync_step_attempts, He.
    + apply sync_step_skipped, He.
    + apply sync_step_raised, He.
Qed.

(** A document whose timestamp advanced past the stored fingerprint. *)
Lemma should_sync_document_skipped_iff_witness :
  should_sync_document
    (mk_doc (Some "B") (Some "b.txt") (Some "2024-02-01T00:00:00"))
    (state_of {[ "B" := mk_entry (Some "2024-01-01T00:00:00") ]}) = Ok true.
Proof.
  apply (proj1 (proj2 (proj2 (should_sync_document_skipped_iff _ _))) "B"
               (mk_entry (Some "2024-01-01T00:00:00"))).
  - reflexivity.
  - reflexivity.
  - vm_compute. reflexivity.
  - vm_compute. reflexivity.
  - exists "2024-02-01T00:00:00", "2024-01-01T00:00:00".
    split; [reflexivity | split; reflexivity].
Defined.

(** The handling of missing timestamps stated for every file type: when
    an entry exists for the id of a document and the current timestamp
    or the stored fingerprint is missing, the document is eligible. *)
Definition spec_missing_timestamp_eligible : Prop :=
  forall (d : DocumentRecord) (st : SyncState) (k : string) (entry : SyncedEntry),
    doc_id d = Some k -> synced_documents st !! k = Some entry ->
    doc_modified d = None \/ entry_modified entry = None ->
    should_sync_document d st = Ok true.

(** C10, as stated, fails: a document of an unsupported type is skipped,
    also when an entry exists for its id and its timestamp is missing. *)
Lemma missing_timestamp_unsupported_counterexample : ~ spec_missing_timestamp_eligible.
Proof.
  intros H.
  specialize (H (mk_doc (Some "A") (Some "a.exe") None)
                (state_of {[ "A" := mk_entry (Some "T1") ]})
                "A" (mk_entry (Some "T1")) eq_refl eq_refl (or_introl eq_refl)).
  vm_compute in H. discriminate.
Qed.

(** C10 (amended): when an entry exists for the id of a document with a
    supported type but the current timestamp or the stored fingerprint is missing or
    empty, the document is eligible and the loop attempts it; a record
    whose id is missing or empty is not eligible, and the loop passes over
    it without any effect on its variables or on the world. *)
Theorem missing_timestamp_or_id (E : Env) (d : DocumentRecord) :
  (forall st k entry,
      doc_id d = Some k -> nonempty k = true -> is_document_supported d = Ok true ->
      synced_documents st !! k = Some entry ->
      truthy (doc_modified d) = false \/ truthy (entry_modified entry) = false ->
      should_sync_document d st = Ok true /\
      forall vars w,
        v_sync_state vars = st ->
        exists evs,
          trace (sync_step E vars d w).2 =
          trace w ++ [EvLog (isoformat_now E (clock w)) "INFO" (syncing_message d);
                      EvDownload (doc_id d)] ++ evs) /\
  (truthy (doc_id d) = false ->
   forall vars w,
     should_sync_document d (v_sync_state vars) = Ok false /\
     sync_step E vars d w = (Ok vars, w)).
Proof.
  split.
  - intros st k entry Hk Hne Hs He Hm.
    assert (Hel : should_sync_document d st = Ok true).
    { unfold should_sync_document. rewrite Hk, Hne, Hs, He. cbn [negb].
      unfold truthy in Hm.
      destruct (doc_modified d) as [lm|]; [|reflexivity].
      destruct (entry_modified entry) as [lsm|]; [|reflexivity].
      destruct Hm as [-> | ->]; [reflexivity|].
      rewrite andb_false_r. reflexivity. }
    split; [exact Hel|]. intros vars w <-. apply sync_step_attempts, Hel.
  - intros Hid vars w.
    assert (Hsk : should_sync_document d (v_sync_state vars) = Ok false).
    { unfold should_sync_document. unfold truthy in Hid.
      destruct (doc_id d) as [k|]; [|reflexivity]. rewrite Hid. reflexivity. }
    split; [exact Hsk | apply sync_step_skipped, Hsk].
Qed.

(** ** The fingerprint invariant *)

(** Whether the eligibility check returned [True]. *)
Definition eligible (d : DocumentRecord) (st : SyncState) : bool :=
  match should_sync_document d st with
  | Ok b => b
  | Raise _ => false
  end.

(** The documents [sync_document] reported as synced during the loop, in
    order. *)
Fixpoint synced_in_run (E : Env) (docs : list DocumentRecord) (vars : LoopVars)
    (w : World) : list DocumentRecord :=
  match docs with
  | [] => []
  | d :: l =>
      let this :=
        if eligible d (v_sync_state vars) && sync_succeeded E d w
        then [d] else [] in
      match sync_step E vars d w with
      | (Ok vars', w') => this ++ synced_in_run E l vars' w'
      | (Raise _, _) => this
      end
  end.

(** The most recent record with id [k] in a history of successful syncs
    (oldest first). *)
Fixpoint last_synced (k : string) (hist : list DocumentRecord) : option DocumentRecord :=
  match hist with
  | [] => None
  | d :: h =>
      match last_synced k h with
      | Some d' => Some d'
      | None => if bool_decide (doc_id d = Some k) then Some d else None
      end
  end.

(** Every entry holds the timestamp of the most recent successful sync of
    its document. *)
Definition fingerprints_current (hist : list DocumentRecord)
    (m : gmap string SyncedEntry) : Prop :=
  forall k entry,
    m !! k = Some entry ->
    exists d, last_synced k hist = Some d /\ entry_modified entry = doc_modified d.

Lemma last_synced_app k h1 h2 :
  last_synced k (h1 ++ h2) =
  match last_synced k h2 with
  | Some d => Some d
  | None => last_synced k h1
  end.
Proof.
  induction h1 as [|d h1 IH]; simpl.
  - destruct (last_synced k h2); reflexivity.
  - rewrite IH. destruct (last_synced k h2); reflexivity.
Qed.

Lemma fingerprints_current_synced hist d ts st :
  fingerprints_current hist (synced_documents st) ->
  fingerprints_current (hist ++ [d]) (synced_documents (record_synced d ts st)).
Proof.
  intros H k entry. unfold record_synced.
  destruct (doc_id d) as [kd|] eqn:Hd; cbn [synced_documents].
  - destruct (decide (kd = k)) as [->|Hne].
    + rewrite lookup_insert_eq. intros [= <-]. exists d.
      rewrite last_synced_app. simpl. rewrite Hd.
      rewrite bool_decide_eq_true_2 by reflexivity. auto.
    + rewrite lookup_insert_ne by exact Hne. intros Hl.
      destruct (H k entry Hl) as (d0 & Hd0 & Hm). exists d0.
      rewrite last_synced_app. simpl. rewrite Hd.
      rewrite bool_decide_eq_false_2 by congruence. auto.
  - intros Hl. destruct (H k entry Hl) as (d0 & Hd0 & Hm). exists d0.
    rewrite last_synced_app. simpl. rewrite Hd.
    rewrite bool_decide_eq_false_2 by congruence. auto.
Qed.

Lemma sync_loop_fingerprints E docs :
  forall vars w hist vars' w',
    fingerprints_current hist (synced_documents (v_sync_state vars)) ->
    for_each (sync_step E) docs vars w = (Ok vars', w') ->
    fingerprints_current (hist ++ synced_in_run E docs vars w)
      (synced_documents (v_sync_state vars')).
Proof.
  induction docs as [|d l IH]; intros vars w hist vars' w' Hinv Hrun.
  - simpl in *. injection Hrun as <- <-. rewrite app_nil_r. exact Hinv.
  - cbn [for_each synced_in_run] in *. unfold bind in Hrun.
    unfold eligible.
    destruct (sync_step_cases E vars d w)
      as [[He Hstep] | [(He & Hsu & msg & w1 & Hs & Hstep)
                       | [(He & Hsu & w1 & Hs & Hstep) | (e & He & Hstep)]]];
      rewrite Hstep in *; rewrite He; try rewrite Hsu; cbn [andb app];
      [| | |discriminate].
    + eapply IH; eauto.
    + eapply IH; [|exact Hrun]. exact Hinv.
    + replace (hist ++ d :: synced_in_run E l _ _)
        with ((hist ++ [d]) ++ synced_in_run E l
               (vars_synced vars d (isoformat_now E (clock w1))) (tick_in w1))
        by (rewrite <- app_assoc; reflexivity).
      eapply IH; [|exact Hrun]. cbn [vars_synced v_sync_state].
      apply fingerprints_current_synced, Hinv.
Qed.

(** C3: if every entry of the loaded state holds the timestamp of the
    most recent successful sync of its document, so does every entry of
    the state written by a run that returns, the history being extended
    by the documents synced in the run; the run returns when every record
    of the list can be checked, and a run that raises leaves the state
    file as it was; and an iteration in which the sync of the document
    failed leaves the state as it was (it returns whenever the
    eligibility check does). *)
Theorem fingerprint_invariant (E : Env) (docs : list DocumentRecord) (w : World)
    (hist : list DocumentRecord) :
  fingerprints_current hist (synced_documents (loaded w)) ->
  (forall report,
      (sync_documents E docs w).1 = Ok report ->
      exists st',
        state_file (sync_documents E docs w).2 = Some st' /\
        fingerprints_current
          (hist ++ synced_in_run E docs (init_vars (loaded w)) (start_world E docs w))
          (synced_documents st')) /\
  (Forall (fun d => checkable d = true) docs ->
   exists report, (sync_documents E docs w).1 = Ok report) /\
  (forall e,
      (sync_documents E docs w).1 = Raise e ->
      state_file (sync_documents E docs w).2 = state_file w) /\
  (forall vars d w0,
      sync_succeeded E d w0 = false ->
      match should_sync_document d (v_sync_state vars) with
      | Ok _ =>
          exists vars' w',
            sync_step E vars d w0 = (Ok vars', w') /\
            v_sync_state vars' = v_sync_state vars /\
            v_synced_count vars' = v_synced_count vars
      | Raise e => sync_step E vars d w0 = (Raise e, w0)
      end).
Proof.
  intros Hinv. split; [|split; [|split]].
  - intros report Hret.
    destruct (sync_documents_returns E docs w report Hret) as (vars & w1 & Hloop & _).
    rewrite (sync_documents_eq E docs w vars w1 Hloop). cbn [snd].
    unfold commit_world. rewrite log_sync_activity_eq.
    cbn [snd state_file emit_in tick_in with_state_file].
    eexists. split; [reflexivity|]. cbn [final_state synced_documents].
    eapply sync_loop_fingerprints; [|exact Hloop]. exact Hinv.
  - intros Hc. destruct (sync_documents_total E docs w Hc) as (report & w' & H).
    exists report. rewrite H. reflexivity.
  - intros e. apply sync_documents_raised_state.
  - intros vars d w0 Hf.
    destruct (sync_step_cases E vars d w0)
      as [[He Hstep] | [(He & Hsu & msg & w1 & Hs & Hstep)
                       | [(He & Hsu & w1 & Hs & Hstep) | (e & He & Hstep)]]];
      rewrite He.
    + eauto.
    + eexists _, _. split; [exact Hstep|]. split; reflexivity.
    + congruence.
    + exact Hstep.
Qed.

(** ** Behaviour of the collaborators for one document *)

(** The download of [d] fails: it raises, returns nothing, or returns an
    empty path. *)
Definition download_fails (E : Env) (d : DocumentRecord) : Prop :=
  forall w,
    match api_download_document E w (doc_id d) with
    | Ok (Some p) => nonempty p = false
    | Ok None => True
    | Raise _ => True
    end.

(** The download of [d] returns a file. *)
Definition downloads (E : Env) (d : DocumentRecord) : Prop :=
  forall w, exists p,
    api_download_document E w (doc_id d) = Ok (Some p) /\ nonempty p = true.

(** A file downloaded for [d] is extracted and chunked without error. *)
Definition processes (E : Env) (d : DocumentRecord) : Prop :=
  forall w p,
    api_download_document E w (doc_id d) = Ok (Some p) ->
    forall w1, exists docs, (process_document E p w1).1 = Ok docs.

(** A chunk that carries the id of [d] in its metadata. *)
Definition tagged (d : DocumentRecord) (doc : LangchainDocument) : Prop :=
  metadata doc !! "netdocuments_id" = Some (of_opt (doc_id d)).

(** When there is a pipeline, the store accepts the chunks of [d]. *)
Definition indexes (E : Env) (d : DocumentRecord) : Prop :=
  rag_pipeline E = true ->
  forall w docs,
    Forall (tagged d) docs -> chroma_add_documents E w docs (store_ids docs) = Ok tt.

Lemma map_m_metadata E d (name : option string) docs :
  forall w, exists docs' w',
    map_m (add_netdocuments_metadata E d name) docs w = (Ok docs', w') /\
    Forall (tagged d) docs' /\ length docs' = length docs.
Proof.
  induction docs as [|doc docs IH]; intros w; simpl.
  - exists [], w. auto.
  - unfold bind at 1. unfold add_netdocuments_metadata at 1.
    unfold bind at 1. unfold datetime_now at 1. unfold ret at 1.
    unfold bind at 1.
    destruct (IH (tick_in w)) as (docs' & w' & Hm & Hf & Hl). rewrite Hm.
    eexists _, _. split; [reflexivity|]. split.
    + constructor; [|exact Hf]. unfold tagged. cbn [metadata].
      rewrite !lookup_insert_ne by discriminate. apply lookup_insert_eq.
    + simpl. congruence.
Qed.

Lemma cleanup_ok p w : exists w', cleanup p w = (Ok tt, w').
Proof.
  unfold cleanup, bind, os_path_exists, os_unlink, ret.
  destruct (bool_decide _); eauto.
Qed.

Lemma rag_add_documents_ok E docs w :
  chroma_add_documents E w docs (store_ids docs) = Ok tt ->
  exists r w', rag_add_documents E docs w = (Ok r, w') /\ add_success r = true.
Proof.
  intros H.
  unfold rag_add_documents, vector_store_add_documents, try_except, bind, chroma_add.
  rewrite H. eexists _, _. split; reflexivity.
Qed.

Lemma process_and_index_succeeds E d p w docs :
  indexes E d ->
  (process_document E p w).1 = Ok docs ->
  exists w', process_and_index E d p w = (Ok (true, None), w').
Proof.
  intros Hidx Hp. unfold process_and_index. unfold bind at 1.
  destruct (process_document E p w) as [r w1]. simpl in Hp. subst r.
  unfold bind at 1.
  destruct (map_m_metadata E d (name_or_default d) docs w1) as (docs' & w2 & Hm & Hf & _).
  rewrite Hm. unfold bind at 1.
  destruct (rag_pipeline E) eqn:Hrag.
  - unfold bind at 1.
    destruct (rag_add_documents_ok E docs' w2 (Hidx Hrag w2 docs' Hf))
      as (r & w3 & Hr & Hs).
    rewrite Hr, Hs. cbn [negb]. unfold ret at 1. unfold bind.
    rewrite log_sync_activity_eq. eauto.
  - unfold ret at 1. unfold bind. rewrite log_sync_activity_eq. eauto.
Qed.

Lemma sync_document_succeeds E d :
  downloads E d -> processes E d -> indexes E d ->
  forall w, exists w', sync_document E d w = (Ok (true, None), w').
Proof.
  intros Hd Hp Hi w.
  destruct (Hd (at_download E d w)) as (p & Hdl & Hne).
  unfold sync_document, try_except.
  rewrite (sync_document_try_downloaded E d w p Hdl Hne).
  unfold try_finally.
  destruct (Hp _ p Hdl (downloaded E d p w)) as [docs Hdocs].
  destruct (process_and_index_succeeds E d p _ docs Hi Hdocs) as [w3 H3].
  rewrite H3. destruct (cleanup_ok p w3) as [w4 H4]. rewrite H4. eauto.
Qed.

Lemma sync_document_download_fails E d :
  download_fails E d ->
  forall w, exists msg w', sync_document E d w = (Ok (false, Some msg), w').
Proof.
  intros Hf w. specialize (Hf (at_download E d w)).
  unfold sync_document, try_except, sync_document_try, at_download in *.
  unfold bind at 1. rewrite log_sync_activity_eq in *. cbn [snd] in Hf.
  unfold bind at 1. unfold api_download.
  destruct (api_download_document E _ (doc_id d)) as [[p|]|e].
  - rewrite Hf. unfold bind. rewrite log_sync_activity_eq. unfold ret. eauto.
  - unfold bind. rewrite log_sync_activity_eq. unfold ret. eauto.
  - unfold sync_document_except, bind. rewrite log_sync_activity_eq. unfold ret. eauto.
Qed.

(** ** Batches *)

Lemma record_synced_lookup_ne d ts st k :
  doc_id d <> Some k ->
  synced_documents (record_synced d ts st) !! k = synced_documents st !! k.
Proof.
  intros Hne. unfold record_synced.
  destruct (doc_id d) as [kd|]; [|reflexivity].
  cbn [synced_documents]. apply lookup_insert_ne. congruence.
Qed.

Lemma record_synced_lookup_eq d ts st k :
  doc_id d = Some k ->
  synced_documents (record_synced d ts st) !! k =
  Some {| entry_name := get (doc_name d); entry_modified := doc_modified d;
          entry_sync_date := ts |}.
Proof.
  intros Hk. unfold record_synced. rewrite Hk.
  cbn [synced_documents]. apply lookup_insert_eq.
Qed.

(** [sync_document] reports success for [d] from every world. *)
Definition always_synced (E : Env) (d : DocumentRecord) : Prop :=
  forall w, exists w', sync_document E d w = (Ok (true, None), w').

(** A run of the loop over documents with distinct ids that are all
    eligible and all synced. *)
Lemma sync_loop_all_synced E l :
  forall vars w,
    NoDup (doc_id <$> l) ->
    Forall (fun d => should_sync_document d (v_sync_state vars) = Ok true) l ->
    Forall (always_synced E) l ->
    exists vars' w' evs,
      for_each (sync_step E) l vars w = (Ok vars', w') /\
      v_synced_count vars' = v_synced_count vars + length l /\
      v_failed_count vars' = v_failed_count vars /\
      v_failed_docs vars' = v_failed_docs vars /\
      (forall k, Some k ∉ (doc_id <$> l) ->
         synced_documents (v_sync_state vars') !! k
         = synced_documents (v_sync_state vars) !! k) /\
      (forall d, d ∈ l ->
         exists k entry,
           doc_id d = Some k /\
           synced_documents (v_sync_state vars') !! k = Some entry /\
           entry_modified entry = doc_modified d /\
           entry_name entry = get (doc_name d)) /\
      trace w' = trace w ++ evs /\
      (forall d, d ∈ l -> EvDownload (doc_id d) ∈ evs).
Proof.
  induction l as [|d l IH]; intros vars w Hnd Hel Hok.
  - exists vars, w, []. simpl. rewrite app_nil_r.
    repeat split; auto; try lia; intros d Hd; inversion Hd.
  - rewrite fmap_cons in Hnd. apply NoDup_cons in Hnd as [Hnotin Hnd].
    apply Forall_cons in Hel as [Hed Hel]. apply Forall_cons in Hok as [Hokd Hok].
    destruct (should_sync_document_id _ _ Hed) as (k & Hk & _ & _).
    destruct (Hokd w) as [w1 Hs].
    pose proof (sync_step_synced E vars d w None w1 Hed Hs) as Hstep.
    destruct (sync_document_attempts E d w) as [ev1 Hev1]. rewrite Hs in Hev1.
    cbn [snd] in Hev1.
    set (ts := isoformat_now E (clock w1)) in *.
    set (vars1 := {| v_sync_state := record_synced d ts (v_sync_state vars);
                     v_synced_count := v_synced_count vars + 1;
                     v_failed_count := v_failed_count vars;
                     v_failed_docs := v_failed_docs vars |}) in *.
    assert (Hel1 : Forall (fun d' => should_sync_document d' (v_sync_state vars1) = Ok true) l).
    { rewrite Forall_forall in Hel |- *. intros d' Hd'.
      rewrite <- (Hel d' Hd'). apply should_sync_document_ext.
      intros k' Hk'. cbn [vars1 v_sync_state]. apply record_synced_lookup_ne.
      intros Heq. apply Hnotin. rewrite Heq, <- Hk'.
      apply list_elem_of_fmap_2, Hd'. }
    destruct (IH vars1 (tick_in w1) Hnd Hel1 Hok)
      as (vars' & w' & evs & Hrun & Hc & Hf & Hfd & Hout & Hin & Htr & Hdl).
    exists vars', w', (([EvLog (isoformat_now E (clock w)) "INFO" (syncing_message d);
                          EvDownload (doc_id d)] ++ ev1) ++ evs).
    split. { cbn [for_each]. unfold bind. rewrite Hstep. exact Hrun. }
    split. { rewrite Hc. cbn [vars1 v_synced_count length]. lia. }
    split; [exact Hf|]. split; [exact Hfd|].
    split.
    { intros k0 Hk0. rewrite fmap_cons in Hk0. apply not_elem_of_cons in Hk0 as [Hne Hk0].
      rewrite (Hout k0 Hk0). cbn [vars1 v_sync_state].
      apply record_synced_lookup_ne. congruence. }
    split.
    { intros d0 Hd0. apply elem_of_cons in Hd0 as [-> | Hd0].
      - exists k. eexists. split; [exact Hk|].
        rewrite Hout by (rewrite <- Hk; exact Hnotin).
        cbn [vars1 v_sync_state]. rewrite (record_synced_lookup_eq _ _ _ _ Hk).
        split; [reflexivity|]. split; reflexivity.
      - apply Hin, Hd0. }
    split.
    { rewrite Htr. cbn [trace tick_in]. rewrite Hev1, <- !app_assoc. reflexivity. }
    intros d0 Hd0. apply elem_of_cons in Hd0 as [-> | Hd0].
    + apply elem_of_app. left. apply elem_of_app. left.
      apply elem_of_cons. right. apply elem_of_cons. left. reflexivity.
    + apply elem_of_app. right. apply Hdl, Hd0.
Qed.

(** Partial failure for a batch of documents with distinct ids that are
    all eligible for the loaded state: besides the counts and the failure
    list, every document other than the failed one has an entry holding
    its own timestamp in the written state, and the entry of the failed
    document is as it was before. *)
Lemma partial_failure_distinct_ids (E : Env) (l1 l2 : list DocumentRecord)
    (bad : DocumentRecord) (w : World) :
  NoDup (doc_id <$> (l1 ++ bad :: l2)) ->
  Forall (fun d => should_sync_document d (loaded w) = Ok true) (l1 ++ bad :: l2) ->
  download_fails E bad ->
  Forall (fun d => downloads E d /\ processes E d /\ indexes E d) (l1 ++ l2) ->
  exists report st' msg evs,
    sync_documents E (l1 ++ bad :: l2) w
      = (Ok report, (sync_documents E (l1 ++ bad :: l2) w).2) /\
    synced_count report = length (l1 ++ bad :: l2) - 1 /\
    failed_count report = 1 /\
    report_failed_documents report =
      [{| failure_id := doc_id bad; failure_name := get (doc_name bad);
          failure_error := Some msg |}] /\
    state_file (sync_documents E (l1 ++ bad :: l2) w).2 = Some st' /\
    failed_documents st' = report_failed_documents report /\
    (forall d, d ∈ l1 ++ l2 ->
       exists k entry,
         doc_id d = Some k /\ synced_documents st' !! k = Some entry /\
         entry_modified entry = doc_modified d) /\
    (forall k, doc_id bad = Some k ->
       synced_documents st' !! k = synced_documents (loaded w) !! k) /\
    trace (sync_documents E (l1 ++ bad :: l2) w).2 = trace w ++ evs /\
    (forall d, d ∈ l1 ++ bad :: l2 -> EvDownload (doc_id d) ∈ evs).
Proof.
  intros Hnd Hel Hbad Hgood.
  set (docs := l1 ++ bad :: l2) in *.
  (* distinct ids *)
  unfold docs in Hnd. rewrite fmap_app, fmap_cons in Hnd.
  apply NoDup_app in Hnd as (Hnd1 & Hdisj & Hnd2).
  apply NoDup_cons in Hnd2 as [Hbad2 Hnd2].
  assert (Hbad1 : doc_id bad ∉ (doc_id <$> l1)).
  { intros Hin. apply (Hdisj _ Hin). apply elem_of_cons. left. reflexivity. }
  (* eligibility *)
  unfold docs in Hel. apply Forall_app in Hel as [Hel1 Hel2].
  apply Forall_cons in Hel2 as [Helb Hel2].
  apply Forall_app in Hgood as [Hg1 Hg2].
  assert (Hs : forall l, Forall (fun d => downloads E d /\ processes E d /\ indexes E d) l ->
                         Forall (always_synced E) l).
  { intros l Hl. eapply Forall_impl; [exact Hl|]. intros d (Ha & Hb & Hc) w0.
    apply sync_document_succeeds; assumption. }
  (* the documents before the failing one *)
  destruct (sync_loop_all_synced E l1 (init_vars (loaded w)) (start_world E docs w)
              Hnd1 Hel1 (Hs _ Hg1))
    as (vars1 & w1 & evs1 & Hrun1 & Hc1 & Hf1 & Hfd1 & Hout1 & Hin1 & Htr1 & Hdl1).
  cbn [init_vars v_sync_state v_synced_count v_failed_count v_failed_docs]
    in Hc1, Hf1, Hfd1, Hout1, Hin1.
  (* the failing document *)
  destruct (should_sync_document_id _ _ Helb) as (kb & Hkb & _ & _).
  assert (Helb1 : should_sync_document bad (v_sync_state vars1) = Ok true).
  { rewrite <- Helb. apply should_sync_document_ext. intros k Hk.
    apply Hout1. rewrite <- Hk. exact Hbad1. }
  destruct (sync_document_download_fails E bad Hbad w1) as (msg & w2 & Hsb).
  pose proof (sync_step_failed E vars1 bad w1 (Some msg) w2 Helb1 Hsb) as Hstepb.
  destruct (sync_document_attempts E bad w1) as [evb Hevb]. rewrite Hsb in Hevb.
  cbn [snd] in Hevb.
  set (vars2 := {| v_sync_state := v_sync_state vars1;
                   v_synced_count := v_synced_count vars1;
                   v_failed_count := v_failed_count vars1 + 1;
                   v_failed_docs := v_failed_docs vars1 ++ [failure_of bad (Some msg)] |})
    in *.
  (* the documents after it *)
  assert (Hel2' : Forall (fun d => should_sync_document d (v_sync_state vars2) = Ok true) l2).
  { rewrite Forall_forall in Hel2 |- *. intros d Hd. rewrite <- (Hel2 d Hd).
    apply should_sync_document_ext. intros k Hk. cbn [vars2 v_sync_state].
    apply Hout1. rewrite <- Hk. intros Hin. apply (Hdisj _ Hin).
    apply elem_of_cons. right. apply list_elem_of_fmap_2, Hd. }
  destruct (sync_loop_all_synced E l2 vars2 w2 Hnd2 Hel2' (Hs _ Hg2))
    as (vars3 & w3 & evs3 & Hrun3 & Hc3 & Hf3 & Hfd3 & Hout3 & Hin3 & Htr3 & Hdl3).
  cbn [vars2 v_sync_state v_synced_count v_failed_count v_failed_docs]
    in Hc3, Hf3, Hfd3, Hout3, Hin3.
  (* the whole loop *)
  assert (Hloop : for_each (sync_step E) docs (init_vars (loaded w)) (start_world E docs w)
                  = (Ok vars3, w3)).
  { unfold docs at 1. rewrite for_each_app, Hrun1. cbn [for_each]. unfold bind.
    rewrite Hstepb. exact Hrun3. }
  rewrite (sync_documents_eq E docs w vars3 w3 Hloop). cbn [fst snd].
  unfold commit_world. rewrite log_sync_activity_eq.
  cbn [snd state_file trace emit_in tick_in with_state_file].
  eexists _, _, msg, _.
  split; [reflexivity|].
  cbn [report_of synced_count failed_count report_failed_documents final_state
       failed_documents synced_documents].
  split. { rewrite Hc3, Hc1. unfold docs. rewrite length_app. simpl. lia. }
  split. { rewrite Hf3, Hf1. reflexivity. }
  split. { rewrite Hfd3, Hfd1. reflexivity. }
  split; [reflexivity|]. split; [reflexivity|].
  split.
  { intros d Hd. apply elem_of_app in Hd as [Hd | Hd].
    - destruct (Hin1 d Hd) as (k & entry & Hk & He & Hm & _).
      exists k, entry. split; [exact Hk|]. split; [|exact Hm].
      rewrite Hout3; [exact He|]. rewrite <- Hk. intros Hin.
      apply (Hdisj (doc_id d)); [apply list_elem_of_fmap_2, Hd|].
      apply elem_of_cons. right. exact Hin.
    - destruct (Hin3 d Hd) as (k & entry & Hk & He & Hm & _).
      exists k, entry. auto. }
  split.
  { intros k Hk. rewrite Hout3 by (rewrite <- Hk; exact Hbad2).
    apply Hout1. rewrite <- Hk. exact Hbad1. }
  split.
  { rewrite Htr3, Hevb, Htr1. unfold start_world. rewrite log_sync_activity_eq.
    cbn [snd trace emit_in tick_in]. rewrite <- !app_assoc. reflexivity. }
  intros d Hd. unfold docs in Hd.
  rewrite !elem_of_app. rewrite !elem_of_cons.
  apply elem_of_app in Hd as [Hd | Hd].
  - pose proof (Hdl1 d Hd). tauto.
  - apply elem_of_cons in Hd as [-> | Hd].
    + tauto.
    + pose proof (Hdl3 d Hd). tauto.
Qed.

(** Every document of the list is eligible for the state the loop has
    built when it reaches the document. *)
Fixpoint eligible_when_reached (E : Env) (docs : list DocumentRecord)
    (vars : LoopVars) (w : World) : Prop :=
  match docs with
  | [] => True
  | d :: l =>
      should_sync_document d (v_sync_state vars) = Ok true /\
      forall vars' w',
        sync_step E vars d w = (Ok vars', w') -> eligible_when_reached E l vars' w'
  end.

Lemma eligible_when_reached_app E l1 l2 :
  forall vars w,
    eligible_when_reached E (l1 ++ l2) vars w ->
    forall vars' w',
      for_each (sync_step E) l1 vars w = (Ok vars', w') ->
      eligible_when_reached E l2 vars' w'.
Proof.
  induction l1 as [|d l1 IH]; intros vars w Hel vars' w' Hrun.
  - simpl in Hrun. injection Hrun as <- <-. exact Hel.
  - cbn [app eligible_when_reached for_each] in *. destruct Hel as [_ Hrest].
    unfold bind in Hrun. destruct (sync_step E vars d w) as [[vars1|e] w1] eqn:Hstep;
      [|discriminate].
    eapply IH; [apply Hrest; reflexivity | exact Hrun].
Qed.

Lemma record_synced_keeps d ts st k :
  is_Some (synced_documents st !! k) ->
  is_Some (synced_documents (record_synced d ts st) !! k).
Proof.
  intros H. unfold record_synced. destruct (doc_id d) as [kd|]; [|exact H].
  cbn [synced_documents]. destruct (decide (kd = k)) as [->|Hne].
  - rewrite lookup_insert_eq. eauto.
  - rewrite lookup_insert_ne by exact Hne. exact H.
Qed.

(** A run of the loop over documents that are eligible when reached and
    all synced. *)
Lemma sync_loop_eligible_synced E l :
  forall vars w,
    eligible_when_reached E l vars w ->
    Forall (always_synced E) l ->
    exists vars' w' evs,
      for_each (sync_step E) l vars w = (Ok vars', w') /\
      v_synced_count vars' = v_synced_count vars + length l /\
      v_failed_count vars' = v_failed_count vars /\
      v_failed_docs vars' = v_failed_docs vars /\
      (forall k, is_Some (synced_documents (v_sync_state vars) !! k) ->
                 is_Some (synced_documents (v_sync_state vars') !! k)) /\
      (forall d, d ∈ l ->
         exists k, doc_id d = Some k /\
                   is_Some (synced_documents (v_sync_state vars') !! k)) /\
      trace w' = trace w ++ evs /\
      (forall d, d ∈ l -> EvDownload (doc_id d) ∈ evs).
Proof.
  induction l as [|d l IH]; intros vars w Hel Hok.
  - exists vars, w, []. simpl. rewrite app_nil_r.
    repeat split; auto; try lia; intros d Hd; inversion Hd.
  - cbn [eligible_when_reached] in Hel. destruct Hel as [Hed Hrest].
    apply Forall_cons in Hok as [Hokd Hok].
    destruct (should_sync_document_id _ _ Hed) as (k & Hk & _ & _).
    destruct (Hokd w) as [w1 Hs].
    pose proof (sync_step_synced E vars d w None w1 Hed Hs) as Hstep.
    destruct (sync_document_attempts E d w) as [ev1 Hev1]. rewrite Hs in Hev1.
    cbn [snd] in Hev1.
    destruct (IH _ _ (Hrest _ _ Hstep) Hok)
      as (vars' & w' & evs & Hrun & Hc & Hf & Hfd & Hkeep & Hin & Htr & Hdl).
    cbn [v_sync_state v_synced_count v_failed_count v_failed_docs] in Hc, Hf, Hfd, Hkeep.
    exists vars', w', (([EvLog (isoformat_now E (clock w)) "INFO" (syncing_message d);
                          EvDownload (doc_id d)] ++ ev1) ++ evs).
    split. { cbn [for_each]. unfold bind. rewrite Hstep. exact Hrun. }
    split. { rewrite Hc. cbn [length]. lia. }
    split; [exact Hf|]. split; [exact Hfd|].
    split. { intros k0 Hk0. apply Hkeep, record_synced_keeps, Hk0. }
    split.
    { intros d0 Hd0. apply elem_of_cons in Hd0 as [-> | Hd0]; [|apply Hin, Hd0].
      exists k. split; [exact Hk|]. apply Hkeep.
      rewrite (record_synced_lookup_eq _ _ _ _ Hk). eauto. }
    split.
    { rewrite Htr. cbn [trace tick_in]. rewrite Hev1, <- !app_assoc. reflexivity. }
    intros d0 Hd0. rewrite !elem_of_app, !elem_of_cons.
    apply elem_of_cons in Hd0 as [-> | Hd0]; [tauto|].
    pose proof (Hdl d0 Hd0). tauto.
Qed.

(** C4: in a batch in which every document is eligible when the loop
    reaches it, the download of one document fails, and every other
    document downloads, processes and indexes, the report counts all but
    one as synced and one as failed, the failure list is the entry of the
    failed document with a message, every other document has an entry in
    the written state, and every document of the batch, also those after
    the failed one, had its download requested. *)
Theorem partial_failure_isolation (E : Env) (l1 l2 : list DocumentRecord)
    (bad : DocumentRecord) (w : World) :
  eligible_when_reached E (l1 ++ bad :: l2) (init_vars (loaded w))
    (start_world E (l1 ++ bad :: l2) w) ->
  download_fails E bad ->
  Forall (fun d => downloads E d /\ processes E d /\ indexes E d) (l1 ++ l2) ->
  exists report st' msg evs,
    sync_documents E (l1 ++ bad :: l2) w
      = (Ok report, (sync_documents E (l1 ++ bad :: l2) w).2) /\
    synced_count report = length (l1 ++ bad :: l2) - 1 /\
    failed_count report = 1 /\
    report_failed_documents report =
      [{| failure_id := doc_id bad; failure_name := get (doc_name bad);
          failure_error := Some msg |}] /\
    state_file (sync_documents E (l1 ++ bad :: l2) w).2 = Some st' /\
    failed_documents st' = report_failed_documents report /\
    (forall d, d ∈ l1 ++ l2 ->
       exists k entry, doc_id d = Some k /\ synced_documents st' !! k = Some entry) /\
    trace (sync_documents E (l1 ++ bad :: l2) w).2 = trace w ++ evs /\
    (forall d, d ∈ l1 ++ bad :: l2 -> EvDownload (doc_id d) ∈ evs).
Proof.
  intros Hel Hbad Hgood.
  set (docs := l1 ++ bad :: l2) in *.
  apply Forall_app in Hgood as [Hg1 Hg2].
  assert (Hs : forall l, Forall (fun d => downloads E d /\ processes E d /\ indexes E d) l ->
                         Forall (always_synced E) l).
  { intros l Hl. eapply Forall_impl; [exact Hl|]. intros d (Ha & Hb & Hc) w0.
    apply sync_document_succeeds; assumption. }
  (* the documents before the failing one *)
  assert (Hel1 : eligible_when_reached E l1 (init_vars (loaded w)) (start_world E docs w)).
  { clear -Hel. unfold docs in Hel at 1.
    revert Hel. generalize (init_vars (loaded w)) (start_world E docs w).
    induction l1 as [|d l IH]; intros vars w0 Hel; [exact I|].
    cbn [app eligible_when_reached] in *. destruct Hel as [Hd Hrest].
    split; [exact Hd|]. intros vars' w' Hstep. apply IH, Hrest, Hstep. }
  destruct (sync_loop_eligible_synced E l1 _ _ Hel1 (Hs _ Hg1))
    as (vars1 & w1 & evs1 & Hrun1 & Hc1 & Hf1 & Hfd1 & Hkeep1 & Hin1 & Htr1 & Hdl1).
  cbn [init_vars v_sync_state v_synced_count v_failed_count v_failed_docs]
    in Hc1, Hf1, Hfd1.
  (* the failing document *)
  unfold docs in Hel at 1.
  pose proof (eligible_when_reached_app E l1 (bad :: l2) _ _ Hel _ _ Hrun1) as Helb.
  cbn [eligible_when_reached] in Helb. destruct Helb as [Helb Hel2].
  destruct (sync_document_download_fails E bad Hbad w1) as (msg & w2 & Hsb).
  pose proof (sync_step_failed E vars1 bad w1 (Some msg) w2 Helb Hsb) as Hstepb.
  destruct (sync_document_attempts E bad w1) as [evb Hevb]. rewrite Hsb in Hevb.
  cbn [snd] in Hevb.
  (* the documents after it *)
  destruct (sync_loop_eligible_synced E l2 _ _ (Hel2 _ _ Hstepb) (Hs _ Hg2))
    as (vars3 & w3 & evs3 & Hrun3 & Hc3 & Hf3 & Hfd3 & Hkeep3 & Hin3 & Htr3 & Hdl3).
  cbn [v_sync_state v_synced_count v_failed_count v_failed_docs]
    in Hc3, Hf3, Hfd3, Hkeep3.
  (* the whole loop *)
  assert (Hloop : for_each (sync_step E) docs (init_vars (loaded w)) (start_world E docs w)
                  = (Ok vars3, w3)).
  { unfold docs at 1. rewrite for_each_app, Hrun1. cbn [for_each]. unfold bind.
    rewrite Hstepb. exact Hrun3. }
  rewrite (sync_documents_eq E docs w vars3 w3 Hloop). cbn [fst snd].
  unfold commit_world. rewrite log_sync_activity_eq.
  cbn [snd state_file trace emit_in tick_in with_state_file].
  eexists _, _, msg, _.
  split; [reflexivity|].
  cbn [report_of synced_count failed_count report_failed_documents final_state
       failed_documents synced_documents].
  split. { rewrite Hc3, Hc1. unfold docs. rewrite length_app. simpl. lia. }
  split. { rewrite Hf3, Hf1. reflexivity. }
  split. { rewrite Hfd3, Hfd1. reflexivity. }
  split; [reflexivity|]. split; [reflexivity|].
  split.
  { intros d Hd. apply elem_of_app in Hd as [Hd | Hd].
    - destruct (Hin1 d Hd) as (k & Hk & He).
      destruct (Hkeep3 k He) as [entry Hentry]. eauto.
    - destruct (Hin3 d Hd) as (k & Hk & [entry Hentry]). eauto. }
  split.
  { rewrite Htr3, Hevb, Htr1. unfold start_world. rewrite log_sync_activity_eq.
    cbn [snd trace emit_in tick_in]. rewrite <- !app_assoc. reflexivity. }
  intros d Hd. unfold docs in Hd.
  rewrite !elem_of_app. rewrite !elem_of_cons.
  apply elem_of_app in Hd as [Hd | Hd].
  - pose proof (Hdl1 d Hd). tauto.
  - apply elem_of_cons in Hd as [-> | Hd].
    + tauto.
    + pose proof (Hdl3 d Hd). tauto.
Qed.

(** ** Re-running a batch *)

Lemma str_gt_irrefl a : str_gt a a = false.
Proof.
  unfold str_gt, String.ltb.
  assert (H : String.compare a a = Eq) by (apply OrderedTypeEx.String_as_OT.cmp_eq; reflexivity).
  rewrite H. reflexivity.
Qed.

(** If [c > b] and not [a > b] then not [a > c]. *)
Lemma str_gt_chain a b c :
  str_gt c b = true -> str_gt a b = false -> str_gt a c = false.
Proof.
  unfold str_gt, String.ltb. intros Hcb Hab.
  destruct (String.compare c a) eqn:Hca; try reflexivity.
  destruct (String.compare b c) eqn:Hbc; try discriminate.
  assert (Hba : String.compare b a = Lt).
  { apply OrderedTypeEx.String_as_OT.cmp_lt.
    eapply OrderedTypeEx.String_as_OT.lt_trans;
      apply OrderedTypeEx.String_as_OT.cmp_lt; eassumption. }
  rewrite Hba in Hab. discriminate.
Qed.

(** The state holds, for the id of [d], a non-empty fingerprint that the
    non-empty timestamp of [d] does not exceed. *)
Definition up_to_date (m : gmap string SyncedEntry) (d : DocumentRecord) : Prop :=
  exists k entry lm lsm,
    doc_id d = Some k /\ m !! k = Some entry /\
    doc_modified d = Some lm /\ entry_modified entry = Some lsm /\
    nonempty lm = true /\ nonempty lsm = true /\ str_gt lm lsm = false.

Lemma up_to_date_skipped st d :
  doc_name d <> Null ->
  up_to_date (synced_documents st) d -> should_sync_document d st = Ok false.
Proof.
  intros Hn (k & entry & lm & lsm & Hk & He & Hlm & Hlsm & N1 & N2 & Hgt).
  unfold should_sync_document. rewrite Hk, He, Hlm, Hlsm, N1, N2.
  destruct (nonempty k); [|reflexivity]. cbn [negb].
  destruct (is_document_supported_returns d Hn) as [b ->].
  destruct b; [|reflexivity]. cbn [negb andb]. rewrite Hgt. reflexivity.
Qed.

Lemma should_sync_document_named st d :
  should_sync_document d st = Ok true -> doc_name d <> Null.
Proof.
  intros H Hn. destruct (should_sync_document_id _ _ H) as (k & _ & _ & Hs).
  unfold is_document_supported in Hs. rewrite Hn in Hs. discriminate.
Qed.

Lemma up_to_date_record_synced st d d' ts :
  should_sync_document d' st = Ok true ->
  truthy (doc_modified d') = true ->
  up_to_date (synced_documents st) d ->
  up_to_date (synced_documents (record_synced d' ts st)) d.
Proof.
  intros Hel Hts (k & entry & lm & lsm & Hk & He & Hlm & Hlsm & N1 & N2 & Hgt).
  destruct (decide (doc_id d' = Some k)) as [Hk' | Hne].
  - apply truthy_Some in Hts as (lm' & Hlm' & N').
    exists k, {| entry_name := get (doc_name d'); entry_modified := doc_modified d';
                 entry_sync_date := ts |}, lm, lm'.
    rewrite (record_synced_lookup_eq _ _ _ _ Hk'). cbn [entry_modified].
    repeat (split; [first [assumption | reflexivity]|]).
    unfold should_sync_document in Hel.
    rewrite Hk', He, Hlm', Hlsm, N', N2 in Hel.
    destruct (nonempty k); [|discriminate].
    destruct (is_document_supported d') as [[|]|e]; [|discriminate..].
    cbn [negb andb] in Hel. injection Hel as Hel.
    exact (str_gt_chain _ _ _ Hel Hgt).
  - exists k, entry, lm, lsm.
    rewrite (record_synced_lookup_ne _ _ _ _ Hne). auto 10.
Qed.

Lemma up_to_date_just_synced st d ts :
  should_sync_document d st = Ok true ->
  truthy (doc_modified d) = true ->
  up_to_date (synced_documents (record_synced d ts st)) d.
Proof.
  intros Hel Hts. destruct (should_sync_document_id _ _ Hel) as (k & Hk & _ & _).
  apply truthy_Some in Hts as (lm & Hlm & N).
  exists k, {| entry_name := get (doc_name d); entry_modified := doc_modified d;
               entry_sync_date := ts |}, lm, lm.
  rewrite (record_synced_lookup_eq _ _ _ _ Hk). cbn [entry_modified].
  repeat (split; [first [assumption | reflexivity]|]). apply str_gt_irrefl.
Qed.

Definition has_timestamp (d : DocumentRecord) : Prop :=
  truthy (doc_modified d) = true.

Lemma sync_loop_count_le E l :
  forall vars w vars' w',
    for_each (sync_step E) l vars w = (Ok vars', w') ->
    v_synced_count vars' <= v_synced_count vars + length l.
Proof.
  induction l as [|d l IH]; intros vars w vars' w' Hrun.
  - simpl in Hrun. injection Hrun as <- _. simpl. lia.
  - cbn [for_each] in Hrun. unfold bind in Hrun.
    destruct (sync_step_cases E vars d w)
      as [[He Hstep] | [(He & Hsu & msg & w1 & Hs & Hstep)
                       | [(He & Hsu & w1 & Hs & Hstep) | (e & He & Hstep)]]];
      rewrite Hstep in Hrun; [| | |discriminate];
      apply IH in Hrun; simpl in *; lia.
Qed.

Lemma sync_loop_up_to_date E l d0 :
  Forall has_timestamp l ->
  forall vars w vars' w',
    up_to_date (synced_documents (v_sync_state vars)) d0 ->
    for_each (sync_step E) l vars w = (Ok vars', w') ->
    up_to_date (synced_documents (v_sync_state vars')) d0.
Proof.
  induction l as [|d l IH]; intros Hts vars w vars' w' Hup Hrun.
  - simpl in Hrun. injection Hrun as <- _. exact Hup.
  - apply Forall_cons in Hts as [Htd Hts].
    cbn [for_each] in Hrun. unfold bind in Hrun.
    destruct (sync_step_cases E vars d w)
      as [[He Hstep] | [(He & Hsu & msg & w1 & Hs & Hstep)
                       | [(He & Hsu & w1 & Hs & Hstep) | (e & He & Hstep)]]];
      rewrite Hstep in Hrun; [| | |discriminate];
      eapply (IH Hts); try exact Hrun.
    + exact Hup.
    + exact Hup.
    + cbn [vars_synced v_sync_state]. apply up_to_date_record_synced; assumption.
Qed.

(** When every document of the list was counted as synced, each of them
    passed the type check, and the state at the end of the loop is up to
    date for each of them. *)
Lemma sync_loop_all_counted E l :
  Forall has_timestamp l ->
  forall vars w vars' w',
    for_each (sync_step E) l vars w = (Ok vars', w') ->
    v_synced_count vars' = v_synced_count vars + length l ->
    Forall (fun d => doc_name d <> Null /\
                     up_to_date (synced_documents (v_sync_state vars')) d) l.
Proof.
  induction l as [|d l IH]; intros Hts vars w vars' w' Hrun Hcount.
  - constructor.
  - apply Forall_cons in Hts as [Htd Hts].
    cbn [for_each] in Hrun. unfold bind in Hrun.
    destruct (sync_step_cases E vars d w)
      as [[He Hstep] | [(He & Hsu & msg & w1 & Hs & Hstep)
                       | [(He & Hsu & w1 & Hs & Hstep) | (e & He & Hstep)]]];
      rewrite Hstep in Hrun; [| | |discriminate];
      pose proof (sync_loop_count_le _ _ _ _ _ _ Hrun) as Hle;
      simpl in Hcount, Hle; try lia.
    constructor.
    + split; [eapply should_sync_document_named, He|].
      eapply (sync_loop_up_to_date E l d Hts); [|exact Hrun].
      cbn [vars_synced v_sync_state]. apply up_to_date_just_synced; assumption.
    + eapply (IH Hts); [exact Hrun|]. simpl. lia.
Qed.

(** Over documents for which the state is up to date the loop does
    nothing. *)
Lemma sync_loop_all_skipped E l vars w :
  Forall (fun d => doc_name d <> Null /\
                   up_to_date (synced_documents (v_sync_state vars)) d) l ->
  for_each (sync_step E) l vars w = (Ok vars, w).
Proof.
  induction 1 as [|d l [Hn Hd] Hl IH]; [reflexivity|].
  cbn [for_each]. unfold bind.
  rewrite (sync_step_skipped E vars d w (up_to_date_skipped _ _ Hn Hd)). exact IH.
Qed.

(** A small environment for concrete runs: the document ["B"] cannot be
    downloaded, every other id yields a text file that is extracted,
    split into one chunk and stored. *)
Definition demo_env : Env :=
  {| isoformat_now := fun n => "t" +:+ str_of_int (Z.of_nat n);
     api_download_document :=
       fun _ i =>
         match i with
         | Some k => if String.eqb k "B" then Ok None
                     else Ok (Some ("/tmp/" +:+ k +:+ ".txt"))
         | None => Raise "Not authenticated. Complete OAuth flow first."
         end;
     extract_text_from_pdf := fun _ _ => Raise "Error extracting text from PDF: boom";
     extract_text_from_docx := fun _ _ => Raise "Error extracting text from DOCX: boom";
     extract_text_from_txt := fun _ _ => Ok (text_of_string "some text");
     split_text := fun s => [s];
     chroma_add_documents := fun _ _ _ => Ok tt;
     rag_pipeline := true |}.

Definition empty_world : World :=
  {| state_file := None; temp_files := ∅; vector_db := ∅; clock := 0; trace := [] |}.

(** C5: when every document of the list carries a modification timestamp
    (a non-empty one, the same in both runs) and a first run counted
    every document as synced, a second run over the same list, whatever
    the collaborators would do, returns, requests no download, reports
    [synced_count = 0] and [failed_count = 0], and writes a state with
    the same map of synced documents. *)
Theorem resync_skips_unchanged (E1 E2 : Env) (docs : list DocumentRecord) (w : World) :
  Forall has_timestamp docs ->
  (exists report1,
      (sync_documents E1 docs w).1 = Ok report1 /\
      synced_count report1 = length docs) ->
  let w1 := (sync_documents E1 docs w).2 in
  let w2 := (sync_documents E2 docs w1).2 in
  exists report2 st1 st2,
    (sync_documents E2 docs w1).1 = Ok report2 /\
    synced_count report2 = 0 /\ failed_count report2 = 0 /\
    state_file w1 = Some st1 /\ state_file w2 = Some st2 /\
    synced_documents st2 = synced_documents st1 /\
    forallb (fun e => negb (match e with EvDownload _ => true | _ => false end))
      (drop (length (trace w1)) (trace w2)) = true.
Proof.
  intros Hts (report1 & Hr1 & Hc1). cbn zeta.
  destruct (sync_documents_returns E1 docs w report1 Hr1) as (vars1 & wl & Hloop1 & ->).
  rewrite (sync_documents_eq E1 docs w vars1 wl Hloop1) in *. cbn [fst snd] in *.
  cbn [report_of synced_count] in Hc1.
  pose proof (sync_loop_all_counted E1 docs Hts _ _ _ _ Hloop1) as Hup.
  cbn [init_vars v_synced_count] in Hup. specialize (Hup Hc1).
  set (st1 := final_state vars1 (isoformat_now E1 (clock wl))).
  set (w1 := commit_world E1 vars1 wl).
  assert (Hfile : state_file w1 = Some st1) by reflexivity.
  assert (Hloaded : loaded w1 = st1) by (unfold loaded; rewrite Hfile; reflexivity).
  assert (Hloop2 : for_each (sync_step E2) docs (init_vars (loaded w1)) (start_world E2 docs w1)
                   = (Ok (init_vars (loaded w1)), start_world E2 docs w1)).
  { apply sync_loop_all_skipped. rewrite Hloaded. exact Hup. }
  rewrite (sync_documents_eq E2 docs w1 _ _ Hloop2). cbn [fst snd].
  eexists _, st1, _. split; [reflexivity|].
  split; [reflexivity|]. split; [reflexivity|]. split; [exact Hfile|].
  unfold commit_world, start_world. rewrite !log_sync_activity_eq.
  cbn [snd state_file trace emit_in tick_in with_state_file].
  split; [reflexivity|]. split.
  - cbn [final_state synced_documents init_vars v_sync_state]. rewrite Hloaded. reflexivity.
  - rewrite <- !app_assoc, drop_app_length. reflexivity.
Qed.

(** ** Concrete runs *)

Definition doc_a : DocumentRecord := mk_doc (Some "A") (Some "a.txt") (Some "T1").
Definition doc_b : DocumentRecord := mk_doc (Some "B") (Some "b.txt") (Some "T1").
Definition doc_c : DocumentRecord := mk_doc (Some "C") (Some "c.txt") (Some "T1").

Example demo_run_report :
  (sync_documents demo_env [doc_a; doc_b; doc_c] empty_world).1 =
  Ok {| success := false; synced_count := 2; failed_count := 1;
        report_failed_documents :=
          [{| failure_id := Some "B"; failure_name := Some "b.txt";
              failure_error := Some "Failed to download document b.txt" |}];
        total_processed := 3 |}.
Proof. vm_compute. reflexivity. Qed.

Example demo_run_store_ids :
  List.filter (fun e => match e with EvUpsert _ => true | _ => false end)
    (trace (sync_documents demo_env [doc_a; doc_b; doc_c] empty_world).2) =
  [EvUpsert ["doc_0_A.txt_0"]; EvUpsert ["doc_0_C.txt_0"]].
Proof. vm_compute. reflexivity. Qed.

Example demo_run_no_temp_file :
  elements (temp_files (sync_documents demo_env [doc_a; doc_b; doc_c] empty_world).2) = [].
Proof. vm_compute. reflexivity. Qed.

(** The scenario of the specification: two documents are synced from the
    empty state; in a second run only the one whose timestamp advanced is
    synced again. *)
Example demo_second_run_report :
  (sync_documents demo_env
     [doc_a; mk_doc (Some "C") (Some "c.txt") (Some "T2")]
     (sync_documents demo_env [doc_a; doc_c] empty_world).2).1 =
  Ok {| success := true; synced_count := 1; failed_count := 0;
        report_failed_documents := []; total_processed := 2 |}.
Proof. vm_compute. reflexivity. Qed.

Example demo_second_run_fingerprints :
  (fun st => (entry_modified <$> synced_documents st !! "A",
              entry_modified <$> synced_documents st !! "C"))
    <$> state_file
          (sync_documents demo_env
             [doc_a; mk_doc (Some "C") (Some "c.txt") (Some "T2")]
             (sync_documents demo_env [doc_a; doc_c] empty_world).2).2
  = Some (Some (Some "T1"), Some (Some "T2")).
Proof. vm_compute. reflexivity. Qed.

(** The same chunk submitted at two positions is stored twice. *)
Example demo_store_duplicate :
  let b := chunk_doc "b.txt" 0 "text" in
  let a := chunk_doc "a.txt" 0 "other" in
  let db := upsert_all (store_ids [a; b]) [a; b] (upsert_all (store_ids [b]) [b] ∅) in
  size db = 3 /\ db !! "doc_0_b.txt_0" = Some b /\ db !! "doc_1_b.txt_0" = Some b.
Proof. vm_compute. auto. Qed.

Lemma fingerprint_invariant_witness :
  exists st',
    state_file (sync_documents demo_env [doc_a; doc_b] empty_world).2 = Some st' /\
    fingerprints_current
      ([] ++ synced_in_run demo_env [doc_a; doc_b] (init_vars (loaded empty_world))
               (start_world demo_env [doc_a; doc_b] empty_world))
      (synced_documents st').
Proof.
  eapply (proj1 (fingerprint_invariant demo_env [doc_a; doc_b] empty_world [] _)).
  vm_compute. reflexivity.
  Unshelve. intros k entry H. vm_compute in H. discriminate H.
Defined.

Lemma partial_failure_isolation_witness :
  exists report,
    (sync_documents demo_env ([doc_a] ++ doc_b :: [doc_c]) empty_world).1 = Ok report /\
    synced_count report = 2 /\ failed_count report = 1.
Proof.
  destruct (partial_failure_isolation demo_env [doc_a] [doc_c] doc_b empty_world)
    as (report & st' & msg & evs & Hrun & Hs & Hf & _).
  - cbn [app eligible_when_reached]. split; [reflexivity|].
    intros vars1 w1 H1. vm_compute in H1. injection H1 as <- <-.
    split; [reflexivity|].
    intros vars2 w2 H2. vm_compute in H2. injection H2 as <- <-.
    split; [reflexivity|]. intros vars3 w3 _. exact I.
  - intros w. reflexivity.
  - apply Forall_cons. split; [|apply Forall_cons; split; [|apply Forall_nil; exact I]].
    + split; [|split].
      * intros w. eexists. split; reflexivity.
      * intros w p Hp w1. vm_compute in Hp. injection Hp as <-. eexists. reflexivity.
      * intros _ w docs _. reflexivity.
    + split; [|split].
      * intros w. eexists. split; reflexivity.
      * intros w p Hp w1. vm_compute in Hp. injection Hp as <-. eexists. reflexivity.
      * intros _ w docs _. reflexivity.
  - exists report. rewrite Hrun. auto.
Defined.

Lemma resync_skips_unchanged_witness :
  exists report2,
    (sync_documents demo_env [doc_a; doc_c]
       (sync_documents demo_env [doc_a; doc_c] empty_world).2).1 = Ok report2 /\
    synced_count report2 = 0.
Proof.
  destruct (resync_skips_unchanged demo_env demo_env [doc_a; doc_c] empty_world)
    as (report2 & st1 & st2 & Hrun & Hc & _).
  - repeat constructor.
  - eexists. split; [vm_compute; reflexivity | reflexivity].
  - exists report2. auto.
Defined.

(** A file whose text is whitespace only, some of it outside ASCII: a
    space, a no-break space, an ideographic space, a line feed and a next
    line. *)
Definition blank_env : Env :=
  {| isoformat_now := isoformat_now demo_env;
     api_download_document := api_download_document demo_env;
     extract_text_from_pdf := extract_text_from_pdf demo_env;
     extract_text_from_docx := extract_text_from_docx demo_env;
     extract_text_from_txt := fun _ _ => Ok [0x20; 0xA0; 0x3000; 0xA; 0x85]%N;
     split_text := split_text demo_env;
     chroma_add_documents := chroma_add_documents demo_env;
     rag_pipeline := rag_pipeline demo_env |}.

Lemma process_document_chunks_witness :
  process_document blank_env "/tmp/A.txt" empty_world
    = (Raise "No text could be extracted from /tmp/A.txt", empty_world) /\
  exists docs,
    process_document demo_env "/tmp/A.txt" empty_world = (Ok docs, empty_world) /\
    length docs = 1.
Proof.
  split.
  - apply (proj1 (proj2 (process_document_chunks blank_env "/tmp/A.txt" empty_world
                           [0x20; 0xA0; 0x3000; 0xA; 0x85]%N eq_refl))).
    reflexivity.
  - destruct (proj2 (proj2 (process_document_chunks demo_env "/tmp/A.txt" empty_world
                              (text_of_string "some text") eq_refl)))
      as (docs & Hrun & Hlen & _).
    + reflexivity.
    + exists docs. auto.
Defined.

Lemma temp_file_removed_witness :
  "/tmp/A.txt" ∉ temp_files (sync_document demo_env doc_a empty_world).2.
Proof.
  apply (temp_file_removed demo_env doc_a empty_world "/tmp/A.txt").
  - vm_compute. reflexivity.
  - reflexivity.
Defined.

Lemma missing_timestamp_or_id_witness :
  should_sync_document
    (mk_doc (Some "A") (Some "a.txt") None)
    (state_of {[ "A" := mk_entry (Some "T1") ]}) = Ok true.
Proof.
  apply (proj1 (missing_timestamp_or_id demo_env (mk_doc (Some "A") (Some "a.txt") None))
           (state_of {[ "A" := mk_entry (Some "T1") ]}) "A" (mk_entry (Some "T1"))).
  - reflexivity.
  - reflexivity.
  - vm_compute. reflexivity.
  - vm_compute. reflexivity.
  - left. reflexivity.
Defined.

(** ** A record with a null name *)

(** A record as the remote source can deliver it: an id and a name that
    is null. *)
Definition doc_null : DocumentRecord :=
  {| doc_id := Some "N"; doc_name := Null; doc_modified := Some "T1";
     doc_author := None; doc_workspace := None |}.

(** The ids of the download requests among some events, in order. *)
Definition downloads_in (evs : list event) : list (option string) :=
  omap (fun e => match e with EvDownload i => Some i | _ => None end) evs.

(** C2: [sync_documents] does not write the state file for every list.
    For the list that holds one record with an id and a null name the
    eligibility check raises [TypeError], outside any [try]: whatever the
    collaborators do, [sync_documents] raises, the state file stays as it
    was and the trace holds no write of it.  In the batch [A, N, C] the
    document [A] is downloaded and stored, [C] is never requested, and
    nothing records that [A] was synced. *)
Theorem null_name_no_commit :
  (forall (E : Env) (w : World),
      let run := sync_documents E [doc_null] w in
      run.1 = Raise path_type_error /\
      state_file run.2 = state_file w /\
      List.filter is_save (drop (length (trace w)) (trace run.2)) = []) /\
  (let run := sync_documents demo_env [doc_a; doc_null; doc_c] empty_world in
   run.1 = Raise path_type_error /\
   state_file run.2 = None /\
   List.filter is_save (trace run.2) = [] /\
   downloads_in (trace run.2) = [Some "A"] /\
   (page_content <$> vector_db run.2 !! "doc_0_A.txt_0")
     = Some (text_of_string "some text")).
Proof.
  split.
  - intros E w. cbn zeta.
    assert (H : sync_documents E [doc_null] w
                = (Raise path_type_error, start_world E [doc_null] w)).
    { apply sync_documents_raise. reflexivity. }
    rewrite H. cbn [fst snd]. split; [reflexivity|].
    unfold start_world. rewrite log_sync_activity_eq.
    cbn [snd state_file trace emit_in tick_in]. split; [reflexivity|].
    rewrite drop_app_length. reflexivity.
  - vm_compute. auto.
Qed.

(** C7: an error of one document does propagate to the caller of
    [sync_documents].  For a record with an id and a null name, the
    [TypeError] of the eligibility check is raised before the [try] of
    [sync_document] is entered: whatever the collaborators do, the
    iteration raises in the world it started in, [sync_documents] raises
    with the same message, no failure entry is made and no report is
    returned, also when documents that could be synced follow. *)
Theorem null_name_error_propagates (E : Env) (w : World)
    (vars : LoopVars) (rest : list DocumentRecord) :
  should_sync_document doc_null (v_sync_state vars) = Raise path_type_error /\
  sync_step E vars doc_null w = (Raise path_type_error, w) /\
  sync_documents E (doc_null :: rest) w
    = (Raise path_type_error, start_world E (doc_null :: rest) w) /\
  (sync_documents demo_env [doc_null; doc_a] empty_world).1 = Raise path_type_error /\
  downloads_in (trace (sync_documents demo_env [doc_null; doc_a] empty_world).2) = [].
Proof.
  split; [reflexivity|]. split; [reflexivity|].
  split; [apply sync_documents_raise; reflexivity|].
  split; vm_compute; reflexivity.
Qed.

Lemma sync_documents_single_commit_witness :
  (exists report,
      (sync_documents demo_env [doc_a; doc_b; doc_c] empty_world).1 = Ok report) /\
  (exists w',
      sync_documents demo_env [doc_a; doc_null] empty_world
        = (Raise path_type_error, w') /\
      state_file w' = None).
Proof.
  split.
  - destruct (proj1 (sync_documents_single_commit demo_env [doc_a; doc_b; doc_c]
                       empty_world))
      as (vars & w1 & evs & _ & _ & _ & _ & _ & Hret & _).
    + repeat constructor.
    + exact Hret.
  - destruct (proj2 (sync_documents_single_commit demo_env [doc_a; doc_null]
                       empty_world))
      as (w' & Hrun & Hfile & _).
    + intros H. apply Forall_cons in H as [_ H]. apply Forall_cons in H as [H _].
      discriminate H.
    + exists w'. split; [exact Hrun | exact Hfile].
Defined.

(** * Further properties of the engine *)

From Stdlib Require DecimalZ DecimalPos.

(** ** Accounting of a batch *)

(** A failure entry made for a document of the list, with a message. *)
Definition failure_from (docs : list DocumentRecord) (f : FailureEntry) : Prop :=
  exists d msg, d ∈ docs /\ f = failure_of d (Some msg).

(** What the loop keeps between its variables, whatever the documents
    and the collaborators do. *)
Lemma sync_loop_accounting E docs :
  forall vars w vars' w',
    for_each (sync_step E) docs vars w = (Ok vars', w') ->
    (exists new,
        v_failed_docs vars' = v_failed_docs vars ++ new /\
        v_failed_count vars' = v_failed_count vars + length new /\
        Forall (failure_from docs) new) /\
    v_synced_count vars <= v_synced_count vars' /\
    v_synced_count vars' + v_failed_count vars'
      <= v_synced_count vars + v_failed_count vars + length docs /\
    last_sync (v_sync_state vars') = last_sync (v_sync_state vars) /\
    failed_documents (v_sync_state vars') = failed_documents (v_sync_state vars).
Proof.
  induction docs as [|d l IH]; intros vars w vars' w' Hrun.
  - simpl in Hrun. injection Hrun as <- <-. split.
    + exists []. rewrite app_nil_r. simpl. split; [reflexivity|]. split; [lia|constructor].
    + simpl. repeat split; lia.
  - cbn [for_each] in Hrun. unfold bind in Hrun.
    assert (Hmono : forall new, Forall (failure_from l) new -> Forall (failure_from (d :: l)) new).
    { intros new Hn. eapply Forall_impl; [exact Hn|]. intros f (d0 & msg & Hd0 & ->).
      exists d0, msg. split; [apply elem_of_cons; right; exact Hd0 | reflexivity]. }
    destruct (sync_step_cases E vars d w)
      as [[He Hstep] | [(He & Hsu & msg & w1 & Hs & Hstep)
                       | [(He & Hsu & w1 & Hs & Hstep) | (e & He & Hstep)]]];
      rewrite Hstep in Hrun; [| | |discriminate];
      destruct (IH _ _ _ _ Hrun) as ((new & Hfd & Hfc & Hnew) & Hle & Hsum & Hls & Hfl).
    + split; [exists new; auto|]. cbn [length]. repeat split; try lia; assumption.
    + cbn [vars_failed v_failed_docs v_failed_count v_synced_count v_sync_state] in *.
      split.
      * exists (failure_of d (Some msg) :: new).
        rewrite Hfd, <- app_assoc. split; [reflexivity|]. cbn [length]. split; [lia|].
        constructor; [|auto]. exists d, msg. split; [apply elem_of_cons; left|]; reflexivity.
      * cbn [length]. repeat split; try lia; assumption.
    + cbn [vars_synced v_failed_docs v_failed_count v_synced_count v_sync_state] in *.
      split; [exists new; auto|]. cbn [length].
      assert (Hrs : forall ts st, last_sync (record_synced d ts st) = last_sync st /\
                                  failed_documents (record_synced d ts st) = failed_documents st).
      { intros ts st. unfold record_synced. destruct (doc_id d); split; reflexivity. }
      destruct (Hrs (isoformat_now E (clock w1)) (v_sync_state vars)) as [H1 H2].
      repeat split; try lia; congruence.
Qed.

(** What the loop does to the map of synced documents: entries are never
    removed, new keys are ids of documents of the list, and the map grows
    by at most the number of documents counted as synced. *)
Lemma sync_loop_entries E docs :
  forall vars w vars' w',
    for_each (sync_step E) docs vars w = (Ok vars', w') ->
    (forall k, is_Some (synced_documents (v_sync_state vars) !! k) ->
               is_Some (synced_documents (v_sync_state vars') !! k)) /\
    (forall k, is_Some (synced_documents (v_sync_state vars') !! k) ->
               is_Some (synced_documents (v_sync_state vars) !! k) \/
               Some k ∈ (doc_id <$> docs)) /\
    size (synced_documents (v_sync_state vars')) + v_synced_count vars
      <= size (synced_documents (v_sync_state vars)) + v_synced_count vars'.
Proof.
  induction docs as [|d l IH]; intros vars w vars' w' Hrun.
  - simpl in Hrun. injection Hrun as <- <-. repeat split; auto; lia.
  - cbn [for_each] in Hrun. unfold bind in Hrun. rewrite fmap_cons.
    destruct (sync_step_cases E vars d w)
      as [[He Hstep] | [(He & Hsu & msg & w1 & Hs & Hstep)
                       | [(He & Hsu & w1 & Hs & Hstep) | (e & He & Hstep)]]];
      rewrite Hstep in Hrun; [| | |discriminate];
      destruct (IH _ _ _ _ Hrun) as (Hkeep & Hnew & Hsize).
    + repeat split; [exact Hkeep | | exact Hsize].
      intros k Hk. destruct (Hnew k Hk); [left | right; apply elem_of_cons; right]; assumption.
    + cbn [vars_failed v_sync_state v_synced_count] in *.
      repeat split; [exact Hkeep | | exact Hsize].
      intros k Hk. destruct (Hnew k Hk); [left | right; apply elem_of_cons; right]; assumption.
    + cbn [vars_synced v_sync_state v_synced_count] in *.
      destruct (should_sync_document_id _ _ He) as (kd & Hkd & _ & _).
      set (ts := isoformat_now E (clock w1)) in *.
      repeat split.
      * intros k Hk. apply Hkeep, record_synced_keeps, Hk.
      * intros k Hk. destruct (Hnew k Hk) as [H | H].
        -- destruct (decide (kd = k)) as [<- | Hne].
           ++ right. apply elem_of_cons. left. symmetry. exact Hkd.
           ++ left. rewrite record_synced_lookup_ne in H by congruence. exact H.
        -- right. apply elem_of_cons. right. exact H.
      * assert (Hins : size (synced_documents (record_synced d ts (v_sync_state vars)))
                       <= S (size (synced_documents (v_sync_state vars)))).
        { unfold record_synced. rewrite Hkd. cbn [synced_documents].
          destruct (synced_documents (v_sync_state vars) !! kd) eqn:Hl.
          - rewrite map_size_insert_Some by eauto. lia.
          - rewrite map_size_insert_None by exact Hl. lia. }
        lia.
Qed.

Lemma sync_loop_none_eligible E docs vars w :
  Forall (fun d => should_sync_document d (v_sync_state vars) = Ok false) docs ->
  for_each (sync_step E) docs vars w = (Ok vars, w).
Proof.
  induction 1 as [|d l Hd Hl IH]; [reflexivity|].
  cbn [for_each]. unfold bind. rewrite (sync_step_skipped E vars d w Hd). exact IH.
Qed.

(** X1: A batch returns a report exactly when no record of the list has
    an id together with a null name (otherwise the type check raises).
    The report of a batch that returns is consistent with itself and with
    the state written: [failed_count] is the length of the failure list,
    every failure entry is the entry of a document of this batch with a
    message, the counts add up to at most [total_processed], which is the
    length of the list, and the failure list written to the state is the
    one of this batch alone, whatever failures the loaded state held. *)
Theorem sync_report_accounting (E : Env) (docs : list DocumentRecord) (w : World) :
  (Forall (fun d => checkable d = true) docs <->
   exists report, (sync_documents E docs w).1 = Ok report) /\
  forall report,
    (sync_documents E docs w).1 = Ok report ->
    exists st',
      state_file (sync_documents E docs w).2 = Some st' /\
      failed_count report = length (report_failed_documents report) /\
      synced_count report + failed_count report <= total_processed report /\
      total_processed report = length docs /\
      (success report = true <-> report_failed_documents report = []) /\
      Forall (failure_from docs) (report_failed_documents report) /\
      failed_documents st' = report_failed_documents report.
Proof.
  split.
  { split.
    - intros Hc. destruct (sync_documents_total E docs w Hc) as (report & w' & H).
      exists report. rewrite H. reflexivity.
    - intros [report Hret].
      destruct (sync_documents_returns E docs w report Hret) as (vars & w1 & Hloop & _).
      eapply sync_loop_checkable, Hloop. }
  intros report Hret.
  destruct (sync_documents_returns E docs w report Hret) as (vars & w1 & Hloop & ->).
  rewrite (sync_documents_eq E docs w vars w1 Hloop). cbn [fst snd].
  destruct (sync_loop_accounting E docs _ _ _ _ Hloop)
    as ((new & Hfd & Hfc & Hnew) & Hle & Hsum & _).
  cbn [init_vars v_failed_docs v_failed_count v_synced_count app] in Hfd, Hfc, Hsum.
  unfold commit_world. rewrite log_sync_activity_eq.
  cbn [snd state_file emit_in tick_in with_state_file].
  eexists. split; [reflexivity|].
  cbn [report_of failed_count synced_count total_processed report_failed_documents
       success final_state failed_documents].
  rewrite Hfd, Hfc. repeat split; try lia; try assumption.
  - intros H. apply Nat.eqb_eq in H. destruct new; [reflexivity | simpl in H; lia].
  - intros ->. reflexivity.
Qed.

(** X2: A batch that returns never removes an entry of the map of synced
    documents: every id synced before is still there in the written
    state, a new key is the id of a document of the batch, and the map
    grows by at most [synced_count] entries.  The batch returns when
    every record of the list can be checked; a batch that raises leaves
    the state file, and with it the map, as it was. *)
Theorem synced_documents_grow (E : Env) (docs : list DocumentRecord) (w : World) :
  (Forall (fun d => checkable d = true) docs ->
   exists report, (sync_documents E docs w).1 = Ok report) /\
  (forall e, (sync_documents E docs w).1 = Raise e ->
             state_file (sync_documents E docs w).2 = state_file w) /\
  forall report,
    (sync_documents E docs w).1 = Ok report ->
    exists st',
      state_file (sync_documents E docs w).2 = Some st' /\
      dom (synced_documents (loaded w)) ⊆ dom (synced_documents st') /\
      (forall k, k ∈ dom (synced_documents st') ->
         k ∈ dom (synced_documents (loaded w)) \/ Some k ∈ (doc_id <$> docs)) /\
      size (synced_documents (loaded w)) <= size (synced_documents st') /\
      size (synced_documents st')
        <= size (synced_documents (loaded w)) + synced_count report.
Proof.
  split.
  { intros Hc. destruct (sync_documents_total E docs w Hc) as (report & w' & H).
    exists report. rewrite H. reflexivity. }
  split; [apply sync_documents_raised_state|].
  intros report Hret.
  destruct (sync_documents_returns E docs w report Hret) as (vars & w1 & Hloop & ->).
  rewrite (sync_documents_eq E docs w vars w1 Hloop). cbn [fst snd].
  destruct (sync_loop_entries E docs _ _ _ _ Hloop) as (Hkeep & Hnew & Hsize).
  cbn [init_vars v_sync_state v_synced_count] in Hkeep, Hnew, Hsize.
  unfold commit_world. rewrite log_sync_activity_eq.
  cbn [snd state_file emit_in tick_in with_state_file].
  eexists. split; [reflexivity|].
  cbn [report_of synced_count final_state synced_documents].
  assert (Hsub : dom (synced_documents (loaded w))
                 ⊆ dom (synced_documents (v_sync_state vars))).
  { intros k Hk. apply elem_of_dom. apply Hkeep. apply elem_of_dom. exact Hk. }
  split; [exact Hsub|]. split.
  { intros k Hk. apply elem_of_dom in Hk. destruct (Hnew k Hk) as [H | H].
    - left. apply elem_of_dom. exact H.
    - right. exact H. }
  split; [|lia].
  rewrite <- !size_dom. apply subseteq_size. exact Hsub.
Qed.

(** X3: A batch without an eligible document, the empty batch included,
    attempts nothing: the report has zero counts and [success], and the
    state is written all the same, with the same map of synced documents,
    a new [last_sync] and an empty failure list. *)
Theorem nothing_to_sync (E : Env) (docs : list DocumentRecord) (w : World) :
  Forall (fun d => should_sync_document d (loaded w) = Ok false) docs ->
  exists t0 t1 msg0 msg1,
    sync_documents E docs w =
      (Ok {| success := true; synced_count := 0; failed_count := 0;
             report_failed_documents := []; total_processed := length docs |},
       (sync_documents E docs w).2) /\
    state_file (sync_documents E docs w).2 =
      Some {| last_sync := Some t1;
              synced_documents := synced_documents (loaded w);
              failed_documents := [] |} /\
    trace (sync_documents E docs w).2 =
      trace w ++ [EvLog t0 "INFO" msg0;
                  EvSave {| last_sync := Some t1;
                            synced_documents := synced_documents (loaded w);
                            failed_documents := [] |};
                  EvLog (isoformat_now E (S (S (clock w)))) "INFO" msg1] /\
    t0 = isoformat_now E (clock w) /\ t1 = isoformat_now E (S (clock w)) /\
    vector_db (sync_documents E docs w).2 = vector_db w /\
    temp_files (sync_documents E docs w).2 = temp_files w.
Proof.
  intros Hno.
  pose proof (sync_loop_none_eligible E docs (init_vars (loaded w))
                (start_world E docs w) Hno) as Hloop.
  rewrite (sync_documents_eq E docs w _ _ Hloop). cbn [fst snd].
  unfold commit_world, start_world. rewrite !log_sync_activity_eq.
  cbn [snd state_file trace clock vector_db temp_files emit_in tick_in with_state_file].
  eexists _, _, _, _. split; [reflexivity|]. split; [reflexivity|].
  split; [rewrite <- !app_assoc; reflexivity|]. repeat split; reflexivity.
Qed.

Lemma sync_report_accounting_witness :
  exists st',
    state_file (sync_documents demo_env [doc_a; doc_b; doc_c] empty_world).2 = Some st' /\
    length (failed_documents st') = 1.
Proof.
  edestruct (proj2 (sync_report_accounting demo_env [doc_a; doc_b; doc_c] empty_world))
    as (st' & Hst & _ & _ & _ & _ & _ & Hf).
  - vm_compute. reflexivity.
  - exists st'. split; [exact Hst|]. rewrite Hf. reflexivity.
Defined.

Lemma synced_documents_grow_witness :
  exists st',
    state_file (sync_documents demo_env [doc_a; doc_b; doc_c] empty_world).2 = Some st' /\
    size (synced_documents st') <= 2.
Proof.
  edestruct (proj2 (proj2 (synced_documents_grow demo_env [doc_a; doc_b; doc_c]
                             empty_world)))
    as (st' & Hst & _ & _ & _ & Hsize).
  - vm_compute. reflexivity.
  - exists st'. split; [exact Hst|]. exact Hsize.
Defined.

Lemma nothing_to_sync_witness :
  exists st',
    state_file (sync_documents demo_env [mk_doc (Some "X") (Some "x.exe") None]
                  empty_world).2 = Some st' /\
    failed_documents st' = [].
Proof.
  destruct (nothing_to_sync demo_env [mk_doc (Some "X") (Some "x.exe") None] empty_world)
    as (t0 & t1 & msg0 & msg1 & _ & Hst & _).
  - apply Forall_cons. split; [vm_compute; reflexivity | apply Forall_nil; exact I].
  - eexists. split; [exact Hst | reflexivity].
Defined.

(** ** Identifiers within one batch *)

(** Every character of the string satisfies [P]. *)
Fixpoint str_all (P : ascii -> bool) (s : string) : bool :=
  match s with
  | EmptyString => true
  | String c s' => P c && str_all P s'
  end.

Definition not_underscore (c : ascii) : bool := negb (Ascii.eqb c "_").

Lemma string_of_uint_digits d : str_all not_underscore (NilEmpty.string_of_uint d) = true.
Proof. induction d; simpl; auto. Qed.

Lemma str_of_int_digits (n : nat) : str_all not_underscore (str_of_int (Z.of_nat n)) = true.
Proof.
  unfold str_of_int. pose proof (Nat2Z.is_nonneg n) as Hn.
  destruct (Z.of_nat n) as [|p|p]; [reflexivity | | lia].
  cbn [Z.to_int NilZero.string_of_int]. unfold NilZero.string_of_uint.
  pose proof (string_of_uint_digits (Pos.to_uint p)) as Hd.
  destruct (Pos.to_uint p); try reflexivity; exact Hd.
Qed.

Lemma str_of_int_inj (a b : nat) : str_of_int (Z.of_nat a) = str_of_int (Z.of_nat b) -> a = b.
Proof.
  unfold str_of_int. intros H. apply Nat2Z.inj, DecimalZ.to_int_inj.
  assert (Hnn : forall n, exists u, Z.to_int (Z.of_nat n) = Decimal.Pos u /\ u <> Decimal.Nil).
  { intros n. pose proof (Nat2Z.is_nonneg n) as Hn.
    destruct (Z.of_nat n) as [|p|p]; cbn [Z.to_int]; [| |lia].
    - exists Decimal.zero. split; [reflexivity | discriminate].
    - eexists. split; [reflexivity | apply DecimalPos.Unsigned.to_uint_nonnil]. }
  destruct (Hnn a) as (ua & Ha & Hua), (Hnn b) as (ub & Hb & Hub).
  rewrite Ha, Hb in *. cbn [NilZero.string_of_int] in H.
  pose proof (NilZero.usu ua Hua) as H1. pose proof (NilZero.usu ub Hub) as H2.
  rewrite H in H1. congruence.
Qed.

(** Two strings free of underscores that are followed by an underscore in
    the same text are equal. *)
Lemma underscore_prefix_inj a b r1 r2 :
  str_all not_underscore a = true -> str_all not_underscore b = true ->
  a +:+ String "_" r1 = b +:+ String "_" r2 -> a = b.
Proof.
  revert b. induction a as [|c a IH]; intros [|c' b] Ha Hb H; simpl in *.
  - reflexivity.
  - injection H as <- _. discriminate.
  - injection H as -> _. discriminate.
  - injection H as <- H. apply andb_true_iff in Ha as [_ Ha], Hb as [_ Hb].
    f_equal. eapply IH; eassumption.
Qed.

Lemma store_id_position i j d1 d2 : store_id i d1 = store_id j d2 -> i = j.
Proof.
  unfold store_id. intros H. injection H as H.
  apply str_of_int_inj. eapply underscore_prefix_inj; [| |exact H];
    apply str_of_int_digits.
Qed.

Lemma store_ids_lookup docs i :
  store_ids docs !! i = store_id i <$> docs !! i.
Proof. unfold store_ids. apply list_lookup_imap. Qed.

Lemma store_ids_NoDup docs : NoDup (store_ids docs).
Proof.
  apply NoDup_alt. intros i j x. rewrite !store_ids_lookup.
  destruct (docs !! i) as [d1|]; [|discriminate].
  destruct (docs !! j) as [d2|]; [|discriminate].
  cbn [fmap option_fmap option_map]. intros Hx Hy.
  assert (H : store_id i d1 = store_id j d2) by congruence.
  eapply store_id_position, H.
Qed.

(** With distinct keys, the value written last under a key is the one
    paired with it. *)
Lemma last_write_NoDup {V} (ids : list string) (vs : list V) i k v :
  NoDup ids -> ids !! i = Some k -> vs !! i = Some v ->
  last_write k (zip ids vs) = Some v.
Proof.
  revert vs i. induction ids as [|k0 ids IH]; intros vs i Hnd Hk Hv; [discriminate|].
  apply NoDup_cons in Hnd as [Hnotin Hnd].
  destruct vs as [|v0 vs]; [discriminate|]. cbn [zip zip_with last_write].
  destruct i as [|i]; simpl in Hk, Hv.
  - injection Hk as ->. injection Hv as ->.
    assert (Hnone : last_write k (zip ids vs) = None).
    { clear -Hnotin. revert vs. induction ids as [|k1 ids IH]; intros vs; [reflexivity|].
      destruct vs as [|v1 vs]; [reflexivity|]. cbn [zip zip_with last_write].
      apply not_elem_of_cons in Hnotin as [Hne Hnotin].
      rewrite (IH Hnotin). destruct (String.eqb_spec k k1); [contradiction | reflexivity]. }
    rewrite Hnone, String.eqb_refl. reflexivity.
  - rewrite (IH vs i Hnd Hk Hv). reflexivity.
Qed.

Lemma last_write_keys {V} (ids : list string) (vs : list V) k v :
  last_write k (zip ids vs) = Some v -> k ∈ ids.
Proof.
  revert vs v. induction ids as [|k0 ids IH]; intros vs v; [discriminate|].
  destruct vs as [|v0 vs]; [discriminate|]. cbn [zip zip_with last_write].
  destruct (last_write k (zip ids vs)) eqn:Hl.
  - intros _. apply elem_of_cons. right. eapply IH, Hl.
  - destruct (String.eqb_spec k k0) as [->|]; [|discriminate].
    intros _. apply elem_of_cons. left. reflexivity.
Qed.

(** X4: The identifiers [VectorStore.add_documents] gives to the documents of
    one batch are pairwise distinct, so no document of the batch
    overwrites another: after the write every document is found under its
    identifier, and every other key of the store holds what it held. *)
Theorem store_ids_unique_in_batch (docs : list LangchainDocument)
    (db : gmap string LangchainDocument) :
  NoDup (store_ids docs) /\
  length (store_ids docs) = length docs /\
  (forall i doc, docs !! i = Some doc ->
     upsert_all (store_ids docs) docs db !! store_id i doc = Some doc) /\
  (forall k, k ∉ store_ids docs ->
     upsert_all (store_ids docs) docs db !! k = db !! k) /\
  size (upsert_all (store_ids docs) docs ∅) = length docs.
Proof.
  pose proof (store_ids_NoDup docs) as Hnd.
  assert (Hlen : length (store_ids docs) = length docs) by apply length_imap.
  assert (Hin : forall i doc, docs !! i = Some doc ->
            forall db0, upsert_all (store_ids docs) docs db0 !! store_id i doc = Some doc).
  { intros i doc Hd db0. unfold upsert_all. rewrite lookup_foldl_insert.
    rewrite (last_write_NoDup (store_ids docs) docs i (store_id i doc) doc Hnd);
      [reflexivity | | exact Hd].
    rewrite store_ids_lookup, Hd. reflexivity. }
  assert (Hout : forall k db0, k ∉ store_ids docs ->
            upsert_all (store_ids docs) docs db0 !! k = db0 !! k).
  { intros k db0 Hk. unfold upsert_all. rewrite lookup_foldl_insert.
    destruct (last_write k (zip (store_ids docs) docs)) eqn:Hl; [|reflexivity].
    exfalso. apply Hk. eapply last_write_keys, Hl. }
  split; [exact Hnd|]. split; [exact Hlen|]. split; [intros; apply Hin; assumption|].
  split; [intros; apply Hout; assumption|].
  rewrite <- Hlen, <- size_dom.
  assert (Hdom : dom (upsert_all (store_ids docs) docs ∅)
                 = list_to_set (store_ids docs)).
  { apply set_eq. intros k. rewrite elem_of_dom, elem_of_list_to_set. split.
    - intros [v Hv]. destruct (decide (k ∈ store_ids docs)) as [H|H]; [exact H|].
      rewrite Hout in Hv by exact H. rewrite lookup_empty in Hv. discriminate.
    - intros Hk. apply list_elem_of_lookup in Hk as [i Hi].
      rewrite store_ids_lookup in Hi.
      destruct (docs !! i) as [doc|] eqn:Hd; [|discriminate]. injection Hi as <-.
      exists doc. apply Hin, Hd. }
  rewrite Hdom. apply size_list_to_set, Hnd.
Qed.

(** ** What a failed attempt leaves behind *)

Lemma process_document_world E p w : (process_document E p w).2 = w.
Proof.
  unfold process_document, bind. pose proof (extract_text_world E p w) as H.
  destruct (extract_text E p w) as [[text|e] w1]; simpl in H; subst w1; [|reflexivity].
  destruct (negb _); reflexivity.
Qed.

(** The log lines of a failed attempt after the download request. *)
Definition download_failed_message (d : DocumentRecord) : string :=
  "Failed to download document " +:+ display_name d.

(** X5: When the download returns nothing, the attempt ends with the message
    ["Failed to download document <name>"]; nothing is extracted or
    unlinked, the vector store and the state file are as before, and the
    engine's own effects are the two log lines around the download
    request. *)
Theorem download_returns_nothing (E : Env) (d : DocumentRecord) (w : World) :
  api_download_document E (at_download E d w) (doc_id d) = Ok None ->
  (sync_document E d w).1 = Ok (false, Some (download_failed_message d)) /\
  trace (sync_document E d w).2 =
    trace w ++ [EvLog (isoformat_now E (clock w)) "INFO" (syncing_message d);
                EvDownload (doc_id d);
                EvLog (isoformat_now E (S (clock w))) "ERROR" (download_failed_message d)] /\
  vector_db (sync_document E d w).2 = vector_db w /\
  state_file (sync_document E d w).2 = state_file w.
Proof.
  intros Hd.
  assert (Heq : sync_document E d w =
    (Ok (false, Some (download_failed_message d)),
     emit_in (EvLog (isoformat_now E (S (clock w))) "ERROR" (download_failed_message d))
       (tick_in (emit_in (EvDownload (doc_id d)) (at_download E d w))))).
  { unfold sync_document, try_except, sync_document_try, at_download in *.
    unfold bind at 1. rewrite log_sync_activity_eq in *. cbn [snd] in Hd.
    unfold bind at 1. unfold api_download. rewrite Hd.
    unfold bind. rewrite log_sync_activity_eq. reflexivity. }
  rewrite Heq. unfold at_download. rewrite log_sync_activity_eq.
  cbn [fst snd trace vector_db temp_files state_file clock emit_in tick_in].
  split; [reflexivity|]. split; [rewrite <- !app_assoc; reflexivity|].
  repeat split; reflexivity.
Qed.

(** X6: When extraction or chunking raises [e] on the downloaded file, the
    attempt ends with the message ["Error syncing document <name>: e"];
    the vector store is as before, the downloaded file is unlinked, and
    the error is logged after the unlink. *)
Theorem processing_raises (E : Env) (d : DocumentRecord) (w : World) (p e : string) :
  api_download_document E (at_download E d w) (doc_id d) = Ok (Some p) ->
  nonempty p = true ->
  (process_document E p (downloaded E d p w)).1 = Raise e ->
  let msg := "Error syncing document " +:+ display_name d +:+ ": " +:+ e in
  (sync_document E d w).1 = Ok (false, Some msg) /\
  trace (sync_document E d w).2 =
    trace w ++ [EvLog (isoformat_now E (clock w)) "INFO" (syncing_message d);
                EvDownload (doc_id d);
                EvUnlink p;
                EvLog (isoformat_now E (S (clock w))) "ERROR" msg] /\
  vector_db (sync_document E d w).2 = vector_db w /\
  temp_files (sync_document E d w).2 = ({[p]} ∪ temp_files w) ∖ {[p]} /\
  state_file (sync_document E d w).2 = state_file w.
Proof.
  intros Hd Hp He. cbn zeta.
  set (msg := "Error syncing document " +:+ display_name d +:+ ": " +:+ e).
  set (w2 := downloaded E d p w).
  assert (Heq : sync_document E d w =
    (Ok (false, Some msg),
     emit_in (EvLog (isoformat_now E (clock w2)) "ERROR" msg)
       (tick_in (emit_in (EvUnlink p) (with_temp_files (temp_files w2 ∖ {[p]}) w2))))).
  { unfold sync_document, try_except.
    rewrite (sync_document_try_downloaded E d w p Hd Hp).
    unfold try_finally, process_and_index. unfold bind at 1. fold w2.
    pose proof (process_document_world E p w2) as Hw. fold w2 in He.
    destruct (process_document E p w2) as [r w1].
    cbn [fst snd] in He, Hw. subst r w1.
    unfold cleanup, bind, os_path_exists.
    rewrite bool_decide_eq_true_2
      by (unfold w2, downloaded; cbn [temp_files with_temp_files];
          apply elem_of_union_l, elem_of_singleton; reflexivity).
    unfold os_unlink, sync_document_except, bind. rewrite log_sync_activity_eq.
    reflexivity. }
  rewrite Heq. unfold w2, downloaded, at_download. rewrite log_sync_activity_eq.
  cbn [fst snd trace vector_db temp_files state_file clock emit_in tick_in with_temp_files].
  split; [reflexivity|]. split; [rewrite <- !app_assoc; reflexivity|].
  repeat split; reflexivity.
Qed.

(** Only the clock differs. *)
Definition only_clock (a b : World) : Prop :=
  vector_db b = vector_db a /\ temp_files b = temp_files a /\
  state_file b = state_file a /\ trace b = trace a.

Lemma only_clock_refl a : only_clock a a.
Proof. repeat split. Qed.

Lemma only_clock_trans a b c : only_clock a b -> only_clock b c -> only_clock a c.
Proof.
  intros (H1 & H2 & H3 & H4) (G1 & G2 & G3 & G4). repeat split; congruence.
Qed.

Lemma map_m_metadata_world E d name docs w :
  only_clock w (map_m (add_netdocuments_metadata E d name) docs w).2.
Proof.
  apply (preserves_map_m only_clock only_clock_refl only_clock_trans).
  intros x w0. repeat split.
Qed.

(** X7: When the vector store raises [e], the attempt ends with a message
    that carries the prefixes of the three layers the error went through,
    and the downloaded file is unlinked. *)
Theorem store_rejects (E : Env) (d : DocumentRecord) (w : World) (p e : string)
    (docs : list LangchainDocument) :
  rag_pipeline E = true ->
  api_download_document E (at_download E d w) (doc_id d) = Ok (Some p) ->
  nonempty p = true ->
  (process_document E p (downloaded E d p w)).1 = Ok docs ->
  (forall w2 tagged, chroma_add_documents E w2 tagged (store_ids tagged) = Raise e) ->
  (sync_document E d w).1 =
    Ok (false,
        Some ("Failed to add " +:+ display_name d +:+ " to knowledge base: "
                +:+ "Error adding documents: Error adding documents to vector store: "
                +:+ e)) /\
  p ∉ temp_files (sync_document E d w).2.
Proof.
  intros Hrag Hd Hp Hdocs Hch.
  set (w2 := downloaded E d p w) in *.
  destruct (map_m_metadata E d (name_or_default d) docs w2) as (docs' & w3 & Hm & _ & _).
  pose proof (map_m_metadata_world E d (name_or_default d) docs w2) as Hw3.
  rewrite Hm in Hw3. cbn [snd] in Hw3. destruct Hw3 as (Hdb & Htf & _).
  set (msg := "Failed to add " +:+ display_name d +:+ " to knowledge base: "
                +:+ "Error adding documents: Error adding documents to vector store: "
                +:+ e).
  set (w4 := emit_in (EvLog (isoformat_now E (clock w3)) "ERROR" msg) (tick_in w3)).
  assert (Heq : sync_document E d w =
    (Ok (false, Some msg),
     emit_in (EvUnlink p) (with_temp_files (temp_files w4 ∖ {[p]}) w4))).
  { unfold sync_document, try_except.
    rewrite (sync_document_try_downloaded E d w p Hd Hp).
    unfold try_finally, process_and_index. unfold bind at 1. fold w2.
    pose proof (process_document_world E p w2) as Hw.
    destruct (process_document E p w2) as [r w1].
    cbn [fst snd] in Hdocs, Hw. subst r w1.
    unfold bind at 1. rewrite Hm, Hrag. unfold bind at 1. unfold bind at 1.
    rewrite (rag_add_documents_caught E docs' w3 e (Hch w3 docs')).
    cbn [add_success negb add_message]. unfold bind at 1.
    rewrite log_sync_activity_eq. unfold ret at 1. unfold ret at 1.
    unfold cleanup, bind, os_path_exists.
    rewrite bool_decide_eq_true_2.
    - reflexivity.
    - unfold w4. cbn [temp_files emit_in tick_in]. rewrite Htf.
      unfold w2, downloaded. cbn [temp_files with_temp_files].
      apply elem_of_union_l, elem_of_singleton. reflexivity. }
  rewrite Heq. cbn [fst snd temp_files emit_in with_temp_files].
  split; [reflexivity|].
  intros [_ Hn]%elem_of_difference. apply Hn, elem_of_singleton. reflexivity.
Qed.

(** ** Provenance of the chunks of a synced document *)

(** The metadata keys [sync_document] sets on every chunk. *)
Definition provenance_keys : list string :=
  ["netdocuments_id"; "netdocuments_name"; "netdocuments_modified";
   "netdocuments_author"; "netdocuments_workspace"; "sync_date"].

(** [doc'] is [doc] with the provenance of [d] added: same content, the
    provenance keys set from the record, every other key as it was. *)
Definition tagged_copy (d : DocumentRecord) (doc doc' : LangchainDocument) : Prop :=
  page_content doc' = page_content doc /\
  metadata doc' !! "netdocuments_id" = Some (of_opt (doc_id d)) /\
  metadata doc' !! "netdocuments_name" = Some (of_opt (name_or_default d)) /\
  metadata doc' !! "netdocuments_modified" = Some (of_opt (doc_modified d)) /\
  metadata doc' !! "netdocuments_author" = Some (of_opt (doc_author d)) /\
  metadata doc' !! "netdocuments_workspace" = Some (of_opt (doc_workspace d)) /\
  (exists ts, metadata doc' !! "sync_date" = Some (PStr ts)) /\
  forall key, key ∉ provenance_keys -> metadata doc' !! key = metadata doc !! key.

Lemma map_m_tagged_copy E d docs :
  forall w docs' w',
    map_m (add_netdocuments_metadata E d (name_or_default d)) docs w = (Ok docs', w') ->
    Forall2 (tagged_copy d) docs docs'.
Proof.
  induction docs as [|doc docs IH]; intros w docs' w' H.
  - simpl in H. injection H as <- _. constructor.
  - cbn [map_m] in H. unfold bind at 1 in H. unfold add_netdocuments_metadata at 1 in H.
    unfold bind at 1 in H. unfold datetime_now at 1 in H. unfold ret at 1 in H.
    unfold bind at 1 in H.
    destruct (map_m (add_netdocuments_metadata E d (name_or_default d)) docs (tick_in w))
      as [[ys|e] w1] eqn:Hm; [|discriminate].
    unfold ret in H. injection H as <- _.
    constructor; [|eapply IH, Hm].
    unfold tagged_copy. cbn [page_content metadata].
    split; [reflexivity|].
    split; [rewrite !lookup_insert_ne by discriminate; apply lookup_insert_eq|].
    split; [rewrite !lookup_insert_ne by discriminate; apply lookup_insert_eq|].
    split; [rewrite !lookup_insert_ne by discriminate; apply lookup_insert_eq|].
    split; [rewrite !lookup_insert_ne by discriminate; apply lookup_insert_eq|].
    split; [rewrite !lookup_insert_ne by discriminate; apply lookup_insert_eq|].
    split; [eexists; apply lookup_insert_eq|].
    intros key Hkey. unfold provenance_keys in Hkey.
    repeat (apply not_elem_of_cons in Hkey as [? Hkey]).
    rewrite !lookup_insert_ne by congruence. reflexivity.
Qed.

Lemma tagged_copy_store_ids d docs docs' :
  Forall2 (tagged_copy d) docs docs' -> store_ids docs' = store_ids docs.
Proof.
  intros H. apply list_eq. intros i. rewrite !store_ids_lookup.
  destruct (docs !! i) as [doc|] eqn:Hd.
  - destruct (Forall2_lookup_l _ _ _ _ _ H Hd) as (doc' & Hd' & Ht). rewrite Hd'.
    cbn [fmap option_fmap option_map]. f_equal. unfold store_id.
    destruct Ht as (_ & _ & _ & _ & _ & _ & _ & Hkeep).
    rewrite (Hkeep "source"), (Hkeep "chunk_id"); [reflexivity| |];
      unfold provenance_keys; rewrite !not_elem_of_cons;
      repeat split; try discriminate; apply not_elem_of_nil.
  - destruct (docs' !! i) as [doc'|] eqn:Hd'; [|reflexivity].
    destruct (Forall2_lookup_r _ _ _ _ _ H Hd') as (doc & Hd2 & _). congruence.
Qed.

Lemma rag_add_documents_stored E docs w :
  chroma_add_documents E w docs (store_ids docs) = Ok tt ->
  exists r,
    rag_add_documents E docs w =
      (Ok r, emit_in (EvUpsert (store_ids docs))
               (with_vector_db (upsert_all (store_ids docs) docs (vector_db w)) w)) /\
    add_success r = true /\ add_document_ids r = store_ids docs /\
    add_document_count r = length docs.
Proof.
  intros H.
  unfold rag_add_documents, vector_store_add_documents, try_except, bind, chroma_add.
  rewrite H. eexists. split; [reflexivity|]. repeat split.
Qed.

(** X8: When a document is downloaded, processed and accepted by the store,
    the store holds, under the identifiers of the untagged chunks, the
    chunks with the provenance of the record added: content and every
    other metadata key are those the processor produced.  The name added
    is the name of the record, [document_<id>] for a record without a
    name, and [None] for a record whose name is null. *)
Theorem synced_chunks_carry_provenance (E : Env) (d : DocumentRecord) (w : World)
    (p : string) (docs : list LangchainDocument) :
  rag_pipeline E = true ->
  api_download_document E (at_download E d w) (doc_id d) = Ok (Some p) ->
  nonempty p = true ->
  (process_document E p (downloaded E d p w)).1 = Ok docs ->
  indexes E d ->
  exists tagged_docs,
    (sync_document E d w).1 = Ok (true, None) /\
    Forall2 (tagged_copy d) docs tagged_docs /\
    store_ids tagged_docs = store_ids docs /\
    vector_db (sync_document E d w).2
      = upsert_all (store_ids docs) tagged_docs (vector_db w) /\
    exists before after,
      trace (sync_document E d w).2
        = trace w ++ before ++ [EvUpsert (store_ids docs)] ++ after.
Proof.
  intros Hrag Hd Hp Hdocs Hidx.
  set (w2 := downloaded E d p w) in *.
  destruct (map_m_metadata E d (name_or_default d) docs w2) as (docs' & w3 & Hm & Htag & _).
  pose proof (map_m_metadata_world E d (name_or_default d) docs w2) as Hw3.
  rewrite Hm in Hw3. cbn [snd] in Hw3. destruct Hw3 as (Hdb & Htf & _ & Htr).
  pose proof (map_m_tagged_copy E d docs w2 docs' w3 Hm) as Hcopy.
  pose proof (tagged_copy_store_ids d docs docs' Hcopy) as Hids.
  destruct (rag_add_documents_stored E docs' w3 (Hidx Hrag w3 docs' Htag))
    as (r & Hr & Hsucc & _).
  set (w4 := emit_in (EvUpsert (store_ids docs'))
               (with_vector_db (upsert_all (store_ids docs') docs' (vector_db w3)) w3)) in *.
  set (msg := "Successfully synced " +:+ display_name d +:+ " ("
                +:+ str_of_int (Z.of_nat (length docs')) +:+ " chunks)").
  set (w5 := emit_in (EvLog (isoformat_now E (clock w4)) "INFO" msg) (tick_in w4)).
  assert (Heq : sync_document E d w =
    (Ok (true, None),
     emit_in (EvUnlink p) (with_temp_files (temp_files w5 ∖ {[p]}) w5))).
  { unfold sync_document, try_except.
    rewrite (sync_document_try_downloaded E d w p Hd Hp).
    unfold try_finally, process_and_index. unfold bind at 1. fold w2.
    pose proof (process_document_world E p w2) as Hw.
    destruct (process_document E p w2) as [r0 w1].
    cbn [fst snd] in Hdocs, Hw. subst r0 w1.
    unfold bind at 1. rewrite Hm, Hrag. unfold bind at 1. unfold bind at 1.
    rewrite Hr, Hsucc. cbn [negb]. unfold ret at 1. unfold bind at 1.
    rewrite log_sync_activity_eq. unfold ret at 1.
    unfold cleanup, bind, os_path_exists.
    rewrite bool_decide_eq_true_2.
    - reflexivity.
    - unfold w5, w4. cbn [temp_files emit_in tick_in with_vector_db]. rewrite Htf.
      unfold w2, downloaded. cbn [temp_files with_temp_files].
      apply elem_of_union_l, elem_of_singleton. reflexivity. }
  exists docs'. rewrite Heq.
  cbn [fst snd vector_db trace emit_in with_temp_files].
  split; [reflexivity|]. split; [exact Hcopy|]. split; [exact Hids|].
  split.
  - unfold w5, w4. cbn [vector_db emit_in tick_in with_vector_db]. rewrite Hdb, Hids.
    unfold w2, downloaded, at_download. rewrite log_sync_activity_eq. reflexivity.
  - exists [EvLog (isoformat_now E (clock w)) "INFO" (syncing_message d);
            EvDownload (doc_id d)],
           [EvLog (isoformat_now E (clock w4)) "INFO" msg; EvUnlink p].
    unfold w5. cbn [trace emit_in tick_in]. unfold w4 at 1.
    cbn [trace emit_in with_vector_db]. rewrite Htr, Hids.
    unfold w2, downloaded, at_download. rewrite log_sync_activity_eq.
    cbn [snd trace emit_in tick_in with_temp_files]. rewrite <- !app_assoc. reflexivity.
Qed.

(** ** Errors of one document *)

(** An exception of [process_document] leaves the inner [try] after the
    cleanup and is caught by the outer one. *)
Lemma sync_document_try_processing_raises E d w p e :
  api_download_document E (at_download E d w) (doc_id d) = Ok (Some p) ->
  nonempty p = true ->
  (process_document E p (downloaded E d p w)).1 = Raise e ->
  (sync_document_try E d w).1 = Raise e.
Proof.
  intros Hd Hp He. rewrite (sync_document_try_downloaded E d w p Hd Hp).
  unfold try_finally, process_and_index. unfold bind at 1.
  destruct (process_document E p (downloaded E d p w)) as [r w1].
  cbn [fst] in He. subst r.
  destruct (cleanup_ok p w1) as [w2 ->]. reflexivity.
Qed.

(** An exception of the store ends the attempt with the message of the
    three layers it went through. *)
Lemma sync_document_store_raises E d w p e docs :
  rag_pipeline E = true ->
  api_download_document E (at_download E d w) (doc_id d) = Ok (Some p) ->
  nonempty p = true ->
  (process_document E p (downloaded E d p w)).1 = Ok docs ->
  (forall w3 tagged_docs,
      Forall2 (tagged_copy d) docs tagged_docs ->
      chroma_add_documents E w3 tagged_docs (store_ids tagged_docs) = Raise e) ->
  (sync_document E d w).1 =
    Ok (false,
        Some ("Failed to add " +:+ display_name d +:+ " to knowledge base: "
                +:+ "Error adding documents: Error adding documents to vector store: "
                +:+ e)).
Proof.
  intros Hrag Hd Hp Hdocs Hch.
  set (w2 := downloaded E d p w) in *.
  destruct (map_m_metadata E d (name_or_default d) docs w2) as (docs' & w3 & Hm & _ & _).
  pose proof (map_m_tagged_copy E d docs w2 docs' w3 Hm) as Hcopy.
  unfold sync_document, try_except.
  rewrite (sync_document_try_downloaded E d w p Hd Hp).
  unfold try_finally, process_and_index. unfold bind at 1. fold w2.
  pose proof (process_document_world E p w2) as Hw.
  destruct (process_document E p w2) as [r w1].
  cbn [fst snd] in Hdocs, Hw. subst r w1.
  unfold bind at 1. rewrite Hm, Hrag. unfold bind at 1. unfold bind at 1.
  rewrite (rag_add_documents_caught E docs' w3 e (Hch w3 docs' Hcopy)).
  cbn [add_success negb add_message]. unfold bind at 1.
  rewrite log_sync_activity_eq. unfold ret at 1. unfold ret at 1.
  destruct (cleanup_ok p (emit_in
              (EvLog (isoformat_now E (clock w3)) "ERROR"
                 ("Failed to add " +:+ display_name d +:+ " to knowledge base: "
                    +:+ "Error adding documents: Error adding documents to vector store: "
                    +:+ e)) (tick_in w3))) as [w5 Hclean].
  rewrite Hclean. reflexivity.
Qed.

(** X29: Whatever the collaborators do, [sync_document] returns
    [(True, None)] or [(False, message)] and the iteration for an
    eligible document returns.  An exception of the download, an
    exception of the extraction, the refusal of a text that holds
    whitespace only, any other exception of [process_document], and an
    exception of the store upsert each end the iteration with one more
    failure entry, which holds the id and the name of the record and the
    message of the exception behind the prefix of the layer that caught
    it; [failed_count] is one more, and the state and [synced_count] are
    as they were. *)
Theorem per_document_errors_contained (E : Env) (vars : LoopVars) (d : DocumentRecord)
    (w : World) :
  should_sync_document d (v_sync_state vars) = Ok true ->
  let failed := fun msg : string =>
    exists w',
      sync_step E vars d w =
        (Ok {| v_sync_state := v_sync_state vars;
               v_synced_count := v_synced_count vars;
               v_failed_count := v_failed_count vars + 1;
               v_failed_docs :=
                 v_failed_docs vars ++
                   [{| failure_id := doc_id d; failure_name := get (doc_name d);
                       failure_error := Some msg |}] |}, w') in
  (exists r w', sync_document E d w = (Ok r, w') /\ outcome_ok r) /\
  (exists vars' w', sync_step E vars d w = (Ok vars', w')) /\
  (forall e,
      api_download_document E (at_download E d w) (doc_id d) = Raise e ->
      failed ("Error syncing document " +:+ display_name d +:+ ": " +:+ e)) /\
  (forall p,
      api_download_document E (at_download E d w) (doc_id d) = Ok (Some p) ->
      nonempty p = true ->
      let w2 := downloaded E d p w in
      (forall e,
          (extract_text E p w2).1 = Raise e ->
          failed ("Error syncing document " +:+ display_name d +:+ ": " +:+ e)) /\
      (forall text,
          (extract_text E p w2).1 = Ok text ->
          forallb is_space text = true ->
          failed ("Error syncing document " +:+ display_name d
                    +:+ ": No text could be extracted from " +:+ p)) /\
      (forall e,
          (process_document E p w2).1 = Raise e ->
          failed ("Error syncing document " +:+ display_name d +:+ ": " +:+ e)) /\
      (forall docs e,
          rag_pipeline E = true ->
          (process_document E p w2).1 = Ok docs ->
          (forall w3 tagged_docs,
              Forall2 (tagged_copy d) docs tagged_docs ->
              chroma_add_documents E w3 tagged_docs (store_ids tagged_docs) = Raise e) ->
          failed ("Failed to add " +:+ display_name d +:+ " to knowledge base: "
                    +:+ "Error adding documents: Error adding documents to vector store: "
                    +:+ e))).
Proof.
  intros Hel. cbn zeta.
  assert (Hfailed : forall msg,
            (sync_document E d w).1 = Ok (false, Some msg) ->
            exists w', sync_step E vars d w = (Ok (vars_failed vars d msg), w')).
  { intros msg Hs. destruct (sync_document E d w) as [r w'] eqn:Hsd.
    cbn [fst] in Hs. subst r. exists w'.
    apply (sync_step_failed _ _ _ _ _ _ Hel Hsd). }
  assert (Hprocess : forall p e,
            api_download_document E (at_download E d w) (doc_id d) = Ok (Some p) ->
            nonempty p = true ->
            (process_document E p (downloaded E d p w)).1 = Raise e ->
            exists w', sync_step E vars d w
                       = (Ok (vars_failed vars d
                                ("Error syncing document " +:+ display_name d
                                   +:+ ": " +:+ e)), w')).
  { intros p e Hd Hp He. apply Hfailed, sync_document_caught.
    apply (sync_document_try_processing_raises E d w p e Hd Hp He). }
  split.
  { destruct (total_sync_document E d w) as (r & w' & H).
    exists r, w'. split; [exact H|]. eapply returns_outcome_sync_document, H. }
  split.
  { apply returns_sync_step. eauto. }
  split.
  { intros e Hd. apply Hfailed, sync_document_caught.
    unfold sync_document_try, at_download in *. unfold bind at 1.
    rewrite log_sync_activity_eq in *. cbn [snd] in Hd.
    unfold bind at 1. unfold api_download. rewrite Hd. reflexivity. }
  intros p Hd Hp. split; [|split; [|split]].
  - intros e He. apply (Hprocess p e Hd Hp).
    unfold process_document, bind.
    destruct (extract_text E p (downloaded E d p w)) as [r w1].
    cbn [fst] in He. subst r. reflexivity.
  - intros text Hx Hblank. apply (Hprocess p _ Hd Hp).
    unfold process_document, bind.
    destruct (extract_text E p (downloaded E d p w)) as [r w1].
    cbn [fst] in Hx. subst r.
    apply strip_nil_iff in Hblank. rewrite Hblank. reflexivity.
  - intros e He. apply (Hprocess p e Hd Hp He).
  - intros docs e Hrag Hdocs Hch. apply Hfailed.
    apply (sync_document_store_raises E d w p e docs Hrag Hd Hp Hdocs Hch).
Qed.

(** * Discovery, wrappers and statistics of [NetDocumentsSync] *)

(** A cabinet, workspace or folder as the remote source lists it, read
    with [.get("id")] and [.get("name", default)]. *)
Record Container := {
  c_id : option string;
  c_name : option string
}.

(** The dictionary returned by [NetDocumentsAPI.get_connection_status]. *)
Record ConnectionStatus := {
  connected : bool;
  conn_user : option string;
  conn_email : option string;
  conn_base_url : option string;
  conn_error : option string
}.

(** The listing methods of the remote source client; each may answer or
    raise. *)
Record Api := {
  search_documents : World -> string -> option string -> Z -> result (list DocumentRecord);
  get_recent_documents : World -> Z -> Z -> result (list DocumentRecord);
  get_folder_documents : World -> string -> result (list DocumentRecord);
  get_cabinets : World -> result (list Container);
  list_workspaces : World -> option string -> result (list Container);
  list_folders : World -> option string -> result (list Container);
  get_connection_status : World -> result ConnectionStatus
}.

(** A call of a collaborator that has no effect of its own on the world. *)
Definition call {A} (f : World -> result A) : M A := fun w => (f w, w).

(** [[x for x in l if test(x)]] for a test that may raise: the elements
    are tested in order and the first exception ends the comprehension. *)
Fixpoint filter_r {A} (test : A -> result bool) (l : list A) : result (list A) :=
  match l with
  | [] => Ok []
  | x :: l' =>
      match test x with
      | Raise e => Raise e
      | Ok b =>
          match filter_r test l' with
          | Raise e => Raise e
          | Ok kept => Ok (if b then x :: kept else kept)
          end
      end
  end.

(** The dictionary the wrappers return when the listing failed. *)
Record ErrorReport := {
  err_success : bool;
  err_error : string;
  err_synced_count : nat;
  err_failed_count : nat
}.

(** The dictionary returned by [get_sync_statistics]. *)
Record SyncStatistics := {
  stat_last_sync : option string;
  stat_total_synced : nat;
  stat_failed_documents : nat;
  stat_connection_status : ConnectionStatus
}.

(** The values of [get_cabinet_structure]; the keys are the ids as read
    with [.get("id")]. *)
Record FolderNode := { fn_name : string }.

Record WorkspaceNode := {
  ws_name : string;
  ws_folders : gmap (option string) FolderNode
}.

Record CabinetNode := {
  cab_name : string;
  cab_workspaces : gmap (option string) WorkspaceNode
}.

Section Service.

Variable E : Env.
Variable A : Api.

Definition discover_documents (search_query : string) (max_results : Z)
    (cabinet_id : option string) : M (list DocumentRecord) :=
  try_except
    (log_sync_activity E ("Discovering documents with query: " +:+ search_query) "INFO" ;;;
     documents <- call (fun w => search_documents A w search_query cabinet_id max_results) ;;
     supported_docs <- lift (filter_r is_document_supported documents) ;;
     log_sync_activity E
       ("Found " +:+ str_of_int (Z.of_nat (length supported_docs))
          +:+ " supported documents out of "
          +:+ str_of_int (Z.of_nat (length documents)) +:+ " total") "INFO" ;;;
     ret supported_docs)
    (fun e =>
       log_sync_activity E ("Error discovering documents: " +:+ e) "ERROR" ;;;
       ret []).

Definition aborted (error_msg : string) : ErrorReport :=
  {| err_success := false; err_error := error_msg;
     err_synced_count := 0; err_failed_count := 0 |}.

Definition sync_recent_documents (days max_results : Z) : M (SyncReport + ErrorReport) :=
  try_except
    (log_sync_activity E
       ("Starting sync of documents modified in last " +:+ str_of_int days +:+ " days")
       "INFO" ;;;
     recent_docs <- call (fun w => get_recent_documents A w days max_results) ;;
     r <- sync_documents E recent_docs ;;
     ret (inl r))
    (fun e =>
       let error_msg := "Error syncing recent documents: " +:+ e in
       log_sync_activity E error_msg "ERROR" ;;;
       ret (inr (aborted error_msg))).

Definition sync_folder (folder_id : string) : M (SyncReport + ErrorReport) :=
  try_except
    (log_sync_activity E ("Syncing folder: " +:+ folder_id) "INFO" ;;;
     documents <- call (fun w => get_folder_documents A w folder_id) ;;
     r <- sync_documents E documents ;;
     ret (inl r))
    (fun e =>
       let error_msg := "Error syncing folder " +:+ folder_id +:+ ": " +:+ e in
       log_sync_activity E error_msg "ERROR" ;;;
       ret (inr (aborted error_msg))).

Definition get_sync_statistics : M SyncStatistics :=
  sync_state <- get_sync_state ;;
  status <- call (get_connection_status A) ;;
  ret {| stat_last_sync := last_sync sync_state;
         stat_total_synced := size (synced_documents sync_state);
         stat_failed_documents := length (failed_documents sync_state);
         stat_connection_status := status |}.

(** [cabinet.get("name", f"Cabinet {cabinet_id}")] and the like. *)
Definition container_name (kind : string) (c : Container) : string :=
  default (kind +:+ " " +:+ fmt (c_id c)) (c_name c).

(** [structure[cabinet_id]["workspaces"][workspace_id] = node]. *)
Definition set_workspace (cabinet_id workspace_id : option string) (node : WorkspaceNode)
    (structure : gmap (option string) CabinetNode) : gmap (option string) CabinetNode :=
  alter (fun cab => {| cab_name := cab_name cab;
                       cab_workspaces := <[workspace_id := node]> (cab_workspaces cab) |})
        cabinet_id structure.

(** [structure[cabinet_id]["workspaces"][workspace_id]["folders"][folder_id]
    = node]. *)
Definition set_folder (cabinet_id workspace_id folder_id : option string)
    (node : FolderNode) (structure : gmap (option string) CabinetNode)
    : gmap (option string) CabinetNode :=
  alter (fun cab =>
           {| cab_name := cab_name cab;
              cab_workspaces :=
                alter (fun ws => {| ws_name := ws_name ws;
                                    ws_folders := <[folder_id := node]> (ws_folders ws) |})
                      workspace_id (cab_workspaces cab) |})
        cabinet_id structure.

(** The loop over [folders[:10]]. *)
Definition add_folders (cabinet_id workspace_id : option string) (folders : list Container)
    (structure : gmap (option string) CabinetNode) : gmap (option string) CabinetNode :=
  foldl (fun acc folder =>
           set_folder cabinet_id workspace_id (c_id folder)
             {| fn_name := container_name "Folder" folder |} acc)
        structure (take 10 folders).

(** One iteration of the loop over the workspaces of a cabinet. *)
Definition add_workspace (cabinet_id : option string)
    (structure : gmap (option string) CabinetNode) (workspace : Container)
    : M (gmap (option string) CabinetNode) :=
  let workspace_id := c_id workspace in
  let workspace_name := container_name "Workspace" workspace in
  let structure :=
    set_workspace cabinet_id workspace_id
      {| ws_name := workspace_name; ws_folders := ∅ |} structure in
  try_except
    (folders <- call (fun w => list_folders A w workspace_id) ;;
     ret (add_folders cabinet_id workspace_id folders structure))
    (fun e =>
       log_sync_activity E
         ("Error getting folders for workspace " +:+ workspace_name +:+ ": " +:+ e)
         "WARNING" ;;;
       ret structure).

(** One iteration of the loop over the cabinets. *)
Definition add_cabinet (structure : gmap (option string) CabinetNode) (cabinet : Container)
    : M (gmap (option string) CabinetNode) :=
  let cabinet_id := c_id cabinet in
  let structure :=
    <[cabinet_id := {| cab_name := container_name "Cabinet" cabinet;
                       cab_workspaces := ∅ |}]> structure in
  workspaces <- call (fun w => list_workspaces A w cabinet_id) ;;
  for_each (add_workspace cabinet_id) workspaces structure.

Definition get_cabinet_structure : M (gmap (option string) CabinetNode) :=
  try_except
    (cabinets <- call (get_cabinets A) ;;
     for_each add_cabinet cabinets ∅)
    (fun e =>
       log_sync_activity E ("Error getting cabinet structure: " +:+ e) "ERROR" ;;;
       ret ∅).

End Service.

(** ** Discovery *)

(** The world after one log line. *)
Definition logged (E : Env) (level message : string) (w : World) : World :=
  emit_in (EvLog (isoformat_now E (clock w)) level message) (tick_in w).

(** Whether the type check returned [True]. *)
Definition supported (d : DocumentRecord) : bool :=
  match is_document_supported d with
  | Ok b => b
  | Raise _ => false
  end.

Lemma supported_true d : supported d = true <-> is_document_supported d = Ok true.
Proof.
  unfold supported. destruct (is_document_supported d) as [[|]|e]; split;
    congruence.
Qed.

(** The comprehension over records none of which has a null name is the
    filter by type; with a null name among them it raises. *)
Lemma filter_r_supported (l : list DocumentRecord) :
  (Forall (fun d => doc_name d <> Null) l /\
   filter_r is_document_supported l = Ok (List.filter supported l)) \/
  (~ Forall (fun d => doc_name d <> Null) l /\
   filter_r is_document_supported l = Raise path_type_error).
Proof.
  induction l as [|d l IH]; cbn [filter_r List.filter].
  - left. split; [constructor | reflexivity].
  - unfold supported at 1.
    destruct (is_document_supported d) as [b|e] eqn:Hd.
    + assert (Hn : doc_name d <> Null).
      { intros Hn. unfold is_document_supported in Hd. rewrite Hn in Hd. discriminate. }
      destruct IH as [[Hl ->] | [Hl ->]].
      * left. split; [constructor; assumption | reflexivity].
      * right. split; [|reflexivity]. intros [_ H]%Forall_cons. contradiction.
    + apply is_document_supported_raises in Hd. destruct Hd as [Hn ->].
      right. split; [|reflexivity]. intros [Hd _]%Forall_cons. contradiction.
Qed.

Lemma filter_supported_Forall (l : list DocumentRecord) :
  Forall (fun d => is_document_supported d = Ok true) (List.filter supported l).
Proof.
  induction l as [|d l IH]; simpl; [constructor|].
  destruct (supported d) eqn:Hd; [|exact IH].
  constructor; [apply supported_true, Hd | exact IH].
Qed.

Lemma discover_documents_eq E A q m c w :
  let w1 := logged E "INFO" ("Discovering documents with query: " +:+ q) w in
  discover_documents E A q m c w =
  match search_documents A w1 q c m with
  | Ok found =>
      match filter_r is_document_supported found with
      | Ok supported_docs =>
          (Ok supported_docs,
           logged E "INFO"
             ("Found " +:+ str_of_int (Z.of_nat (length supported_docs))
                +:+ " supported documents out of "
                +:+ str_of_int (Z.of_nat (length found)) +:+ " total") w1)
      | Raise e =>
          (Ok [], logged E "ERROR" ("Error discovering documents: " +:+ e) w1)
      end
  | Raise e => (Ok [], logged E "ERROR" ("Error discovering documents: " +:+ e) w1)
  end.
Proof.
  cbn zeta. unfold discover_documents, try_except. unfold bind at 1.
  rewrite log_sync_activity_eq. unfold bind at 1. unfold call. fold (logged E "INFO"
    ("Discovering documents with query: " +:+ q) w).
  destruct (search_documents A _ q c m) as [found|e].
  - unfold bind at 1. unfold lift.
    destruct (filter_r is_document_supported found) as [kept|e].
    + unfold bind. rewrite log_sync_activity_eq. reflexivity.
    + unfold bind. rewrite log_sync_activity_eq. reflexivity.
  - unfold bind. rewrite log_sync_activity_eq. reflexivity.
Qed.

(** X9: [discover_documents] never raises and its only effects are two log
    lines.  When the search answers with records none of which has a null
    name, it returns those of a supported type, in their order.  When the
    search raises, or when a record it answered has a null name (the type
    check then raises [TypeError] inside the [try]), it returns the empty
    list and logs the error.  Every document it returns is of a supported
    type. *)
Theorem discover_documents_result (E : Env) (A : Api) (q : string) (m : Z)
    (c : option string) (w : World) :
  let w1 := logged E "INFO" ("Discovering documents with query: " +:+ q) w in
  let w' := (discover_documents E A q m c w).2 in
  exists docs,
    (discover_documents E A q m c w).1 = Ok docs /\
    Forall (fun d => is_document_supported d = Ok true) docs /\
    match search_documents A w1 q c m with
    | Ok found =>
        (Forall (fun d => doc_name d <> Null) found ->
         docs = List.filter supported found /\
         trace w' = trace w1 ++ [EvLog (isoformat_now E (clock w1)) "INFO"
                                   ("Found " +:+ str_of_int (Z.of_nat (length docs))
                                      +:+ " supported documents out of "
                                      +:+ str_of_int (Z.of_nat (length found))
                                      +:+ " total")]) /\
        (~ Forall (fun d => doc_name d <> Null) found ->
         docs = [] /\
         trace w' = trace w1 ++ [EvLog (isoformat_now E (clock w1)) "ERROR"
                                   ("Error discovering documents: "
                                      +:+ path_type_error)])
    | Raise e =>
        docs = [] /\
        trace w' = trace w1 ++ [EvLog (isoformat_now E (clock w1)) "ERROR"
                                  ("Error discovering documents: " +:+ e)]
    end /\
    state_file w' = state_file w /\ vector_db w' = vector_db w /\
    temp_files w' = temp_files w.
Proof.
  cbn zeta. rewrite discover_documents_eq. cbn zeta.
  destruct (search_documents A _ q c m) as [found|e]; cbn [fst snd].
  - destruct (filter_r_supported found) as [[Hall ->] | [Hnot ->]]; cbn [fst snd].
    + exists (List.filter supported found). split; [reflexivity|].
      split; [apply filter_supported_Forall|].
      split; [|repeat split].
      split; [intros _; split; reflexivity | intros H; contradiction].
    + exists []. split; [reflexivity|]. split; [constructor|].
      split; [|repeat split].
      split; [intros H; contradiction | intros _; split; reflexivity].
  - exists []. split; [reflexivity|]. split; [constructor|].
    split; [split; reflexivity|]. repeat split.
Qed.

Lemma discover_documents_result_witness :
  (discover_documents demo_env
     {| search_documents := fun _ _ _ _ => Ok [doc_a; doc_null];
        get_recent_documents := fun _ _ _ => Ok [];
        get_folder_documents := fun _ _ => Ok [];
        get_cabinets := fun _ => Ok [];
        list_workspaces := fun _ _ => Ok [];
        list_folders := fun _ _ => Ok [];
        get_connection_status := fun _ => Raise "offline" |}
     "*" 100 None empty_world).1 = Ok [].
Proof.
  set (A := {| search_documents := fun _ _ _ _ => Ok [doc_a; doc_null];
               get_recent_documents := fun _ _ _ => Ok [];
               get_folder_documents := fun _ _ => Ok [];
               get_cabinets := fun _ => Ok [];
               list_workspaces := fun _ _ => Ok [];
               list_folders := fun _ _ => Ok [];
               get_connection_status := fun _ => Raise "offline" |}).
  destruct (discover_documents_result demo_env A "*" 100 None empty_world)
    as (docs & Hrun & _ & Hcases & _).
  cbn [search_documents A] in Hcases. destruct Hcases as [_ Hbad].
  destruct Hbad as [-> _]; [|exact Hrun].
  intros H. apply Forall_cons in H as [_ H]. apply Forall_cons in H as [H _].
  apply H. reflexivity.
Defined.

(** X10: For a document that [discover_documents] returned, the type check of
    the eligibility decision is redundant: it is skipped only when its id
    is missing or empty or when the state is up to date for it. *)
Theorem discovered_documents_eligibility (E : Env) (A : Api) (q : string) (m : Z)
    (c : option string) (w : World) (docs : list DocumentRecord) (d : DocumentRecord)
    (st : SyncState) :
  (discover_documents E A q m c w).1 = Ok docs ->
  d ∈ docs ->
  (should_sync_document d st = Ok false <->
     truthy (doc_id d) = false \/ up_to_date (synced_documents st) d).
Proof.
  intros Hrun Hd.
  assert (Hs : is_document_supported d = Ok true).
  { rewrite discover_documents_eq in Hrun. cbn zeta in Hrun.
    destruct (search_documents A _ q c m) as [found|e]; cbn [fst] in Hrun;
      [|injection Hrun as <-; inversion Hd].
    destruct (filter_r_supported found) as [[_ Hf] | [_ Hf]]; rewrite Hf in Hrun;
      cbn [fst] in Hrun; injection Hrun as <-; [|inversion Hd].
    pose proof (filter_supported_Forall found) as Hall.
    rewrite Forall_forall in Hall. apply Hall, Hd. }
  assert (Hn : doc_name d <> Null).
  { intros Hn. unfold is_document_supported in Hs. rewrite Hn in Hs. discriminate. }
  split.
  - unfold should_sync_document, truthy. rewrite Hs.
    destruct (doc_id d) as [k|] eqn:Hk; [|auto].
    destruct (nonempty k) eqn:Hne; [|auto]. cbn [negb].
    destruct (synced_documents st !! k) as [entry|] eqn:He; [|discriminate].
    destruct (doc_modified d) as [lm|] eqn:Hlm; [|discriminate].
    destruct (entry_modified entry) as [lsm|] eqn:Hlsm; [|discriminate].
    destruct (nonempty lm) eqn:N1; [|discriminate].
    destruct (nonempty lsm) eqn:N2; [|discriminate].
    cbn [andb]. intros [= Hgt]. right. exists k, entry, lm, lsm. auto 10.
  - intros [Hid | Hup]; [|apply up_to_date_skipped; assumption].
    unfold should_sync_document. unfold truthy in Hid.
    destruct (doc_id d) as [k|]; [|reflexivity]. rewrite Hid. reflexivity.
Qed.

(** ** The wrappers around a batch *)

(** The shape shared by [sync_recent_documents] and [sync_folder]. *)
Lemma sync_listing_eq E (start_msg : string) (listing : World -> result (list DocumentRecord))
    (error_msg : string -> string) (w : World) :
  let w1 := logged E "INFO" start_msg w in
  try_except
    (log_sync_activity E start_msg "INFO" ;;;
     docs <- call listing ;;
     r <- sync_documents E docs ;;
     ret (inl r))
    (fun e =>
       log_sync_activity E (error_msg e) "ERROR" ;;;
       ret (inr (aborted (error_msg e)))) w
  = match listing w1 with
    | Ok docs =>
        match (sync_documents E docs w1).1 with
        | Ok r => (Ok (inl r), (sync_documents E docs w1).2)
        | Raise e => (Ok (inr (aborted (error_msg e))),
                      logged E "ERROR" (error_msg e) (sync_documents E docs w1).2)
        end
    | Raise e => (Ok (inr (aborted (error_msg e))), logged E "ERROR" (error_msg e) w1)
    end.
Proof.
  cbn zeta. unfold try_except. unfold bind at 1. rewrite log_sync_activity_eq.
  unfold bind at 1. unfold call. fold (logged E "INFO" start_msg w).
  destruct (listing _) as [docs|e].
  - unfold bind at 1. destruct (sync_documents E docs _) as [[r|e] w2]; cbn [fst snd].
    + reflexivity.
    + unfold bind. rewrite log_sync_activity_eq. reflexivity.
  - unfold bind. rewrite log_sync_activity_eq. reflexivity.
Qed.

(** What a wrapper returns, given what the listing answered in the world
    after the first log line [w1].  When the listing answered, the batch
    over the listed documents is run from [w1]: if every record can be
    checked the result is its report; otherwise the batch raises the
    [TypeError] of the type check and the result is an error report with
    zero counts, the state file is not written, and the store is as the
    interrupted batch left it.  When the listing raised, the result is an
    error report with zero counts, and neither the state file nor the
    store is touched. *)
Definition wrapper_result (E : Env) (w1 : World)
    (listed : result (list DocumentRecord)) (error_msg : string -> string)
    (res : SyncReport + ErrorReport) (w' : World) : Prop :=
  match listed with
  | Ok docs =>
      let batch := sync_documents E docs w1 in
      (Forall (fun d => checkable d = true) docs ->
       exists r, batch.1 = Ok r /\ res = inl r /\ w' = batch.2) /\
      (~ Forall (fun d => checkable d = true) docs ->
       batch.1 = Raise path_type_error /\
       res = inr {| err_success := false; err_error := error_msg path_type_error;
                    err_synced_count := 0; err_failed_count := 0 |} /\
       state_file w' = state_file w1 /\
       vector_db w' = vector_db batch.2 /\
       trace w' = trace batch.2 ++ [EvLog (isoformat_now E (clock batch.2)) "ERROR"
                                      (error_msg path_type_error)])
  | Raise e =>
      res = inr {| err_success := false; err_error := error_msg e;
                   err_synced_count := 0; err_failed_count := 0 |} /\
      state_file w' = state_file w1 /\
      vector_db w' = vector_db w1 /\
      trace w' = trace w1 ++ [EvLog (isoformat_now E (clock w1)) "ERROR" (error_msg e)]
  end.

Lemma sync_documents_outcome E docs w :
  (Forall (fun d => checkable d = true) docs /\
   exists r, (sync_documents E docs w).1 = Ok r) \/
  (~ Forall (fun d => checkable d = true) docs /\
   (sync_documents E docs w).1 = Raise path_type_error).
Proof.
  destruct (for_each (sync_step E) docs (init_vars (loaded w)) (start_world E docs w))
    as [[vars|e] w1] eqn:Hloop.
  - left. split; [eapply sync_loop_checkable, Hloop|].
    rewrite (sync_documents_eq E docs w vars w1 Hloop). eauto.
  - right. rewrite (sync_documents_raise E docs w e w1 Hloop). cbn [fst].
    destruct (sync_loop_raises E _ _ _ _ _ Hloop)
      as (-> & l1 & d & l2 & -> & _ & Ht & Hn & _).
    split; [|reflexivity]. intros Hc. apply Forall_app in Hc as [_ Hc].
    apply Forall_cons in Hc as [Hc _]. unfold checkable in Hc.
    rewrite Ht, Hn in Hc. discriminate.
Qed.

Lemma sync_listing_result E start_msg listing error_msg w :
  let w1 := logged E "INFO" start_msg w in
  let run :=
    try_except
      (log_sync_activity E start_msg "INFO" ;;;
       docs <- call listing ;;
       r <- sync_documents E docs ;;
       ret (inl r))
      (fun e =>
         log_sync_activity E (error_msg e) "ERROR" ;;;
         ret (inr (aborted (error_msg e)))) w in
  exists res, run.1 = Ok res /\ wrapper_result E w1 (listing w1) error_msg res run.2.
Proof.
  cbn zeta. rewrite sync_listing_eq. cbn zeta. unfold wrapper_result.
  destruct (listing _) as [docs|e].
  - cbn zeta. set (w1 := logged E "INFO" start_msg w).
    destruct (sync_documents_outcome E docs w1) as [[Hc [r Hr]] | [Hc Hr]]; rewrite Hr.
    + cbn [fst snd]. exists (inl r). split; [reflexivity|].
      split; [|intros H; contradiction]. intros _. exists r. repeat split.
    + cbn [fst snd]. eexists. split; [reflexivity|].
      split; [intros H; contradiction|]. intros _.
      split; [reflexivity|]. split; [reflexivity|].
      unfold logged. cbn [state_file vector_db trace emit_in tick_in].
      split; [|split; reflexivity].
      apply (sync_documents_raised_state E docs w1 _ Hr).
  - cbn [fst snd]. eexists. split; [reflexivity|]. repeat split.
Qed.

(** X11: [sync_recent_documents] never raises.  When the listing of recent
    documents answers with records that can all be checked, the result is
    the report of [sync_documents] over the listed documents.  When a
    listed record has an id and a null name, the batch raises and the
    result is an error report with the message
    ["Error syncing recent documents: <TypeError message>"] and zero
    counts: the state file is not written, though the store holds what
    the batch stored before the exception.  When the listing raises [e],
    the result is an error report with the message
    ["Error syncing recent documents: e"] and zero counts, and neither
    the state file nor the store is touched. *)
Theorem sync_recent_documents_result (E : Env) (A : Api) (days max_results : Z)
    (w : World) :
  let w1 := logged E "INFO"
              ("Starting sync of documents modified in last " +:+ str_of_int days
                 +:+ " days") w in
  exists res,
    (sync_recent_documents E A days max_results w).1 = Ok res /\
    wrapper_result E w1 (get_recent_documents A w1 days max_results)
      (fun e => "Error syncing recent documents: " +:+ e)
      res (sync_recent_documents E A days max_results w).2.
Proof.
  apply (sync_listing_result E _ (fun w => get_recent_documents A w days max_results)
           (fun e => "Error syncing recent documents: " +:+ e) w).
Qed.

(** X12: [sync_folder] never raises.  When the listing of the folder answers
    with records that can all be checked, the result is the report of
    [sync_documents] over the listed documents.  When a listed record has
    an id and a null name, the batch raises and the result is an error
    report with the message
    ["Error syncing folder <id>: <TypeError message>"] and zero counts:
    the state file is not written, though the store holds what the batch
    stored before the exception.  When the listing raises [e], the result
    is an error report with the message ["Error syncing folder <id>: e"]
    and zero counts, and neither the state file nor the store is
    touched. *)
Theorem sync_folder_result (E : Env) (A : Api) (folder_id : string) (w : World) :
  let w1 := logged E "INFO" ("Syncing folder: " +:+ folder_id) w in
  exists res,
    (sync_folder E A folder_id w).1 = Ok res /\
    wrapper_result E w1 (get_folder_documents A w1 folder_id)
      (fun e => "Error syncing folder " +:+ folder_id +:+ ": " +:+ e)
      res (sync_folder E A folder_id w).2.
Proof.
  apply (sync_listing_result E _ (fun w => get_folder_documents A w folder_id)
           (fun e => "Error syncing folder " +:+ folder_id +:+ ": " +:+ e) w).
Qed.

(** ** Statistics *)

(** X13: Right after a batch that returned, the statistics agree with its
    report: the number of failed documents is [failed_count], [last_sync]
    is the time the batch wrote, and the number of synced documents is
    the size of the written map, which is at least what it was before the
    batch and at most that plus [synced_count].  The batch returns when
    every record of the list can be checked. *)
Theorem statistics_after_sync (E : Env) (A : Api) (docs : list DocumentRecord)
    (w : World) (status : ConnectionStatus) :
  let w' := (sync_documents E docs w).2 in
  get_connection_status A w' = Ok status ->
  (Forall (fun d => checkable d = true) docs ->
   exists report, (sync_documents E docs w).1 = Ok report) /\
  forall report,
    (sync_documents E docs w).1 = Ok report ->
    exists stats,
      get_sync_statistics A w' = (Ok stats, w') /\
      stat_failed_documents stats = failed_count report /\
      (exists t, stat_last_sync stats = Some t) /\
      size (synced_documents (loaded w)) <= stat_total_synced stats /\
      stat_total_synced stats
        <= size (synced_documents (loaded w)) + synced_count report /\
      stat_connection_status stats = status.
Proof.
  cbn zeta. intros Hst. split.
  { intros Hc. destruct (sync_documents_total E docs w Hc) as (report & w' & H).
    exists report. rewrite H. reflexivity. }
  intros report Hret.
  destruct (sync_documents_returns E docs w report Hret) as (vars & w1 & Hloop & ->).
  rewrite (sync_documents_eq E docs w vars w1 Hloop) in *. cbn [fst snd] in *.
  destruct (sync_loop_accounting E docs _ _ _ _ Hloop)
    as ((new & Hfd & Hfc & _) & _).
  destruct (sync_loop_entries E docs _ _ _ _ Hloop) as (Hkeep & _ & Hsize).
  cbn [init_vars v_failed_docs v_failed_count v_synced_count v_sync_state app]
    in Hfd, Hfc, Hsize, Hkeep.
  eexists.
  unfold get_sync_statistics, bind, get_sync_state, call.
  assert (Hfile : state_file (commit_world E vars w1)
                  = Some (final_state vars (isoformat_now E (clock w1)))) by reflexivity.
  rewrite Hfile, Hst. unfold ret. split; [reflexivity|].
  cbn [stat_failed_documents stat_last_sync stat_total_synced stat_connection_status
       final_state last_sync synced_documents failed_documents report_of
       failed_count synced_count].
  rewrite Hfd, Hfc. split; [reflexivity|]. split; [eauto|].
  split; [|split; [lia | reflexivity]].
  rewrite <- !size_dom. apply subseteq_size.
  intros k Hk. apply elem_of_dom. apply Hkeep. apply elem_of_dom. exact Hk.
Qed.

(** ** The cabinet structure *)

Lemma returns_for_each {A S} (I : S -> Prop) (body : S -> A -> M S) (l : list A) :
  (forall acc x, I acc -> returns I (body acc x)) ->
  forall acc, I acc -> returns I (for_each body l acc).
Proof.
  intros Hb. induction l as [|x l IH]; intros acc Hacc w a w'; simpl.
  - intros [= <- _]. exact Hacc.
  - unfold bind. destruct (body acc x w) as [[acc1|e] w1] eqn:Hx; [|discriminate].
    apply IH. eapply Hb; eauto.
Qed.

(** Every workspace of the structure holds at most [n] folders if it is
    the workspace [wid] of the cabinet [cid], and at most ten otherwise. *)
Definition folders_within (n : nat) (cid wid : option string)
    (s : gmap (option string) CabinetNode) : Prop :=
  forall cid' cab wid' ws,
    s !! cid' = Some cab -> cab_workspaces cab !! wid' = Some ws ->
    size (ws_folders ws) <= (if decide (cid' = cid /\ wid' = wid) then n else 10).

Definition folders_bounded (s : gmap (option string) CabinetNode) : Prop :=
  forall cid cab wid ws,
    s !! cid = Some cab -> cab_workspaces cab !! wid = Some ws ->
    size (ws_folders ws) <= 10.

Lemma set_folder_within n cid wid fid node s :
  folders_within n cid wid s -> folders_within (S n) cid wid (set_folder cid wid fid node s).
Proof.
  intros H cid' cab wid' ws Hc Hw. unfold set_folder in Hc.
  apply lookup_alter_Some in Hc as [(<- & cab0 & Hc0 & ->)|(Hne & Hc0)].
  - cbn [cab_workspaces] in Hw.
    apply lookup_alter_Some in Hw as [(<- & ws0 & Hw0 & ->)|(Hne & Hw0)].
    + specialize (H _ _ _ _ Hc0 Hw0). cbn [ws_folders].
      rewrite decide_True in * by auto.
      rewrite map_size_insert. destruct (_ !! fid); simpl; lia.
    + specialize (H _ _ _ _ Hc0 Hw0).
      rewrite decide_False in * by (intros [_ ?]; congruence). exact H.
  - specialize (H _ _ _ _ Hc0 Hw).
    rewrite decide_False in * by (intros [? _]; congruence). exact H.
Qed.

Lemma fold_folders_within cid wid (folders : list Container) :
  forall n s,
    folders_within n cid wid s ->
    folders_within (n + length folders) cid wid
      (foldl (fun acc folder =>
                set_folder cid wid (c_id folder)
                  {| fn_name := container_name "Folder" folder |} acc)
             s folders).
Proof.
  induction folders as [|f l IH]; intros n s H; simpl.
  - rewrite Nat.add_0_r. exact H.
  - replace (n + S (length l)) with (S n + length l) by lia.
    apply IH, set_folder_within, H.
Qed.

Lemma set_workspace_within cid wid name s :
  folders_bounded s ->
  folders_within 0 cid wid
    (set_workspace cid wid {| ws_name := name; ws_folders := ∅ |} s).
Proof.
  intros H cid' cab wid' ws Hc Hw. unfold set_workspace in Hc.
  apply lookup_alter_Some in Hc as [(<- & cab0 & Hc0 & ->)|(Hne & Hc0)].
  - cbn [cab_workspaces] in Hw.
    destruct (decide (wid = wid')) as [<-|Hne].
    + rewrite lookup_insert_eq in Hw. injection Hw as <-. cbn [ws_folders].
      rewrite decide_True by auto. rewrite map_size_empty. lia.
    + rewrite lookup_insert_ne in Hw by exact Hne.
      rewrite decide_False by (intros [_ ?]; congruence). eapply H; eauto.
  - rewrite decide_False by (intros [? _]; congruence). eapply H; eauto.
Qed.

Lemma folders_within_bounded n cid wid s :
  n <= 10 -> folders_within n cid wid s -> folders_bounded s.
Proof.
  intros Hn H cid' cab wid' ws Hc Hw. specialize (H _ _ _ _ Hc Hw).
  destruct (decide _); lia.
Qed.

Lemma add_folders_bounded cid wid name folders s :
  folders_bounded s ->
  folders_bounded
    (add_folders cid wid folders
       (set_workspace cid wid {| ws_name := name; ws_folders := ∅ |} s)).
Proof.
  intros H. unfold add_folders.
  eapply (folders_within_bounded (0 + length (take 10 folders))).
  - rewrite length_take. lia.
  - apply fold_folders_within, set_workspace_within, H.
Qed.

Lemma add_workspace_bounded E A cid s ws :
  folders_bounded s -> returns folders_bounded (add_workspace E A cid s ws).
Proof.
  intros H. unfold add_workspace. apply returns_try_except.
  - apply returns_bind. intros folders. apply returns_ret.
    apply add_folders_bounded, H.
  - intros e. apply returns_bind. intros _. apply returns_ret.
    eapply (folders_within_bounded 0); [lia|]. apply set_workspace_within, H.
Qed.

Lemma add_cabinet_bounded E A s c :
  folders_bounded s -> returns folders_bounded (add_cabinet E A s c).
Proof.
  intros H. unfold add_cabinet. apply returns_bind. intros workspaces.
  apply returns_for_each.
  - intros acc x. apply add_workspace_bounded.
  - intros cid cab wid ws Hc Hw.
    destruct (decide (c_id c = cid)) as [<-|Hne].
    + rewrite lookup_insert_eq in Hc. injection Hc as <-.
      cbn [cab_workspaces] in Hw. rewrite lookup_empty in Hw. discriminate.
    + rewrite lookup_insert_ne in Hc by exact Hne. eapply H; eauto.
Qed.

(** The store, the state file and the temporary files are as before. *)
Definition read_only (w w' : World) : Prop :=
  state_file w' = state_file w /\ vector_db w' = vector_db w /\
  temp_files w' = temp_files w.

Lemma read_only_refl w : read_only w w.
Proof. repeat split. Qed.

Lemma read_only_trans a b c : read_only a b -> read_only b c -> read_only a c.
Proof. intros (H1 & H2 & H3) (G1 & G2 & G3). repeat split; congruence. Qed.

Lemma read_only_log E m l : preserves read_only (log_sync_activity E m l).
Proof. intros w. rewrite log_sync_activity_eq. repeat split. Qed.

Lemma read_only_call {A} (f : World -> result A) : preserves read_only (call f).
Proof. intros w. apply read_only_refl. Qed.

Lemma total_add_workspace E A cid s ws : total (add_workspace E A cid s ws).
Proof.
  unfold add_workspace. apply total_try_except. intros e.
  apply total_bind; [apply total_log | intros _; apply total_ret].
Qed.

Lemma read_only_add_workspace E A cid s ws :
  preserves read_only (add_workspace E A cid s ws).
Proof.
  unfold add_workspace.
  apply (preserves_try_except read_only read_only_trans).
  - apply (preserves_bind read_only read_only_trans); [apply read_only_call|].
    intros a. apply preserves_ret, read_only_refl.
  - intros e. apply (preserves_bind read_only read_only_trans); [apply read_only_log|].
    intros _. apply preserves_ret, read_only_refl.
Qed.

Lemma read_only_get_cabinet_structure E A :
  preserves read_only (get_cabinet_structure E A).
Proof.
  unfold get_cabinet_structure.
  apply (preserves_try_except read_only read_only_trans).
  - apply (preserves_bind read_only read_only_trans); [apply read_only_call|].
    intros cabinets.
    apply (preserves_for_each read_only read_only_refl read_only_trans).
    intros acc c. unfold add_cabinet.
    apply (preserves_bind read_only read_only_trans); [apply read_only_call|].
    intros ws. apply (preserves_for_each read_only read_only_refl read_only_trans).
    intros acc' x. apply read_only_add_workspace.
  - intros e. apply (preserves_bind read_only read_only_trans); [apply read_only_log|].
    intros _. apply preserves_ret, read_only_refl.
Qed.

(** X14: [get_cabinet_structure] never raises and writes nothing but log
    lines; in the structure it returns, no workspace has more than ten
    folders. *)
Theorem cabinet_structure_bounded (E : Env) (A : Api) (w : World) :
  exists s,
    (get_cabinet_structure E A w).1 = Ok s /\
    (forall cid cab wid ws,
        s !! cid = Some cab -> cab_workspaces cab !! wid = Some ws ->
        size (ws_folders ws) <= 10) /\
    state_file (get_cabinet_structure E A w).2 = state_file w /\
    vector_db (get_cabinet_structure E A w).2 = vector_db w /\
    temp_files (get_cabinet_structure E A w).2 = temp_files w.
Proof.
  assert (Ht : total (get_cabinet_structure E A)).
  { apply total_try_except. intros e.
    apply total_bind; [apply total_log | intros _; apply total_ret]. }
  destruct (Ht w) as (s & w' & Hrun).
  assert (Hb : returns folders_bounded (get_cabinet_structure E A)).
  { apply returns_try_except.
    - apply returns_bind. intros cabinets. apply returns_for_each.
      + intros acc c. apply add_cabinet_bounded.
      + intros cid cab wid ws Hc. rewrite lookup_empty in Hc. discriminate.
    - intros e. apply returns_bind. intros _. apply returns_ret.
      intros cid cab wid ws Hc. rewrite lookup_empty in Hc. discriminate. }
  exists s. split; [rewrite Hrun; reflexivity|].
  split; [exact (Hb w s w' Hrun)|].
  exact (read_only_get_cabinet_structure E A w).
Qed.

(** ** Failures while listing *)

Lemma cabinets_loop_raises E A (c : Container) (e : string) (cabinets : list Container) :
  c ∈ cabinets ->
  (forall w', list_workspaces A w' (c_id c) = Raise e) ->
  forall s w, exists e', (for_each (add_cabinet E A) cabinets s w).1 = Raise e'.
Proof.
  intros Hin Hraise. induction cabinets as [|x l IH]; intros s w.
  - apply elem_of_nil in Hin. contradiction.
  - cbn [for_each]. unfold bind at 1.
    destruct (add_cabinet E A s x w) as [[s1|e1] w1] eqn:Hx.
    + apply elem_of_cons in Hin as [->|Hin]; [|apply IH, Hin].
      exfalso. revert Hx. unfold add_cabinet, bind, call. rewrite Hraise. discriminate.
    + exists e1. reflexivity.
Qed.

(** X15: When the cabinets cannot be listed, or the workspaces of one of the
    listed cabinets cannot, [get_cabinet_structure] returns the empty
    structure (also the cabinets read before the failure are dropped) and
    its last log line is the [ERROR]. *)
Theorem cabinet_listing_failure (E : Env) (A : Api) (w : World) :
  (exists e, get_cabinets A w = Raise e) \/
  (exists cabinets c e,
      get_cabinets A w = Ok cabinets /\ c ∈ cabinets /\
      forall w', list_workspaces A w' (c_id c) = Raise e) ->
  (get_cabinet_structure E A w).1 = Ok ∅ /\
  exists ts e,
    last (trace (get_cabinet_structure E A w).2)
    = Some (EvLog ts "ERROR" ("Error getting cabinet structure: " +:+ e)).
Proof.
  intros H.
  assert (Hbody : exists e w1,
             (cabinets <- call (get_cabinets A) ;;
              for_each (add_cabinet E A) cabinets ∅) w = (Raise e, w1)).
  { destruct H as [(e & He)|(cabinets & c & e & Hc & Hin & Hr)].
    - exists e, w. unfold bind, call. rewrite He. reflexivity.
    - destruct (cabinets_loop_raises E A c e cabinets Hin Hr ∅ w) as (e' & He').
      unfold bind, call. rewrite Hc.
      destruct (for_each (add_cabinet E A) cabinets ∅ w) as [r w1].
      cbn [fst] in He'. subst r. eauto. }
  destruct Hbody as (e & w1 & Hbody).
  unfold get_cabinet_structure, try_except. rewrite Hbody.
  unfold bind. rewrite log_sync_activity_eq. unfold ret. cbn [fst snd].
  split; [reflexivity|]. eexists _, e. cbn [trace emit_in]. apply last_snoc.
Qed.

(** ** The keys of the structure *)

(** The ids of the workspaces recorded under a cabinet id. *)
Definition workspace_ids (s : gmap (option string) CabinetNode) (cid : option string)
    : option (gset (option string)) :=
  (fun cab => dom (cab_workspaces cab)) <$> s !! cid.

Lemma workspace_ids_set_folder cid wid fid node s c :
  workspace_ids (set_folder cid wid fid node s) c = workspace_ids s c.
Proof.
  unfold workspace_ids, set_folder.
  destruct (decide (cid = c)) as [<-|Hne].
  - rewrite lookup_alter_eq. destruct (s !! cid) as [cab|]; [|reflexivity].
    cbn. rewrite dom_alter_L. reflexivity.
  - rewrite lookup_alter_ne by exact Hne. reflexivity.
Qed.

Lemma workspace_ids_add_folders cid wid folders s c :
  workspace_ids (add_folders cid wid folders s) c = workspace_ids s c.
Proof.
  unfold add_folders. generalize (take 10 folders). intros l. revert s.
  induction l as [|f l IH]; intros s; simpl; [reflexivity|].
  rewrite IH. apply workspace_ids_set_folder.
Qed.

Lemma workspace_ids_set_workspace cid wid node s c :
  workspace_ids (set_workspace cid wid node s) c
  = if decide (c = cid) then (fun ids => {[wid]} ∪ ids) <$> workspace_ids s c
    else workspace_ids s c.
Proof.
  unfold workspace_ids, set_workspace.
  destruct (decide (c = cid)) as [->|Hne].
  - rewrite lookup_alter_eq. destruct (s !! cid) as [cab|]; [|reflexivity].
    cbn. rewrite dom_insert_L. reflexivity.
  - rewrite lookup_alter_ne by congruence. reflexivity.
Qed.

Lemma add_workspace_ids E A cid s ws w :
  exists s' w',
    add_workspace E A cid s ws w = (Ok s', w') /\
    forall c, workspace_ids s' c
              = if decide (c = cid) then (fun ids => {[c_id ws]} ∪ ids) <$> workspace_ids s c
                else workspace_ids s c.
Proof.
  unfold add_workspace, try_except, bind, call.
  destruct (list_folders A w (c_id ws)) as [folders|e].
  - unfold ret. eexists _, _. split; [reflexivity|]. intros c.
    rewrite workspace_ids_add_folders. apply workspace_ids_set_workspace.
  - rewrite log_sync_activity_eq. unfold ret. eexists _, _. split; [reflexivity|].
    intros c. apply workspace_ids_set_workspace.
Qed.

Lemma workspaces_loop_ids E A cid (wss : list Container) :
  forall s w,
    exists s' w',
      for_each (add_workspace E A cid) wss s w = (Ok s', w') /\
      forall c, workspace_ids s' c
                = if decide (c = cid)
                  then (fun ids => list_to_set (c_id <$> wss) ∪ ids) <$> workspace_ids s c
                  else workspace_ids s c.
Proof.
  induction wss as [|x l IH]; intros s w.
  - exists s, w. split; [reflexivity|]. intros c. destruct (decide _); [|reflexivity].
    destruct (workspace_ids s c) as [ids|]; [|reflexivity].
    cbn. f_equal. rewrite (left_id_L ∅ (∪)). reflexivity.
  - cbn [for_each]. unfold bind.
    destruct (add_workspace_ids E A cid s x w) as (s1 & w1 & -> & H1).
    destruct (IH s1 w1) as (s2 & w2 & -> & H2).
    exists s2, w2. split; [reflexivity|]. intros c. rewrite H2, H1.
    destruct (decide _); [|reflexivity].
    destruct (workspace_ids s c) as [ids|]; [|reflexivity].
    cbn. f_equal. rewrite (assoc_L (∪)), (comm_L (∪) _ {[c_id x]}). reflexivity.
Qed.

Section Listing.

Variable E : Env.
Variable A : Api.
Variable workspaces_of : option string -> list Container.
Hypothesis listing : forall w cid, list_workspaces A w cid = Ok (workspaces_of cid).

Lemma add_cabinet_ids s c w :
  exists s' w',
    add_cabinet E A s c w = (Ok s', w') /\
    forall cid, workspace_ids s' cid
                = if decide (cid = c_id c)
                  then Some (list_to_set (c_id <$> workspaces_of cid))
                  else workspace_ids s cid.
Proof.
  unfold add_cabinet, bind at 1, call. rewrite listing.
  destruct (workspaces_loop_ids E A (c_id c) (workspaces_of (c_id c)) 
              (<[c_id c := {| cab_name := container_name "Cabinet" c;
                              cab_workspaces := ∅ |}]> s) w)
    as (s' & w' & -> & H).
  exists s', w'. split; [reflexivity|]. intros cid. rewrite H.
  unfold workspace_ids. destruct (decide (cid = c_id c)) as [->|Hne].
  - rewrite lookup_insert_eq. cbn. f_equal. rewrite dom_empty_L, (right_id_L ∅ (∪)). reflexivity.
  - rewrite lookup_insert_ne by congruence. reflexivity.
Qed.

Lemma cabinets_loop_ids (cabinets : list Container) :
  forall s w,
    exists s' w',
      for_each (add_cabinet E A) cabinets s w = (Ok s', w') /\
      forall cid, workspace_ids s' cid
                  = if decide (cid ∈ c_id <$> cabinets)
                    then Some (list_to_set (c_id <$> workspaces_of cid))
                    else workspace_ids s cid.
Proof.
  induction cabinets as [|x l IH]; intros s w.
  - exists s, w. split; [reflexivity|]. intros cid.
    rewrite decide_False; [reflexivity|]. cbn. apply not_elem_of_nil.
  - cbn [for_each]. unfold bind.
    destruct (add_cabinet_ids s x w) as (s1 & w1 & -> & H1).
    destruct (IH s1 w1) as (s2 & w2 & -> & H2).
    exists s2, w2. split; [reflexivity|]. intros cid. rewrite H2, H1.
    rewrite fmap_cons.
    destruct (decide (cid ∈ c_id <$> l)) as [Hin|Hnin].
    + rewrite decide_True; [reflexivity|]. apply elem_of_cons. auto.
    + destruct (decide (cid = c_id x)) as [->|Hne].
      * rewrite decide_True; [reflexivity|]. apply elem_of_cons. auto.
      * rewrite decide_False; [reflexivity|].
        intros [?|?]%elem_of_cons; contradiction.
Qed.

End Listing.

(** X16: When the cabinets and the workspaces of every cabinet can be listed,
    the structure has exactly the listed cabinet ids as keys and, under
    each, exactly the ids of its listed workspaces: a workspace whose
    folders cannot be listed is still there. *)
Theorem cabinet_structure_keys (E : Env) (A : Api)
    (workspaces_of : option string -> list Container)
    (cabinets : list Container) (w : World) :
  get_cabinets A w = Ok cabinets ->
  (forall w' cid, list_workspaces A w' cid = Ok (workspaces_of cid)) ->
  exists s,
    (get_cabinet_structure E A w).1 = Ok s /\
    (forall cid, is_Some (s !! cid) <-> cid ∈ c_id <$> cabinets) /\
    (forall cid cab wid,
        s !! cid = Some cab ->
        is_Some (cab_workspaces cab !! wid) <-> wid ∈ c_id <$> workspaces_of cid).
Proof.
  intros Hc Hl.
  destruct (cabinets_loop_ids E A workspaces_of Hl cabinets ∅ w) as (s & w' & Hrun & Hids).
  exists s. split.
  { unfold get_cabinet_structure, try_except, bind, call. rewrite Hc, Hrun. reflexivity. }
  split.
  - intros cid. specialize (Hids cid). unfold workspace_ids in Hids.
    rewrite lookup_empty in Hids. cbn in Hids.
    destruct (decide (cid ∈ c_id <$> cabinets)) as [Hin|Hnin].
    + split; [auto|]. intros _. destruct (s !! cid); [eauto | discriminate].
    + split; [|contradiction]. intros [cab Hcab]. rewrite Hcab in Hids. discriminate.
  - intros cid cab wid Hcab. specialize (Hids cid). unfold workspace_ids in Hids.
    rewrite Hcab, lookup_empty in Hids. cbn in Hids.
    destruct (decide (cid ∈ c_id <$> cabinets)); [|discriminate].
    injection Hids as Hdom. rewrite <- elem_of_dom, Hdom. apply elem_of_list_to_set.
Qed.

(** ** Concrete runs *)

(** An environment in which text files cannot be read. *)
Definition unreadable_env : Env :=
  {| isoformat_now := isoformat_now demo_env;
     api_download_document := api_download_document demo_env;
     extract_text_from_pdf := extract_text_from_pdf demo_env;
     extract_text_from_docx := extract_text_from_docx demo_env;
     extract_text_from_txt := fun _ _ => Raise "Error extracting text from TXT: boom";
     split_text := split_text demo_env;
     chroma_add_documents := chroma_add_documents demo_env;
     rag_pipeline := true |}.

(** An environment in which the vector store rejects every batch. *)
Definition full_store_env : Env :=
  {| isoformat_now := isoformat_now demo_env;
     api_download_document := api_download_document demo_env;
     extract_text_from_pdf := extract_text_from_pdf demo_env;
     extract_text_from_docx := extract_text_from_docx demo_env;
     extract_text_from_txt := extract_text_from_txt demo_env;
     split_text := split_text demo_env;
     chroma_add_documents := fun _ _ _ => Raise "disk full";
     rag_pipeline := true |}.

Definition demo_status : ConnectionStatus :=
  {| connected := true; conn_user := Some "Ann"; conn_email := None;
     conn_base_url := Some "https://api.example.com"; conn_error := None |}.

(** A remote source with two cabinets; the first has two workspaces, the
    folders of the workspace ["w2"] cannot be listed and the workspace
    ["w1"] has twelve folders. *)
Definition demo_api : Api :=
  {| search_documents := fun _ _ _ _ =>
       Ok [doc_a; mk_doc (Some "X") (Some "x.exe") (Some "T1")];
     get_recent_documents := fun _ _ _ => Ok [doc_a; doc_b];
     get_folder_documents := fun _ _ => Raise "404";
     get_cabinets := fun _ =>
       Ok [{| c_id := Some "c1"; c_name := Some "Contracts" |};
           {| c_id := Some "c2"; c_name := None |}];
     list_workspaces := fun _ cid =>
       Ok (if decide (cid = Some "c1")
           then [{| c_id := Some "w1"; c_name := None |};
                 {| c_id := Some "w2"; c_name := Some "Second" |}]
           else []);
     list_folders := fun _ wid =>
       if decide (wid = Some "w1")
       then Ok ((fun n => {| c_id := Some (str_of_int (Z.of_nat n)); c_name := None |})
                  <$> seq 0 12)
       else Raise "timeout";
     get_connection_status := fun _ => Ok demo_status |}.

(** The same source when the workspaces of the cabinet ["c2"] cannot be
    listed. *)
Definition broken_api : Api :=
  {| search_documents := search_documents demo_api;
     get_recent_documents := get_recent_documents demo_api;
     get_folder_documents := get_folder_documents demo_api;
     get_cabinets := get_cabinets demo_api;
     list_workspaces := fun w cid =>
       if decide (cid = Some "c2") then Raise "503" else list_workspaces demo_api w cid;
     list_folders := list_folders demo_api;
     get_connection_status := get_connection_status demo_api |}.

(** An environment in which the remote source cannot be reached. *)
Definition offline_env : Env :=
  {| isoformat_now := isoformat_now demo_env;
     api_download_document := fun _ _ => Raise "Connection refused";
     extract_text_from_pdf := extract_text_from_pdf demo_env;
     extract_text_from_docx := extract_text_from_docx demo_env;
     extract_text_from_txt := extract_text_from_txt demo_env;
     split_text := split_text demo_env;
     chroma_add_documents := chroma_add_documents demo_env;
     rag_pipeline := true |}.

(** The failure entry of the document ["A"] with a message. *)
Definition failed_a (msg : string) : LoopVars :=
  {| v_sync_state := empty_sync_state; v_synced_count := 0; v_failed_count := 1;
     v_failed_docs := [{| failure_id := Some "A"; failure_name := Some "a.txt";
                          failure_error := Some msg |}] |}.

(** The document ["A"] when the source cannot be reached, when its text
    cannot be read, when its text is blank and when the store is full. *)
Lemma per_document_errors_contained_witness :
  (exists w', sync_step offline_env (init_vars empty_sync_state) doc_a empty_world
              = (Ok (failed_a "Error syncing document a.txt: Connection refused"), w')) /\
  (exists w', sync_step unreadable_env (init_vars empty_sync_state) doc_a empty_world
              = (Ok (failed_a ("Error syncing document a.txt: "
                                 +:+ "Error extracting text from TXT: boom")), w')) /\
  (exists w', sync_step blank_env (init_vars empty_sync_state) doc_a empty_world
              = (Ok (failed_a ("Error syncing document a.txt: "
                                 +:+ "No text could be extracted from /tmp/A.txt")), w')) /\
  (exists w', sync_step full_store_env (init_vars empty_sync_state) doc_a empty_world
              = (Ok (failed_a ("Failed to add a.txt to knowledge base: "
                                 +:+ "Error adding documents: "
                                 +:+ "Error adding documents to vector store: disk full")),
                 w')).
Proof.
  split; [|split; [|split]].
  - apply (proj1 (proj2 (proj2 (per_document_errors_contained offline_env
                                  (init_vars empty_sync_state) doc_a empty_world
                                  eq_refl)))
             "Connection refused").
    reflexivity.
  - destruct (proj2 (proj2 (proj2 (per_document_errors_contained unreadable_env
                                     (init_vars empty_sync_state) doc_a empty_world
                                     eq_refl)))
                "/tmp/A.txt" eq_refl eq_refl) as (Hextract & _).
    apply (Hextract "Error extracting text from TXT: boom"). reflexivity.
  - destruct (proj2 (proj2 (proj2 (per_document_errors_contained blank_env
                                     (init_vars empty_sync_state) doc_a empty_world
                                     eq_refl)))
                "/tmp/A.txt" eq_refl eq_refl) as (_ & Hblank & _).
    apply (Hblank [0x20; 0xA0; 0x3000; 0xA; 0x85]%N); reflexivity.
  - destruct (proj2 (proj2 (proj2 (per_document_errors_contained full_store_env
                                     (init_vars empty_sync_state) doc_a empty_world
                                     eq_refl)))
                "/tmp/A.txt" eq_refl eq_refl) as (_ & _ & _ & Hstore).
    destruct (process_document full_store_env "/tmp/A.txt"
                (downloaded full_store_env doc_a "/tmp/A.txt" empty_world))
      as [[docs|e] w1] eqn:Hp; [|vm_compute in Hp; discriminate Hp].
    apply (Hstore docs "disk full").
    + reflexivity.
    + reflexivity.
    + intros w3 tagged_docs _. reflexivity.
Defined.

(** A remote source that lists a record with a null name. *)
Definition null_api : Api :=
  {| search_documents := fun _ _ _ _ => Ok [doc_a; doc_null];
     get_recent_documents := fun _ _ _ => Ok [doc_a; doc_null];
     get_folder_documents := fun _ _ => Ok [doc_null];
     get_cabinets := get_cabinets demo_api;
     list_workspaces := list_workspaces demo_api;
     list_folders := list_folders demo_api;
     get_connection_status := get_connection_status demo_api |}.

Lemma sync_recent_documents_result_witness :
  exists res,
    (sync_recent_documents demo_env null_api 30 50 empty_world).1 = Ok res /\
    res = inr {| err_success := false;
                 err_error := "Error syncing recent documents: " +:+ path_type_error;
                 err_synced_count := 0; err_failed_count := 0 |}.
Proof.
  destruct (sync_recent_documents_result demo_env null_api 30 50 empty_world)
    as (res & Hrun & Hres).
  exists res. split; [exact Hrun|].
  destruct Hres as [_ Hbad]. destruct Hbad as (_ & Hres & _); [|exact Hres].
  intros H. apply Forall_cons in H as [_ H]. apply Forall_cons in H as [H _].
  discriminate H.
Defined.

Lemma sync_folder_result_witness :
  exists res,
    (sync_folder demo_env null_api "F1" empty_world).1 = Ok res /\
    res = inr {| err_success := false;
                 err_error := "Error syncing folder F1: " +:+ path_type_error;
                 err_synced_count := 0; err_failed_count := 0 |}.
Proof.
  destruct (sync_folder_result demo_env null_api "F1" empty_world)
    as (res & Hrun & Hres).
  exists res. split; [exact Hrun|].
  destruct Hres as [_ Hbad]. destruct Hbad as (_ & Hres & _); [|exact Hres].
  intros H. apply Forall_cons in H as [H _]. discriminate H.
Defined.

Lemma download_returns_nothing_witness :
  (sync_document demo_env doc_b empty_world).1
  = Ok (false, Some "Failed to download document b.txt").
Proof.
  apply (proj1 (download_returns_nothing demo_env doc_b empty_world eq_refl)).
Defined.

Lemma processing_raises_witness :
  (sync_document unreadable_env doc_a empty_world).1
  = Ok (false, Some "Error syncing document a.txt: Error extracting text from TXT: boom").
Proof.
  apply (processing_raises unreadable_env doc_a empty_world "/tmp/A.txt"
           "Error extracting text from TXT: boom").
  - reflexivity.
  - reflexivity.
  - vm_compute. reflexivity.
Defined.

Lemma store_rejects_witness :
  "/tmp/A.txt" ∉ temp_files (sync_document full_store_env doc_a empty_world).2.
Proof.
  destruct (process_document full_store_env "/tmp/A.txt"
              (downloaded full_store_env doc_a "/tmp/A.txt" empty_world)) as [[docs|e] w1] eqn:Hp.
  - apply (store_rejects full_store_env doc_a empty_world "/tmp/A.txt" "disk full" docs).
    + reflexivity.
    + reflexivity.
    + reflexivity.
    + rewrite Hp. reflexivity.
    + intros w2 tagged. reflexivity.
  - vm_compute in Hp. discriminate Hp.
Defined.

Lemma synced_chunks_carry_provenance_witness :
  (sync_document demo_env doc_a empty_world).1 = Ok (true, None).
Proof.
  destruct (process_document demo_env "/tmp/A.txt"
              (downloaded demo_env doc_a "/tmp/A.txt" empty_world)) as [[docs|e] w1] eqn:Hp.
  - destruct (synced_chunks_carry_provenance demo_env doc_a empty_world "/tmp/A.txt" docs)
      as (tagged_docs & Hres & _).
    + reflexivity.
    + reflexivity.
    + reflexivity.
    + rewrite Hp. reflexivity.
    + intros _ w docs0 _. reflexivity.
    + exact Hres.
  - vm_compute in Hp. discriminate Hp.
Defined.

Lemma discovered_documents_eligibility_witness :
  should_sync_document doc_a (state_of {[ "A" := mk_entry (Some "T1") ]}) = Ok false.
Proof.
  apply (proj2 (discovered_documents_eligibility demo_env demo_api "contract" 50 None
                  empty_world [doc_a] doc_a (state_of {[ "A" := mk_entry (Some "T1") ]})
                  eq_refl (list_elem_of_here _ _))).
  right. exists "A", (mk_entry (Some "T1")), "T1", "T1".
  repeat split; vm_compute; reflexivity.
Defined.

Lemma statistics_after_sync_witness :
  exists report stats,
    (sync_documents demo_env [doc_a; doc_b] empty_world).1 = Ok report /\
    stat_failed_documents stats = failed_count report.
Proof.
  destruct (statistics_after_sync demo_env demo_api [doc_a; doc_b] empty_world demo_status)
    as [Hret Hstats].
  - reflexivity.
  - destruct Hret as [report Hr]; [repeat constructor|].
    destruct (Hstats report Hr) as (stats & _ & Hf & _).
    exists report, stats. split; [exact Hr | exact Hf].
Defined.

Lemma cabinet_listing_failure_witness :
  (get_cabinet_structure demo_env broken_api empty_world).1 = Ok ∅.
Proof.
  apply (cabinet_listing_failure demo_env broken_api empty_world).
  right. exists [{| c_id := Some "c1"; c_name := Some "Contracts" |};
                 {| c_id := Some "c2"; c_name := None |}],
                {| c_id := Some "c2"; c_name := None |}, "503".
  split; [reflexivity|]. split; [|intros w'; reflexivity].
  apply list_elem_of_further, list_elem_of_here.
Defined.

Lemma cabinet_structure_keys_witness :
  exists s,
    (get_cabinet_structure demo_env demo_api empty_world).1 = Ok s /\
    forall cab, s !! Some "c1" = Some cab -> is_Some (cab_workspaces cab !! Some "w2").
Proof.
  destruct (cabinet_structure_keys demo_env demo_api
              (fun cid => if decide (cid = Some "c1")
                          then [{| c_id := Some "w1"; c_name := None |};
                                {| c_id := Some "w2"; c_name := Some "Second" |}]
                          else [])
              [{| c_id := Some "c1"; c_name := Some "Contracts" |};
               {| c_id := Some "c2"; c_name := None |}] empty_world)
    as (s & Hs & _ & Hw).
  - reflexivity.
  - intros w' cid. reflexivity.
  - exists s. split; [exact Hs|]. intros cab Hcab.
    apply (Hw _ _ (Some "w2") Hcab).
    apply list_elem_of_further, list_elem_of_here.
Defined.

(** * The two type checks and the name of the downloaded file *)

(** [c in s]. *)
Definition contains (c : ascii) (s : string) : bool :=
  match rfind c s with Some _ => true | None => false end.

(** The suffix [NetDocumentsAPI.download_document] gives to the temporary
    file: [Path(filename).suffix if '.' in filename else '.tmp']. *)
Definition temp_suffix (filename : string) : string :=
  if contains "." filename then path_suffix filename else ".tmp".

(** The name of a [NamedTemporaryFile]: directory, prefix and random
    part, here [stem], followed by the suffix. *)
Definition temp_name (stem suffix : string) : string := stem +:+ suffix.

Lemma length_app_str (a b : string) :
  String.length (a +:+ b) = String.length a + String.length b.
Proof.
  induction a as [|c a IH]; [reflexivity|].
  change (S (String.length (a +:+ b)) = S (String.length a) + String.length b).
  rewrite IH. reflexivity.
Qed.

Lemma rfind_lt c s i : rfind c s = Some i -> i < String.length s.
Proof.
  revert i. induction s as [|a s IH]; intros i; cbn [rfind String.length]; [discriminate|].
  destruct (rfind c s) as [j|].
  - intros [= <-]. specialize (IH j eq_refl). lia.
  - destruct (Ascii.eqb a c); [intros [= <-]; lia | discriminate].
Qed.

Lemma rfind_app c s1 s2 :
  rfind c (s1 +:+ s2)
  = match rfind c s2 with
    | Some i => Some (String.length s1 + i)
    | None => rfind c s1
    end.
Proof.
  induction s1 as [|a s1 IH].
  - change ("" +:+ s2) with s2. destruct (rfind c s2); reflexivity.
  - change (String a s1 +:+ s2) with (String a (s1 +:+ s2)).
    cbn [rfind String.length]. rewrite IH.
    destruct (rfind c s2) as [i|]; reflexivity.
Qed.

Lemma substring_app_l n m s1 s2 :
  n + m <= String.length s1 ->
  String.substring n m (s1 +:+ s2) = String.substring n m s1.
Proof.
  revert n m. induction s1 as [|a s1 IH]; intros n m H.
  - cbn in H. assert (n = 0) by lia. assert (m = 0) by lia. subst.
    destruct s2; reflexivity.
  - change (String a s1 +:+ s2) with (String a (s1 +:+ s2)).
    destruct n as [|n].
    + destruct m as [|m]; [reflexivity|].
      cbn [String.substring]. rewrite IH by (cbn in H; lia). reflexivity.
    + cbn [String.substring]. apply IH. cbn in H. lia.
Qed.

Lemma substring_full s : String.substring 0 (String.length s) s = s.
Proof. induction s as [|a s IH]; cbn; [reflexivity | rewrite IH; reflexivity]. Qed.

Lemma substring_app_r s1 s2 m :
  String.substring (String.length s1) m (s1 +:+ s2) = String.substring 0 m s2.
Proof. induction s1 as [|a s1 IH]; [reflexivity | exact IH]. Qed.

Lemma drop_str_app s1 s2 : drop_str (String.length s1) (s1 +:+ s2) = s2.
Proof.
  unfold drop_str. rewrite length_app_str, substring_app_r.
  replace (String.length s1 + String.length s2 - String.length s1)
    with (String.length s2) by lia.
  apply substring_full.
Qed.

(** A string is the part dropped followed by what [drop_str] keeps. *)
Lemma drop_str_suffix n s : exists s1, s = s1 +:+ drop_str n s.
Proof.
  revert n. induction s as [|a s IH]; intros n.
  - exists "". destruct n; reflexivity.
  - destruct n as [|n].
    + exists "". unfold drop_str. rewrite Nat.sub_0_r, substring_full. reflexivity.
    + destruct (IH n) as (s1 & Hs1). exists (String a s1).
      change (String a s = String a (s1 +:+ drop_str n s)). rewrite <- Hs1. reflexivity.
Qed.

Lemma contains_app_r c s1 s2 : contains c s2 = true -> contains c (s1 +:+ s2) = true.
Proof.
  unfold contains. rewrite rfind_app. destruct (rfind c s2); [reflexivity | discriminate].
Qed.

Lemma contains_path_name c p : contains c (path_name p) = true -> contains c p = true.
Proof.
  unfold path_name. destruct (rfind "/" p) as [i|]; [|auto].
  destruct (drop_str_suffix (S i) p) as (s1 & Hs1). intros H.
  rewrite Hs1. apply contains_app_r, H.
Qed.

Lemma path_suffix_contains p : path_suffix p <> "" -> contains "." p = true.
Proof.
  intros H. apply contains_path_name. unfold contains.
  unfold path_suffix in H. destruct (rfind "." (path_name p)); [reflexivity | congruence].
Qed.

(** Neither a dot nor a separator. *)
Definition plain (c : ascii) : bool :=
  negb (Ascii.eqb c ".") && negb (Ascii.eqb c "/").

Lemma plain_lower c : plain (lower_ascii c) = true -> plain c = true.
Proof.
  unfold plain. destruct (Ascii.eqb c ".") eqn:Hd.
  - apply Ascii.eqb_eq in Hd. subst c. discriminate.
  - destruct (Ascii.eqb c "/") eqn:Hs; [|reflexivity].
    apply Ascii.eqb_eq in Hs. subst c. discriminate.
Qed.

Lemma str_all_lower (P : ascii -> bool) s :
  (forall c, P (lower_ascii c) = true -> P c = true) ->
  str_all P (lower s) = true -> str_all P s = true.
Proof.
  intros HP. induction s as [|a s IH]; cbn [lower str_all]; [reflexivity|].
  intros [Ha Hs]%andb_true_iff. rewrite (HP a Ha), (IH Hs). reflexivity.
Qed.

Lemma lower_dot c : lower_ascii c = "."%char -> c = "."%char.
Proof.
  destruct c as [[] [] [] [] [] [] [] []]; vm_compute; intros H; try reflexivity;
    discriminate H.
Qed.

Lemma rfind_plain c s : str_all plain s = true -> (c = "." \/ c = "/")%char -> rfind c s = None.
Proof.
  intros Hs Hc. induction s as [|a s IH]; [reflexivity|].
  cbn [str_all] in Hs. apply andb_true_iff in Hs as [Ha Hs].
  cbn [rfind]. rewrite (IH Hs).
  unfold plain in Ha. apply andb_true_iff in Ha as [H1 H2].
  apply negb_true_iff in H1, H2. destruct Hc as [->| ->]; [rewrite H1 | rewrite H2]; reflexivity.
Qed.

(** A supported suffix is a dot followed by characters that are neither
    dots nor separators. *)
Lemma supported_suffix_shape suf :
  str_in (lower suf) SUPPORTED_EXTENSIONS = true ->
  exists rest, suf = String "." rest /\ str_all plain rest = true.
Proof.
  intros H. destruct suf as [|c0 rest]; [discriminate|].
  assert (Hl : lower (String c0 rest) = ".pdf" \/ lower (String c0 rest) = ".docx"
               \/ lower (String c0 rest) = ".txt").
  { unfold str_in, SUPPORTED_EXTENSIONS in H. cbn [existsb] in H.
    rewrite !orb_true_iff in H. rewrite !String.eqb_eq in H.
    destruct H as [H|[H|[H|H]]]; auto. discriminate. }
  cbn [lower] in Hl.
  assert (Hc0 : lower_ascii c0 = "."%char)
    by (destruct Hl as [Hl|[Hl|Hl]]; injection Hl; auto).
  assert (Hrest : str_all plain (lower rest) = true).
  { destruct Hl as [Hl|[Hl|Hl]]; injection Hl as _ ->; reflexivity. }
  exists rest. split.
  - f_equal. apply lower_dot, Hc0.
  - apply (str_all_lower plain rest plain_lower Hrest).
Qed.

Lemma forallb_dots_snoc s x :
  Ascii.eqb x "." = false ->
  forallb (fun c => Ascii.eqb c ".") (list_ascii_of_string (s +:+ String x "")) = false.
Proof.
  intros Hx. induction s as [|a s IH].
  - change (forallb (fun c => Ascii.eqb c ".") [x] = false).
    cbn [forallb]. rewrite Hx. reflexivity.
  - change (String a s +:+ String x "") with (String a (s +:+ String x "")).
    cbn [list_ascii_of_string forallb]. rewrite IH. apply andb_false_r.
Qed.

Lemma substring_snoc n s x :
  n <= String.length s ->
  String.substring n (String.length s + 1 - n) (s +:+ String x "")
  = String.substring n (String.length s - n) s +:+ String x "".
Proof.
  revert n. induction s as [|a s IH]; intros n H.
  - cbn in H. assert (n = 0) by lia. subst. reflexivity.
  - change (String a s +:+ String x "") with (String a (s +:+ String x "")).
    destruct n as [|n].
    + cbn [String.length]. rewrite Nat.sub_0_r, Nat.sub_0_r.
      replace (S (String.length s) + 1) with (S (String.length s + 1)) by lia.
      cbn [String.substring].
      specialize (IH 0 ltac:(lia)). rewrite !Nat.sub_0_r in IH. rewrite IH. reflexivity.
    + cbn [String.length String.substring].
      replace (S (String.length s) + 1 - S n) with (String.length s + 1 - n) by lia.
      replace (S (String.length s) - S n) with (String.length s - n) by lia.
      apply IH. cbn in H. lia.
Qed.

(** The extension of a temporary name whose generated part ends in a
    character that is neither a dot nor a separator. *)
Lemma splitext_temp_name stem0 x rest :
  plain x = true -> str_all plain rest = true ->
  splitext_ext ((stem0 +:+ String x "") +:+ String "." rest) = String "." rest.
Proof.
  intros Hx Hrest.
  pose proof Hx as Hx'. unfold plain in Hx'. apply andb_true_iff in Hx' as [Hxd Hxs].
  apply negb_true_iff in Hxd, Hxs.
  set (stem := stem0 +:+ String x "").
  assert (Hlen : String.length stem = String.length stem0 + 1)
    by (unfold stem; rewrite length_app_str; reflexivity).
  assert (Hdot : rfind "." (stem +:+ String "." rest) = Some (String.length stem)).
  { rewrite rfind_app. cbn [rfind]. rewrite (rfind_plain "." rest Hrest) by auto.
    cbn. rewrite Nat.add_0_r. reflexivity. }
  assert (Hsep : rfind "/" (stem +:+ String "." rest) = rfind "/" stem0).
  { rewrite rfind_app. cbn [rfind]. rewrite (rfind_plain "/" rest Hrest) by auto.
    cbn. unfold stem. rewrite rfind_app. cbn [rfind]. rewrite Hxs. reflexivity. }
  unfold splitext_ext, rfindZ. rewrite Hdot, Hsep.
  assert (Hbefore : forall n, n <= String.length stem0 ->
            forallb (fun c => Ascii.eqb c ".")
              (list_ascii_of_string
                 (String.substring n (String.length stem - n) (stem +:+ String "." rest)))
            = false).
  { intros n Hn. rewrite substring_app_l by lia. unfold stem at 2. rewrite Hlen.
    rewrite substring_snoc by exact Hn. apply forallb_dots_snoc, Hxd. }
  destruct (rfind "/" stem0) as [j|] eqn:Hj.
  - pose proof (rfind_lt _ _ _ Hj) as Hlt.
    replace (Z.of_nat j <? Z.of_nat (String.length stem))%Z with true
      by (symmetry; apply Z.ltb_lt; lia).
    rewrite Nat2Z.id. replace (Z.to_nat (Z.of_nat j + 1)) with (S j) by lia.
    rewrite (Hbefore (S j)) by lia. apply drop_str_app.
  - replace (-1 <? Z.of_nat (String.length stem))%Z with true
      by (symmetry; apply Z.ltb_lt; lia).
    rewrite Nat2Z.id. change (Z.to_nat (-1 + 1)) with 0.
    rewrite (Hbefore 0) by lia. apply drop_str_app.
Qed.

(** X17: The two type checks agree along the download: when a document passes
    [is_document_supported] and is downloaded under the name of its
    record, the temporary file gets the suffix of that name, and
    [extract_text] reads the same extension from the path of the
    temporary file, so it dispatches to an extractor instead of raising
    [Unsupported file type].  The generated part of the temporary name
    ends in a character that is neither a dot nor a separator. *)
Theorem supported_document_is_extracted (E : Env) (d : DocumentRecord)
    (stem0 : string) (x : ascii) (w : World) :
  is_document_supported d = Ok true ->
  plain x = true ->
  let filename := default "" (get_or "" (doc_name d)) in
  let path := temp_name (stem0 +:+ String x "") (temp_suffix filename) in
  let ext := lower (path_suffix filename) in
  temp_suffix filename = path_suffix filename /\
  lower (splitext_ext path) = ext /\
  (extract_text E path w).2 = w /\
  (extract_text E path w).1
  = (if String.eqb ext ".pdf" then extract_text_from_pdf E w path
     else if String.eqb ext ".docx" then extract_text_from_docx E w path
     else extract_text_from_txt E w path).
Proof.
  intros Hsup Hx. cbn zeta. unfold is_document_supported in Hsup.
  destruct (get_or "" (doc_name d)) as [filename|]; [|discriminate].
  cbn zeta in Hsup. injection Hsup as Hsup.
  change (default "" (Some filename)) with filename.
  destruct (supported_suffix_shape _ Hsup) as (rest & Hsuf & Hrest).
  assert (Hts : temp_suffix filename = path_suffix filename).
  { unfold temp_suffix. rewrite path_suffix_contains; [reflexivity|].
    rewrite Hsuf. discriminate. }
  assert (Hext : splitext_ext (temp_name (stem0 +:+ String x "") (temp_suffix filename))
                 = path_suffix filename).
  { rewrite Hts, Hsuf. unfold temp_name. apply splitext_temp_name; assumption. }
  split; [exact Hts|]. split; [rewrite Hext; reflexivity|].
  unfold extract_text. rewrite Hext.
  unfold str_in, SUPPORTED_EXTENSIONS in Hsup. cbn [existsb] in Hsup.
  destruct (String.eqb (lower (path_suffix filename)) ".pdf"); [split; reflexivity|].
  destruct (String.eqb (lower (path_suffix filename)) ".docx"); [split; reflexivity|].
  destruct (String.eqb (lower (path_suffix filename)) ".txt"); [split; reflexivity|].
  discriminate Hsup.
Qed.

Lemma supported_document_is_extracted_witness :
  lower (splitext_ext (temp_name "/tmp/tmpab12cd" (temp_suffix "Report.Final.PDF"))) = ".pdf".
Proof.
  apply (supported_document_is_extracted demo_env
           (mk_doc (Some "A") (Some "Report.Final.PDF") None) "/tmp/tmpab12c" "d"
           empty_world); reflexivity.
Defined.

(** * Several files at once: [DocumentProcessor.process_multiple_documents] *)

(** One iteration of the loop.  The accumulator holds [all_documents] and
    the lines printed so far. *)
Definition process_one (E : Env) (acc : list LangchainDocument * list string)
    (file_path : string) : M (list LangchainDocument * list string) :=
  try_except
    (documents <- process_document E file_path ;;
     ret (acc.1 ++ documents,
          acc.2 ++ ["Processed " +:+ file_path +:+ ": "
                      +:+ str_of_int (Z.of_nat (length documents)) +:+ " chunks"]))
    (fun e =>
       ret (acc.1, acc.2 ++ ["Error processing " +:+ file_path +:+ ": " +:+ e])).

(** The result is [all_documents] together with what the call printed. *)
Definition process_multiple_documents (E : Env) (file_paths : list string)
    : M (list LangchainDocument * list string) :=
  for_each (process_one E) file_paths ([], []).

(** The chunks one file contributes in the world [w]. *)
Definition chunks_of (E : Env) (w : World) (file_path : string) : list LangchainDocument :=
  match (process_document E file_path w).1 with
  | Ok documents => documents
  | Raise _ => []
  end.

(** The line printed for one file. *)
Definition line_of (E : Env) (w : World) (file_path : string) : string :=
  match (process_document E file_path w).1 with
  | Ok documents =>
      "Processed " +:+ file_path +:+ ": "
        +:+ str_of_int (Z.of_nat (length documents)) +:+ " chunks"
  | Raise e => "Error processing " +:+ file_path +:+ ": " +:+ e
  end.

Lemma process_one_eq E acc p w :
  process_one E acc p w = (Ok (acc.1 ++ chunks_of E w p, acc.2 ++ [line_of E w p]), w).
Proof.
  unfold process_one, try_except, bind at 1, chunks_of, line_of.
  pose proof (process_document_world E p w) as Hw.
  destruct (process_document E p w) as [[docs|e] w1]; cbn [fst snd] in *; subst w1.
  - reflexivity.
  - unfold ret. rewrite app_nil_r. reflexivity.
Qed.

Lemma process_loop_eq E paths :
  forall acc w,
    for_each (process_one E) paths acc w
    = (Ok (acc.1 ++ concat (chunks_of E w <$> paths), acc.2 ++ (line_of E w <$> paths)), w).
Proof.
  induction paths as [|p l IH]; intros acc w; cbn [for_each].
  - unfold ret. cbn. rewrite !app_nil_r. destruct acc; reflexivity.
  - unfold bind. rewrite process_one_eq, IH. cbn [fst snd fmap list_fmap concat].
    rewrite <- !app_assoc. reflexivity.
Qed.

(** X18: [process_multiple_documents] never raises and leaves the world as it
    was.  It returns the chunks of the files that can be processed, file
    after file in the order of the paths, and prints one line per file. *)
Theorem process_multiple_documents_result (E : Env) (paths : list string) (w : World) :
  exists docs printed,
    process_multiple_documents E paths w = (Ok (docs, printed), w) /\
    docs = concat (chunks_of E w <$> paths) /\
    printed = (line_of E w <$> paths) /\
    Forall (fun doc => exists p docs_p,
              p ∈ paths /\ (process_document E p w).1 = Ok docs_p /\ doc ∈ docs_p) docs.
Proof.
  eexists _, _. split.
  { unfold process_multiple_documents. rewrite process_loop_eq. reflexivity. }
  split; [reflexivity|]. split; [reflexivity|].
  apply Forall_forall. intros doc Hdoc.
  apply list_elem_of_In, in_concat in Hdoc as (l & Hl & Hin).
  apply list_elem_of_In in Hl, Hin.
  apply list_elem_of_fmap in Hl as (p & -> & Hp).
  unfold chunks_of in Hin.
  destruct (process_document E p w).1 as [docs_p|e] eqn:Hrun.
  - exists p, docs_p. auto.
  - apply elem_of_nil in Hin. contradiction.
Qed.

(** X19: A file that cannot be processed contributes no chunk and does not
    stop the files after it: the documents returned are those returned
    without it, and its error is printed at its position. *)
Theorem failing_file_skipped (E : Env) (p e : string) (before after : list string)
    (w : World) :
  (process_document E p w).1 = Raise e ->
  exists docs printed printed',
    process_multiple_documents E (before ++ p :: after) w = (Ok (docs, printed), w) /\
    process_multiple_documents E (before ++ after) w = (Ok (docs, printed'), w) /\
    printed !! length before = Some ("Error processing " +:+ p +:+ ": " +:+ e) /\
    length printed = S (length printed').
Proof.
  intros Hp. unfold process_multiple_documents. rewrite !process_loop_eq.
  cbn [fst snd app]. rewrite !fmap_app, !fmap_cons, !concat_app. cbn [concat].
  assert (Hc : chunks_of E w p = []) by (unfold chunks_of; rewrite Hp; reflexivity).
  assert (Hl : line_of E w p = "Error processing " +:+ p +:+ ": " +:+ e)
    by (unfold line_of; rewrite Hp; reflexivity).
  rewrite Hc, Hl. cbn [app].
  eexists _, _, _. split; [reflexivity|]. split; [reflexivity|]. split.
  - rewrite lookup_app_r by (rewrite length_fmap; lia).
    rewrite length_fmap, Nat.sub_diag. reflexivity.
  - rewrite !length_app, !length_fmap. cbn [length]. rewrite length_fmap. lia.
Qed.

Lemma failing_file_skipped_witness :
  exists docs printed,
    process_multiple_documents demo_env ["/tmp/a.txt"; "/tmp/b.exe"; "/tmp/c.txt"] empty_world
    = (Ok (docs, printed), empty_world) /\
    printed !! 1 = Some "Error processing /tmp/b.exe: Unsupported file type: .exe".
Proof.
  destruct (failing_file_skipped demo_env "/tmp/b.exe" "Unsupported file type: .exe"
              ["/tmp/a.txt"] ["/tmp/c.txt"] empty_world)
    as (docs & printed & printed' & Hrun & _ & Hline & _).
  - vm_compute. reflexivity.
  - exists docs, printed. split; [exact Hrun | exact Hline].
Defined.

(** * Answers with sources: [RAGPipeline.query] *)

(** What the question-answering chain returns: [result["result"]] and
    [result.get("source_documents")], each possibly absent. *)
Record ChainResult := {
  chain_result : option string;
  chain_source_documents : option (list LangchainDocument)
}.

Record SourceInfo := {
  si_source : pyval;
  si_chunk_id : pyval;
  si_content_preview : text
}.

(** The dictionary returned by [query]. *)
Record QueryResult := {
  q_success : bool;
  q_answer : string;
  q_sources : list SourceInfo;
  q_question : string;
  q_retrieved_chunks : nat
}.

(** [page_content[:200] + "..." if len(page_content) > 200 else page_content],
    where [len] and the slice count code points. *)
Definition content_preview (page_content : text) : text :=
  if 200 <? length page_content
  then take 200 page_content ++ text_of_string "..."
  else page_content.

Definition source_info (doc : LangchainDocument) : SourceInfo :=
  {| si_source := default (PStr "Unknown") (metadata doc !! "source");
     si_chunk_id := default (PInt 0) (metadata doc !! "chunk_id");
     si_content_preview := content_preview (page_content doc) |}.

(** [qa_chain] stands for setting the retriever and running the chain,
    which may answer or raise. *)
Definition query (qa_chain : World -> string -> Z -> result ChainResult)
    (question : string) (k : Z) : M QueryResult :=
  try_except
    (result <- call (fun w => qa_chain w question k) ;;
     let source_documents := default [] (chain_source_documents result) in
     let sources := source_info <$> source_documents in
     match chain_result result with
     | Some answer =>
         ret {| q_success := true; q_answer := answer; q_sources := sources;
                q_question := question;
                q_retrieved_chunks := length source_documents |}
     | None => raise "'result'"
     end)
    (fun e =>
       ret {| q_success := false; q_answer := "Error processing query: " +:+ e;
              q_sources := []; q_question := question; q_retrieved_chunks := 0 |}).

Lemma content_preview_length (t : text) :
  length (content_preview t) <= 203 /\
  length (content_preview t) <= length t + 3.
Proof.
  unfold content_preview. destruct (200 <? length t) eqn:Hlen.
  - apply Nat.ltb_lt in Hlen. rewrite length_app, length_take.
    change (length (text_of_string "...")) with 3. lia.
  - apply Nat.ltb_ge in Hlen. lia.
Qed.

(** X20: [query] never raises and changes nothing.  On success there is one
    source per retrieved document, in order, [retrieved_chunks] is their
    number, and every preview is the content itself when it has at most
    200 characters (code points) and its first 200 characters followed by
    ["..."] otherwise, so at most 203 characters.  When the chain raises
    or returns no ["result"], the answer carries the error and there are
    no sources. *)
Theorem query_result (qa_chain : World -> string -> Z -> result ChainResult)
    (question : string) (k : Z) (w : World) :
  exists r,
    query qa_chain question k w = (Ok r, w) /\
    q_question r = question /\
    q_retrieved_chunks r = length (q_sources r) /\
    Forall (fun s => length (si_content_preview s) <= 203) (q_sources r) /\
    match qa_chain w question k with
    | Ok {| chain_result := Some answer; chain_source_documents := docs |} =>
        q_success r = true /\ q_answer r = answer /\
        Forall2 (fun doc s =>
                   si_source s = default (PStr "Unknown") (metadata doc !! "source") /\
                   si_chunk_id s = default (PInt 0) (metadata doc !! "chunk_id") /\
                   si_content_preview s = content_preview (page_content doc) /\
                   (length (page_content doc) <= 200 ->
                    si_content_preview s = page_content doc) /\
                   (200 < length (page_content doc) ->
                    exists rest,
                      page_content doc = take 200 (page_content doc) ++ rest /\
                      length (take 200 (page_content doc)) = 200 /\
                      si_content_preview s
                      = take 200 (page_content doc) ++ [0x2E; 0x2E; 0x2E]%N))
                (default [] docs) (q_sources r)
    | Ok {| chain_result := None |} =>
        q_success r = false /\ q_answer r = "Error processing query: 'result'" /\
        q_sources r = []
    | Raise e =>
        q_success r = false /\ q_answer r = "Error processing query: " +:+ e /\
        q_sources r = []
    end.
Proof.
  unfold query, try_except, bind, call.
  destruct (qa_chain w question k) as [[[answer|] docs]|e]; cbn [chain_result chain_source_documents].
  - unfold ret. eexists. split; [reflexivity|].
    cbn [q_question q_retrieved_chunks q_sources q_success q_answer].
    split; [reflexivity|]. split; [rewrite length_fmap; reflexivity|].
    split.
    + apply Forall_fmap, Forall_forall. intros doc _.
      cbn [source_info si_content_preview compose]. apply content_preview_length.
    + split; [reflexivity|]. split; [reflexivity|].
      apply Forall2_fmap_r, Forall_Forall2_diag, Forall_forall. intros doc _. cbv beta.
      split; [reflexivity|]. split; [reflexivity|]. split; [reflexivity|]. split.
      * intros Hle. unfold source_info. cbn [si_content_preview]. unfold content_preview.
        destruct (200 <? length (page_content doc)) eqn:Hlt;
          [apply Nat.ltb_lt in Hlt; lia | reflexivity].
      * intros Hgt. unfold source_info. cbn [si_content_preview]. unfold content_preview.
        destruct (200 <? length (page_content doc)) eqn:Hlt;
          [|apply Nat.ltb_ge in Hlt; lia].
        exists (drop 200 (page_content doc)).
        split; [symmetry; apply take_drop|].
        split; [rewrite length_take; lia | reflexivity].
  - unfold raise, ret. eexists. split; [reflexivity|].
    cbn. repeat split; constructor.
  - unfold ret. eexists. split; [reflexivity|].
    cbn. repeat split; constructor.
Qed.

(** A chunk of 201 characters, the first 200 of them outside ASCII: the
    preview keeps 200 characters and adds the three dots. *)
Lemma query_result_witness :
  exists r,
    query (fun _ _ _ =>
             Ok {| chain_result := Some "yes";
                   chain_source_documents :=
                     Some [{| page_content := replicate 200 0x4E2D%N ++ [0x21%N];
                              metadata := ∅ |}] |})
          "q" 5 empty_world = (Ok r, empty_world) /\
    (si_content_preview <$> q_sources r)
      = [replicate 200 0x4E2D%N ++ [0x2E; 0x2E; 0x2E]%N].
Proof.
  destruct (query_result
              (fun _ _ _ =>
                 Ok {| chain_result := Some "yes";
                       chain_source_documents :=
                         Some [{| page_content := replicate 200 0x4E2D%N ++ [0x21%N];
                                  metadata := ∅ |}] |})
              "q" 5 empty_world) as (r & Hrun & _ & _ & _ & _ & _ & Hsrc).
  exists r. split; [exact Hrun|].
  cbn [default] in Hsrc.
  apply Forall2_cons_inv_l in Hsrc as (s & rest & (_ & _ & _ & _ & Hlong) & Hrest & Heq).
  apply Forall2_nil_inv_l in Hrest as ->.
  destruct Hlong as (tail & _ & _ & Hpreview); [vm_compute; lia|].
  rewrite Heq. cbn [fmap list_fmap]. rewrite Hpreview. reflexivity.
Defined.

(** * The download: [NetDocumentsAPI.download_document] *)

(** An exception, with [str(e)]: [download_document] catches
    [requests.RequestException] and lets every other exception through. *)
Inductive failure :=
| RequestException (msg : string)
| OtherException (msg : string).

Inductive outcome (A : Type) :=
| Done (a : A)
| Failed (f : failure).
Arguments Done {A} a.
Arguments Failed {A} f.

(** The decoded body of the answer to the request for the document info,
    as far as [download_document] reads it: a value Python takes for
    false ([None], an empty object), or an object with its entry
    ["name"]. *)
Inductive info_body :=
| InfoEmpty
| Info (name : field).

(** What [requests.request] followed by [raise_for_status] and [json]
    comes to: the decoded body; a [requests.RequestException] with
    [str(e)] and, when the exception carries a response, its text; or
    another exception. *)
Inductive reply :=
| Answer (body : info_body)
| RequestError (msg : string) (response_text : option string)
| OtherError (msg : string).

(** What [download_document] calls.  [api_request] is the request of
    [_make_request] for a URL; [http_get] is the request for the content
    with [raise_for_status]; [new_temp_file] is the name of the
    [NamedTemporaryFile] created for a suffix; [save_content] is the
    loop that writes the chunks of the response to the path. *)
Record Remote := {
  api_request : World -> string -> reply;
  http_get : World -> string -> outcome unit;
  new_temp_file : World -> string -> outcome string;
  save_content : World -> string -> outcome unit
}.

(** [s.lstrip(c)] and [s.rstrip(c)] for one character. *)
Fixpoint lstrip_char (c : ascii) (s : string) : string :=
  match s with
  | EmptyString => EmptyString
  | String a s' => if Ascii.eqb a c then lstrip_char c s' else s
  end.

Fixpoint rstrip_char (c : ascii) (s : string) : string :=
  match s with
  | EmptyString => EmptyString
  | String a s' =>
      match rstrip_char c s' with
      | EmptyString => if Ascii.eqb a c then EmptyString else String a EmptyString
      | r => String a r
      end
  end.

Definition DEFAULT_BASE_URL : string := "https://api.vault.netvoyage.com".

(** [self.base_url] as [_make_request] leaves it: the attribute when it
    is set, and [config.get("base_url", DEFAULT_BASE_URL)] otherwise,
    which is [None] when the configuration holds a null. *)
Definition client_base_url (base_url : option string) (cfg_base_url : field)
    : option string :=
  if truthy base_url then base_url else get_or DEFAULT_BASE_URL cfg_base_url.

(** [self.access_token] as [_get_headers] and [download_document] leave
    it. *)
Definition client_token (access_token cfg_access_token : option string)
    : option string :=
  if truthy access_token then access_token else cfg_access_token.

(** The URL [_make_request] builds for an endpoint. *)
Definition request_url (base endpoint : string) : string :=
  rstrip_char "/" base +:+ "/" +:+ lstrip_char "/" endpoint.

(** What [_make_request] prints when the request fails. *)
Definition request_failed_lines (msg : string) (response_text : option string)
    : list string :=
  ("API request failed: " +:+ msg)
    :: match response_text with
       | Some t => ["Response: " +:+ t]
       | None => []
       end.

(** [_make_request(endpoint)]: the result and what was printed.  A
    [requests.RequestException] is printed and turned into [None]; the
    exception of [_get_headers] and every other one pass through. *)
Definition make_request (R : Remote) (access_token cfg_access_token base_url : option string)
    (cfg_base_url : field) (endpoint : string) (w : World)
    : outcome info_body * list string :=
  match client_base_url base_url cfg_base_url with
  | None => (Failed (OtherException "'NoneType' object has no attribute 'rstrip'"), [])
  | Some base =>
      let url := request_url base endpoint in
      if negb (truthy (client_token access_token cfg_access_token)) then
        (Failed (OtherException "Not authenticated. Complete OAuth flow first."), [])
      else
        match api_request R w url with
        | Answer body => (Done body, [])
        | RequestError msg response_text =>
            (Done InfoEmpty, request_failed_lines msg response_text)
        | OtherError msg => (Failed (OtherException msg), [])
        end
  end.

Definition get_document_info (R : Remote)
    (access_token cfg_access_token base_url : option string) (cfg_base_url : field)
    (document_id : option string) (w : World) : outcome info_body * list string :=
  make_request R access_token cfg_access_token base_url cfg_base_url
    ("/v1/documents/" +:+ fmt document_id) w.

(** The result, what was printed, and the world. *)
Definition Download : Type := outcome (option string) * list string * World.

(** [except requests.RequestException as e: print(...); return None],
    after [printed] was printed. *)
Definition download_except (document_id : option string) (printed : list string)
    (f : failure) (w : World) : Download :=
  match f with
  | RequestException msg =>
      (Done None,
       printed ++ ["Error downloading document " +:+ fmt document_id +:+ ": " +:+ msg],
       w)
  | OtherException _ => (Failed f, printed, w)
  end.

(** The end of the [try] block: the content is written to [path]. *)
Definition save_and_return (R : Remote) (document_id : option string)
    (printed : list string) (path : string) (w : World) : Download :=
  match save_content R w path with
  | Failed f => download_except document_id printed f w
  | Done _ => (Done (Some path), printed, w)
  end.

(** [access_token] and [base_url] are the attributes of the client when
    the call starts; [cfg_access_token] and [cfg_base_url] are the
    entries of its configuration.  The world records the temporary
    files; a file written under a path given by the caller is not one.
    A name that is null reaches ['.' in filename], which raises. *)
Definition download_document (R : Remote)
    (access_token cfg_access_token base_url : option string) (cfg_base_url : field)
    (document_id save_path : option string) (w : World) : Download :=
  let access_token := client_token access_token cfg_access_token in
  if negb (truthy access_token) then
    (Failed (OtherException "Not authenticated. Complete OAuth flow first."), [], w)
  else
    match get_document_info R access_token cfg_access_token base_url cfg_base_url
            document_id w with
    | (Failed f, printed) => (Failed f, printed, w)
    | (Done InfoEmpty, printed) => (Done None, printed, w)
    | (Done (Info name), printed) =>
        let download_url :=
          fmt (client_base_url base_url cfg_base_url)
            +:+ "/v1/documents/" +:+ fmt document_id +:+ "/content" in
        match http_get R w download_url with
        | Failed f => download_except document_id printed f w
        | Done _ =>
            let filename := get_or ("document_" +:+ fmt document_id) name in
            if truthy save_path then
              save_and_return R document_id printed (default "" save_path) w
            else
              match filename with
              | None =>
                  (Failed (OtherException "argument of type 'NoneType' is not iterable"),
                   printed, w)
              | Some filename =>
                  let suffix := temp_suffix filename in
                  match new_temp_file R w suffix with
                  | Failed f => download_except document_id printed f w
                  | Done p =>
                      save_and_return R document_id printed p
                        (with_temp_files ({[p]} ∪ temp_files w) w)
                  end
              end
        end
    end.

(** ** What a download leaves on disk *)

(** The line printed when a request of [download_document] fails. *)
Definition download_error_line (document_id : option string) (msg : string) : string :=
  "Error downloading document " +:+ fmt document_id +:+ ": " +:+ msg.

(** The URL of the request for the document info. *)
Definition info_url (base : string) (document_id : option string) : string :=
  request_url base ("/v1/documents/" +:+ fmt document_id).

(** The URL of the request for the content. *)
Definition content_url (base : string) (document_id : option string) : string :=
  base +:+ "/v1/documents/" +:+ fmt document_id +:+ "/content".

Lemma get_document_info_answered R access_token cfg_access_token base_url cfg_base_url
    document_id w base body :
  truthy (client_token access_token cfg_access_token) = true ->
  client_base_url base_url cfg_base_url = Some base ->
  api_request R w (info_url base document_id) = Answer body ->
  get_document_info R (client_token access_token cfg_access_token) cfg_access_token
    base_url cfg_base_url document_id w = (Done body, []).
Proof.
  intros Htok Hbase Hinfo. unfold get_document_info, make_request.
  rewrite Hbase. fold (info_url base document_id).
  assert (Ht : client_token (client_token access_token cfg_access_token) cfg_access_token
               = client_token access_token cfg_access_token).
  { unfold client_token at 1. rewrite Htok. reflexivity. }
  rewrite Ht, Htok, Hinfo. reflexivity.
Qed.

(** When the request for the info returned an object, nothing was
    printed and the request was answered. *)
Lemma get_document_info_object R access_token cfg_access_token base_url cfg_base_url
    document_id w name printed :
  get_document_info R access_token cfg_access_token base_url cfg_base_url document_id w
  = (Done (Info name), printed) ->
  printed = [] /\
  exists base,
    client_base_url base_url cfg_base_url = Some base /\
    api_request R w (info_url base document_id) = Answer (Info name).
Proof.
  unfold get_document_info, make_request.
  destruct (client_base_url base_url cfg_base_url) as [base|]; [|discriminate].
  destruct (negb _); [discriminate|]. fold (info_url base document_id).
  destruct (api_request R w (info_url base document_id)) as [body|msg rt|msg] eqn:Hreq;
    try discriminate.
  intros [= -> <-]. split; [reflexivity|]. exists base. auto.
Qed.

(** X21: When the content cannot be saved because the transfer fails, the
    temporary file that was created for it stays on disk, and the caller
    gets [None], from which it cannot learn the name of the file. *)
Theorem download_save_failure_leaves_file (R : Remote)
    (access_token cfg_access_token base_url : option string) (cfg_base_url : field)
    (document_id : option string) (name : field) (base filename p msg : string)
    (w : World) :
  truthy (client_token access_token cfg_access_token) = true ->
  client_base_url base_url cfg_base_url = Some base ->
  api_request R w (info_url base document_id) = Answer (Info name) ->
  http_get R w (content_url base document_id) = Done tt ->
  get_or ("document_" +:+ fmt document_id) name = Some filename ->
  new_temp_file R w (temp_suffix filename) = Done p ->
  save_content R (with_temp_files ({[p]} ∪ temp_files w) w) p
  = Failed (RequestException msg) ->
  exists w',
    download_document R access_token cfg_access_token base_url cfg_base_url
      document_id None w
    = (Done None, [download_error_line document_id msg], w') /\
    p ∈ temp_files w' /\
    temp_files w' = {[p]} ∪ temp_files w.
Proof.
  intros Htok Hbase Hinfo Hget Hname Htmp Hsave. eexists. split.
  - unfold download_document. cbn zeta. rewrite Htok. cbn [negb].
    rewrite (get_document_info_answered R _ _ _ _ _ _ base _ Htok Hbase Hinfo).
    rewrite Hbase. cbn [fmt]. fold (content_url base document_id).
    rewrite Hget, Hname. cbn [truthy]. rewrite Htmp.
    unfold save_and_return. rewrite Hsave. reflexivity.
  - cbn [temp_files with_temp_files]. split; [|reflexivity].
    apply elem_of_union_l, elem_of_singleton. reflexivity.
Qed.

(** X22: A path returned for a download without [save_path] names a temporary
    file that was created by the call and is on disk when it returns; no
    other file appears or disappears, and nothing is printed: the
    request for the document info was answered with an object whose name
    is not null, and the file was created for the suffix of that name. *)
Theorem download_returns_temp_file (R : Remote)
    (access_token cfg_access_token base_url : option string) (cfg_base_url : field)
    (document_id : option string) (p : string) (printed : list string) (w w' : World) :
  download_document R access_token cfg_access_token base_url cfg_base_url
    document_id None w
  = (Done (Some p), printed, w') ->
  p ∈ temp_files w' /\
  temp_files w' = {[p]} ∪ temp_files w /\
  printed = [] /\
  state_file w' = state_file w /\ vector_db w' = vector_db w /\
  exists base name filename,
    client_base_url base_url cfg_base_url = Some base /\
    api_request R w (info_url base document_id) = Answer (Info name) /\
    get_or ("document_" +:+ fmt document_id) name = Some filename /\
    new_temp_file R w (temp_suffix filename) = Done p.
Proof.
  unfold download_document. cbn zeta.
  destruct (negb _); [discriminate|].
  destruct (get_document_info R _ cfg_access_token base_url cfg_base_url document_id w)
    as [[[|name]|f] lines] eqn:Hinfo; try discriminate.
  apply get_document_info_object in Hinfo as (-> & base & Hbase & Hreq).
  destruct (http_get R w _) as [[]|f];
    [|unfold download_except; destruct f; discriminate].
  cbn [truthy].
  destruct (get_or _ name) as [filename|] eqn:Hname; [|discriminate].
  destruct (new_temp_file R w _) as [q|f] eqn:Htmp;
    [|unfold download_except; destruct f; discriminate].
  unfold save_and_return.
  destruct (save_content R _ q) as [[]|f];
    [|unfold download_except; destruct f; discriminate].
  intros [= -> <- <-]. cbn [temp_files with_temp_files state_file vector_db].
  split; [apply elem_of_union_l, elem_of_singleton; reflexivity|].
  repeat split; try reflexivity. exists base, name, filename. auto.
Qed.

(** X23: [None] is returned in four situations only.  The request for the
    document info fails with a [RequestException]: [_make_request]
    prints ["API request failed: ..."], and the text of the response when
    there is one, and no file is created.  The request is answered with
    a body that is [None] or empty: nothing is printed and no file is
    created.  A later request fails before a file is created: the error
    is printed.  Or the transfer fails while the content is saved: the
    error is printed and the file created for it is left behind. *)
Theorem download_returns_none (R : Remote)
    (access_token cfg_access_token base_url : option string) (cfg_base_url : field)
    (document_id : option string) (printed : list string) (w w' : World) :
  download_document R access_token cfg_access_token base_url cfg_base_url
    document_id None w
  = (Done None, printed, w') ->
  state_file w' = state_file w /\ vector_db w' = vector_db w /\
  exists base,
    client_base_url base_url cfg_base_url = Some base /\
    ((exists msg response_text,
        api_request R w (info_url base document_id) = RequestError msg response_text /\
        printed = ("API request failed: " +:+ msg)
                    :: match response_text with
                       | Some t => ["Response: " +:+ t]
                       | None => []
                       end /\
        w' = w)
     \/
     (api_request R w (info_url base document_id) = Answer InfoEmpty /\
      printed = [] /\ w' = w)
     \/
     (exists name msg,
        api_request R w (info_url base document_id) = Answer (Info name) /\
        printed = [download_error_line document_id msg] /\ w' = w)
     \/
     (exists name msg p,
        api_request R w (info_url base document_id) = Answer (Info name) /\
        printed = [download_error_line document_id msg] /\
        save_content R w' p = Failed (RequestException msg) /\
        p ∈ temp_files w' /\ temp_files w' = {[p]} ∪ temp_files w)).
Proof.
  unfold download_document. cbn zeta.
  destruct (negb _); [discriminate|].
  destruct (get_document_info R _ cfg_access_token base_url cfg_base_url document_id w)
    as [[[|name]|f] lines] eqn:Hinfo; try discriminate.
  - unfold get_document_info, make_request in Hinfo.
    destruct (client_base_url base_url cfg_base_url) as [base|]; [|discriminate].
    destruct (negb _); [discriminate|]. fold (info_url base document_id) in Hinfo.
    destruct (api_request R w (info_url base document_id)) as [body|msg rt|msg] eqn:Hreq;
      try discriminate.
    + injection Hinfo as -> <-. intros [= <- <-].
      split; [reflexivity|]. split; [reflexivity|]. exists base.
      split; [reflexivity|]. right. left. auto.
    + injection Hinfo as <-. intros [= <- <-].
      split; [reflexivity|]. split; [reflexivity|]. exists base.
      split; [reflexivity|]. left. exists msg, rt. auto.
  - apply get_document_info_object in Hinfo as (-> & base & Hbase & Hreq).
    destruct (http_get R w _) as [[]|f].
    + cbn [truthy].
      destruct (get_or _ name) as [filename|] eqn:Hname; [|discriminate].
      destruct (new_temp_file R w _) as [q|f] eqn:Htmp.
      * unfold save_and_return.
        destruct (save_content R _ q) as [[]|f] eqn:Hsave; [discriminate|].
        destruct f as [msg|msg]; [|discriminate]. cbn [download_except app].
        intros [= <- <-]. split; [reflexivity|]. split; [reflexivity|].
        exists base. split; [exact Hbase|].
        right. right. right. exists name, msg, q.
        split; [exact Hreq|]. split; [reflexivity|]. split; [exact Hsave|].
        cbn [temp_files with_temp_files]. split; [|reflexivity].
        apply elem_of_union_l, elem_of_singleton. reflexivity.
      * destruct f as [msg|msg]; [|discriminate]. cbn [download_except app].
        intros [= <- <-]. split; [reflexivity|]. split; [reflexivity|].
        exists base. split; [exact Hbase|].
        right. right. left. exists name, msg. auto.
    + destruct f as [msg|msg]; [|discriminate]. cbn [download_except app].
      intros [= <- <-]. split; [reflexivity|]. split; [reflexivity|].
      exists base. split; [exact Hbase|].
      right. right. left. exists name, msg. auto.
Qed.

(** A remote source whose transfers break off. *)
Definition flaky_remote : Remote :=
  {| api_request := fun _ _ => Answer (Info (Str "Report.PDF"));
     http_get := fun _ _ => Done tt;
     new_temp_file := fun _ suffix => Done ("/tmp/tmpab12cd" +:+ suffix);
     save_content := fun _ _ => Failed (RequestException "Connection broken") |}.

Definition flaky_download : Download :=
  download_document flaky_remote (Some "token") None None Absent
    (Some "D1") None empty_world.

Lemma download_save_failure_leaves_file_witness :
  exists w',
    flaky_download
    = (Done None, ["Error downloading document D1: Connection broken"], w') /\
    "/tmp/tmpab12cd.PDF" ∈ temp_files w'.
Proof.
  destruct (download_save_failure_leaves_file flaky_remote (Some "token") None
              None Absent (Some "D1") (Str "Report.PDF")
              "https://api.vault.netvoyage.com" "Report.PDF"
              "/tmp/tmpab12cd.PDF" "Connection broken" empty_world)
    as (w' & Hrun & Hin & _); try reflexivity.
  exists w'. split; [exact Hrun | exact Hin].
Defined.

(** A remote source that does not know the document. *)
Definition missing_remote : Remote :=
  {| api_request := fun _ url =>
       RequestError ("404 Client Error: Not Found for url: " +:+ url)
         (Some "Document not found");
     http_get := http_get flaky_remote;
     new_temp_file := new_temp_file flaky_remote;
     save_content := save_content flaky_remote |}.

Lemma download_returns_none_witness :
  (state_file
     (with_temp_files ({[ "/tmp/tmpab12cd.PDF" ]} ∪ temp_files empty_world) empty_world)
   = state_file empty_world) /\
  download_document missing_remote (Some "token") None
    (Some "https://vault.example.com/") Absent (Some "D1") None empty_world
  = (Done None,
     ["API request failed: 404 Client Error: Not Found for url: "
        +:+ "https://vault.example.com/v1/documents/D1";
      "Response: Document not found"],
     empty_world).
Proof.
  split.
  - apply (download_returns_none flaky_remote (Some "token") None None Absent
             (Some "D1")
             ["Error downloading document D1: Connection broken"] empty_world
             (with_temp_files ({[ "/tmp/tmpab12cd.PDF" ]} ∪ temp_files empty_world)
                empty_world)).
    reflexivity.
  - reflexivity.
Defined.

(** The same source when transfers complete. *)
Definition steady_remote : Remote :=
  {| api_request := api_request flaky_remote;
     http_get := http_get flaky_remote;
     new_temp_file := new_temp_file flaky_remote;
     save_content := fun _ _ => Done tt |}.

Lemma download_returns_temp_file_witness :
  "/tmp/tmpab12cd.PDF"
  ∈ temp_files
      (with_temp_files ({[ "/tmp/tmpab12cd.PDF" ]} ∪ temp_files empty_world) empty_world).
Proof.
  apply (download_returns_temp_file steady_remote (Some "token") None None Absent
           (Some "D1") "/tmp/tmpab12cd.PDF" []
           empty_world
           (with_temp_files ({[ "/tmp/tmpab12cd.PDF" ]} ∪ temp_files empty_world)
              empty_world)).
  reflexivity.
Defined.

(** * Uploads: [process_uploaded_files] of [src/app.py] *)

(** An uploaded file: [uploaded_file.name] and [uploaded_file.getbuffer()]. *)
Record UploadedFile := {
  up_name : string;
  up_buffer : string
}.

(** What the function shows on the page. *)
Inductive ui_event :=
| UiProgressStart
| UiProgress (done total : nat)
| UiStatus (text : string)
| UiError (text : string)
| UiSuccess (text : string)
| UiProgressEmpty
| UiStatusEmpty.

(** Creating a [NamedTemporaryFile(delete=False, suffix=...)], which
    answers the name of the new file or raises, and writing the buffer to
    it, which may raise. *)
Record TempFiles := {
  mkstemp : World -> string -> result string;
  write_buffer : World -> string -> string -> result unit
}.

(** [name.split('.')[-1]]. *)
Definition split_last (name : string) : string :=
  match rfind "." name with
  | Some i => drop_str (S i) name
  | None => name
  end.

(** The variables of the loop: [processed_documents] and what was shown. *)
Record UploadVars := {
  processed_documents : list LangchainDocument;
  ui : list ui_event
}.

Definition show (ev : ui_event) (vars : UploadVars) : UploadVars :=
  {| processed_documents := processed_documents vars; ui := ui vars ++ [ev] |}.

Section Upload.

Variable E : Env.
Variable T : TempFiles.

Definition named_temporary_file (suffix : string) : M string :=
  fun w =>
    match mkstemp T w suffix with
    | Ok p => (Ok p, with_temp_files ({[p]} ∪ temp_files w) w)
    | Raise e => (Raise e, w)
    end.

(** One iteration of the loop over [enumerate(uploaded_files)]. *)
Definition upload_step (total_files : nat) (vars : UploadVars)
    (entry : nat * UploadedFile) : M UploadVars :=
  let i := entry.1 in
  let uploaded_file := entry.2 in
  let vars := show (UiStatus ("Processing " +:+ up_name uploaded_file +:+ "...")) vars in
  try_except
    (tmp_file_path <-
       named_temporary_file ("." +:+ split_last (up_name uploaded_file)) ;;
     call (fun w => write_buffer T w tmp_file_path (up_buffer uploaded_file)) ;;;
     documents <- process_document E tmp_file_path ;;
     os_unlink tmp_file_path ;;;
     ret {| processed_documents := processed_documents vars ++ documents;
            ui := ui vars ++ [UiProgress (i + 1) total_files] |})
    (fun e =>
       ret (show (UiError ("Error processing " +:+ up_name uploaded_file +:+ ": " +:+ e))
              vars)).

Definition upload_loop (uploaded_files : list UploadedFile) : M UploadVars :=
  for_each (upload_step (length uploaded_files)) (imap pair uploaded_files)
    {| processed_documents := []; ui := [UiProgressStart] |}.

Definition success_message (uploaded_files : list UploadedFile) (result : AddResult)
    : string :=
  "Successfully processed " +:+ str_of_int (Z.of_nat (length uploaded_files))
    +:+ " files and added " +:+ str_of_int (Z.of_nat (add_document_count result))
    +:+ " chunks to the knowledge base!".

(** The result is what was shown and [st.session_state.uploaded_files],
    which is [session_files] before the call. *)
Definition process_uploaded_files (session_files : list string)
    (uploaded_files : list UploadedFile) : M (list ui_event * list string) :=
  vars <- upload_loop uploaded_files ;;
  shown <-
    match processed_documents vars with
    | [] => ret (ui vars, session_files)
    | _ :: _ =>
        let vars := show (UiStatus "Adding documents to knowledge base...") vars in
        result <- rag_add_documents E (processed_documents vars) ;;
        if add_success result then
          ret (ui vars ++ [UiSuccess (success_message uploaded_files result)],
               session_files ++ (up_name <$> uploaded_files))
        else
          ret (ui vars ++ [UiError ("Error adding documents to knowledge base: "
                                      +:+ add_message result)],
               session_files)
    end ;;
  ret (shown.1 ++ [UiProgressEmpty; UiStatusEmpty], shown.2).

End Upload.

(** ** One file *)

(** The variables after a file that could not be processed. *)
Definition upload_failed (f : UploadedFile) (e : string) (vars : UploadVars)
    : UploadVars :=
  show (UiError ("Error processing " +:+ up_name f +:+ ": " +:+ e))
    (show (UiStatus ("Processing " +:+ up_name f +:+ "...")) vars).

(** The outcomes of one iteration. *)
Lemma upload_step_cases E T total vars i f w :
  let suffix := "." +:+ split_last (up_name f) in
  match mkstemp T w suffix with
  | Raise e => upload_step E T total vars (i, f) w = (Ok (upload_failed f e vars), w)
  | Ok p =>
      let w1 := with_temp_files ({[p]} ∪ temp_files w) w in
      match write_buffer T w1 p (up_buffer f) with
      | Raise e => upload_step E T total vars (i, f) w = (Ok (upload_failed f e vars), w1)
      | Ok _ =>
          match (process_document E p w1).1 with
          | Raise e =>
              upload_step E T total vars (i, f) w = (Ok (upload_failed f e vars), w1)
          | Ok documents =>
              upload_step E T total vars (i, f) w
              = (Ok {| processed_documents := processed_documents vars ++ documents;
                       ui := ui vars
                               ++ [UiStatus ("Processing " +:+ up_name f +:+ "...");
                                   UiProgress (i + 1) total] |},
                 emit_in (EvUnlink p) (with_temp_files (temp_files w1 ∖ {[p]}) w1))
          end
      end
  end.
Proof.
  cbn zeta.
  assert (Hrun : upload_step E T total vars (i, f) w
    = match mkstemp T w ("." +:+ split_last (up_name f)) with
      | Ok p =>
          let w1 := with_temp_files ({[p]} ∪ temp_files w) w in
          match write_buffer T w1 p (up_buffer f) with
          | Ok _ =>
              match process_document E p w1 with
              | (Ok documents, w2) =>
                  (Ok {| processed_documents :=
                           processed_documents vars ++ documents;
                         ui := (ui vars ++ [UiStatus ("Processing " +:+ up_name f +:+ "...")])
                                 ++ [UiProgress (i + 1) total] |},
                   emit_in (EvUnlink p) (with_temp_files (temp_files w2 ∖ {[p]}) w2))
              | (Raise e, w2) => (Ok (upload_failed f e vars), w2)
              end
          | Raise e => (Ok (upload_failed f e vars), w1)
          end
      | Raise e => (Ok (upload_failed f e vars), w)
      end).
  { unfold upload_step, try_except, bind, named_temporary_file, call, os_unlink, ret.
    cbn [fst snd]. destruct (mkstemp T w _) as [p|e]; [|reflexivity].
    destruct (write_buffer T _ p _) as [[]|e]; [|reflexivity].
    destruct (process_document E p _) as [[documents|e] w2]; reflexivity. }
  rewrite Hrun. clear Hrun.
  destruct (mkstemp T w _) as [p|e]; [|reflexivity].
  cbn zeta. destruct (write_buffer T _ p _) as [[]|e]; [|reflexivity].
  pose proof (process_document_world E p
                (with_temp_files ({[p]} ∪ temp_files w) w)) as Hw.
  destruct (process_document E p _) as [[documents|e] w2]; cbn [fst snd] in *; subst w2;
    [|reflexivity].
  rewrite <- app_assoc. reflexivity.
Qed.

(** The temporary names are new: [mkstemp] never answers the name of a
    file that exists. *)
Definition fresh_names (T : TempFiles) : Prop :=
  forall w suffix p, mkstemp T w suffix = Ok p -> p ∉ temp_files w.

Definition is_success (ev : ui_event) : bool :=
  match ev with UiSuccess _ => true | _ => false end.

(** What every iteration keeps: the store and the state file are
    untouched, what was shown stays shown and no success is shown, and,
    when temporary names are new, no file that existed is removed. *)
Definition upload_progress (T : TempFiles) (vars : UploadVars) (w : World)
    (vars' : UploadVars) (w' : World) : Prop :=
  vector_db w' = vector_db w /\ state_file w' = state_file w /\
  (exists more, ui vars' = ui vars ++ more /\
                Forall (fun ev => is_success ev = false) more) /\
  (fresh_names T -> forall q, q ∈ temp_files w -> q ∈ temp_files w').

Lemma upload_progress_refl T vars w : upload_progress T vars w vars w.
Proof.
  repeat split; auto. exists []. rewrite app_nil_r. split; [reflexivity | constructor].
Qed.

Lemma upload_progress_trans T v1 w1 v2 w2 v3 w3 :
  upload_progress T v1 w1 v2 w2 -> upload_progress T v2 w2 v3 w3 ->
  upload_progress T v1 w1 v3 w3.
Proof.
  intros (D1 & S1 & (m1 & U1 & F1) & K1) (D2 & S2 & (m2 & U2 & F2) & K2).
  split; [congruence|]. split; [congruence|]. split.
  - exists (m1 ++ m2). rewrite U2, U1, <- app_assoc. split; [reflexivity|].
    apply Forall_app. auto.
  - intros Hf q Hq. apply K2, K1; assumption.
Qed.

Lemma upload_failed_progress T f e vars w w' :
  vector_db w' = vector_db w -> state_file w' = state_file w ->
  (forall q, q ∈ temp_files w -> q ∈ temp_files w') ->
  upload_progress T vars w (upload_failed f e vars) w'.
Proof.
  intros Hd Hs Hk. split; [exact Hd|]. split; [exact Hs|]. split; [|auto].
  eexists. unfold upload_failed, show. cbn [ui]. rewrite <- app_assoc.
  split; [reflexivity|]. repeat constructor.
Qed.

Lemma upload_step_progress E T total vars entry w :
  exists vars' w',
    upload_step E T total vars entry w = (Ok vars', w') /\
    upload_progress T vars w vars' w'.
Proof.
  destruct entry as [i f].
  pose proof (upload_step_cases E T total vars i f w) as H. cbn zeta in H.
  destruct (mkstemp T w _) as [p|e] eqn:Hm.
  - destruct (write_buffer T _ p _) as [[]|e].
    + destruct (process_document E p _).1 as [documents|e].
      * eexists _, _. split; [exact H|].
        split; [reflexivity|]. split; [reflexivity|]. split.
        -- eexists. cbn [ui]. split; [reflexivity|]. repeat constructor.
        -- intros Hf q Hq. cbn [temp_files emit_in with_temp_files].
           apply elem_of_difference. split; [apply elem_of_union_r, Hq|].
           intros ->%elem_of_singleton. exact (Hf _ _ _ Hm Hq).
      * eexists _, _. split; [exact H|].
        apply upload_failed_progress; try reflexivity.
        intros q Hq. cbn [temp_files with_temp_files]. apply elem_of_union_r, Hq.
    + eexists _, _. split; [exact H|].
      apply upload_failed_progress; try reflexivity.
      intros q Hq. cbn [temp_files with_temp_files]. apply elem_of_union_r, Hq.
  - eexists _, _. split; [exact H|].
    apply upload_failed_progress; auto.
Qed.

Lemma upload_steps_progress E T total (entries : list (nat * UploadedFile)) :
  forall vars w,
    exists vars' w',
      for_each (upload_step E T total) entries vars w = (Ok vars', w') /\
      upload_progress T vars w vars' w'.
Proof.
  induction entries as [|x l IH]; intros vars w.
  - exists vars, w. split; [reflexivity | apply upload_progress_refl].
  - cbn [for_each]. unfold bind.
    destruct (upload_step_progress E T total vars x w) as (v1 & w1 & -> & H1).
    destruct (IH v1 w1) as (v2 & w2 & -> & H2).
    exists v2, w2. split; [reflexivity|]. eapply upload_progress_trans; eassumption.
Qed.

(** The world in which the file at position [n] is reached. *)
Definition world_at (E : Env) (T : TempFiles) (uploaded_files : list UploadedFile)
    (n : nat) (w : World) : World :=
  (for_each (upload_step E T (length uploaded_files))
     (take n (imap pair uploaded_files))
     {| processed_documents := []; ui := [UiProgressStart] |} w).2.

(** The chunks the file at position [n] contributes: those of its
    temporary file when that file could be created, written and
    processed, and none otherwise. *)
Definition upload_chunks (E : Env) (T : TempFiles) (uploaded_files : list UploadedFile)
    (w : World) (n : nat) : list LangchainDocument :=
  match uploaded_files !! n with
  | None => []
  | Some f =>
      let w_n := world_at E T uploaded_files n w in
      match mkstemp T w_n ("." +:+ split_last (up_name f)) with
      | Raise _ => []
      | Ok p =>
          let w_p := with_temp_files ({[p]} ∪ temp_files w_n) w_n in
          match write_buffer T w_p p (up_buffer f) with
          | Raise _ => []
          | Ok _ =>
              match (process_document E p w_p).1 with
              | Ok documents => documents
              | Raise _ => []
              end
          end
      end
  end.

(** The chunks of the files that could be processed, file after file. *)
Definition all_upload_chunks (E : Env) (T : TempFiles)
    (uploaded_files : list UploadedFile) (w : World) : list LangchainDocument :=
  concat (upload_chunks E T uploaded_files w <$> seq 0 (length uploaded_files)).

Lemma upload_prefix_chunks E T uploads w n :
  n <= length uploads ->
  exists vars w',
    for_each (upload_step E T (length uploads)) (take n (imap pair uploads))
      {| processed_documents := []; ui := [UiProgressStart] |} w = (Ok vars, w') /\
    processed_documents vars
    = concat (upload_chunks E T uploads w <$> seq 0 n).
Proof.
  induction n as [|n IH]; intros Hn.
  - eexists _, _. split; reflexivity.
  - destruct IH as (v & w_n & Hrun & Hdocs); [lia|].
    destruct (lookup_lt_is_Some_2 uploads n) as [f Hf]; [lia|].
    assert (HL : imap pair uploads !! n = Some (n, f)).
    { rewrite list_lookup_imap, Hf. reflexivity. }
    rewrite (take_S_r _ _ _ HL), for_each_app, Hrun.
    cbn [for_each]. unfold bind.
    rewrite seq_S, fmap_app, concat_app. cbn [fmap list_fmap concat Nat.add].
    rewrite app_nil_r, <- Hdocs.
    assert (Hw : world_at E T uploads n w = w_n).
    { unfold world_at. rewrite Hrun. reflexivity. }
    unfold upload_chunks at 1. rewrite Hf. cbn zeta. rewrite Hw.
    pose proof (upload_step_cases E T (length uploads) v n f w_n) as Hstep.
    cbn zeta in Hstep.
    destruct (mkstemp T w_n _) as [p|e].
    + destruct (write_buffer T _ p _) as [[]|e].
      * destruct (process_document E p _).1 as [documents|e]; rewrite Hstep.
        -- eexists _, _. split; reflexivity.
        -- eexists _, _. split; [reflexivity|]. cbn. rewrite app_nil_r. reflexivity.
      * rewrite Hstep. eexists _, _. split; [reflexivity|].
        cbn. rewrite app_nil_r. reflexivity.
    + rewrite Hstep. eexists _, _. split; [reflexivity|].
      cbn. rewrite app_nil_r. reflexivity.
Qed.

Lemma upload_loop_chunks E T uploads w vars w1 :
  upload_loop E T uploads w = (Ok vars, w1) ->
  processed_documents vars = all_upload_chunks E T uploads w /\
  w1 = world_at E T uploads (length uploads) w.
Proof.
  intros Hloop.
  destruct (upload_prefix_chunks E T uploads w (length uploads) (le_n _))
    as (v & w' & Hrun & Hdocs).
  assert (Htake : take (length uploads) (imap pair uploads) = imap pair uploads).
  { apply take_ge. rewrite length_imap. lia. }
  unfold world_at. unfold upload_loop in Hloop.
  rewrite Htake in Hrun |- *.
  rewrite Hloop in Hrun |- *. injection Hrun as <- <-.
  split; [exact Hdocs | reflexivity].
Qed.

(** The message shown when the store refuses the chunks with [e]. *)
Definition upload_store_error (e : string) : ui_event :=
  UiError ("Error adding documents to knowledge base: Error adding documents: "
             +:+ "Error adding documents to vector store: " +:+ e).

(** The end of the function after the loop. *)
Lemma after_upload_loop E T session uploads w vars w1 :
  upload_loop E T uploads w = (Ok vars, w1) ->
  exists shown session' w',
    process_uploaded_files E T session uploads w = (Ok (shown, session'), w') /\
    temp_files w' = temp_files w1 /\
    state_file w' = state_file w1 /\
    (forall ev, ev ∈ ui vars -> ev ∈ shown) /\
    let nothing_stored :=
      session' = session /\
      vector_db w' = vector_db w1 /\
      forall msg, UiSuccess msg ∈ shown -> UiSuccess msg ∈ ui vars in
    match processed_documents vars with
    | [] => nothing_stored
    | _ :: _ =>
        match chroma_add_documents E w1 (processed_documents vars)
                (store_ids (processed_documents vars)) with
        | Raise e => nothing_stored /\ upload_store_error e ∈ shown
        | Ok _ =>
            session' = session ++ (up_name <$> uploads) /\
            vector_db w'
            = upsert_all (store_ids (processed_documents vars))
                (processed_documents vars) (vector_db w1) /\
            UiSuccess ("Successfully processed "
                         +:+ str_of_int (Z.of_nat (length uploads))
                         +:+ " files and added "
                         +:+ str_of_int (Z.of_nat (length (processed_documents vars)))
                         +:+ " chunks to the knowledge base!") ∈ shown
        end
    end.
Proof.
  intros Hloop. unfold process_uploaded_files. unfold bind at 1. rewrite Hloop.
  destruct (processed_documents vars) as [|doc docs] eqn:Hdocs.
  - unfold bind, ret. cbn [fst snd]. eexists _, _, _. split; [reflexivity|].
    split; [reflexivity|]. split; [reflexivity|]. split.
    + intros ev Hev. apply elem_of_app. left. exact Hev.
    + cbn zeta. split; [reflexivity|]. split; [reflexivity|].
      intros msg [H|H]%elem_of_app; [exact H|].
      apply elem_of_cons in H as [H|H]; [discriminate|].
      apply elem_of_cons in H as [H|H]; [discriminate|].
      apply elem_of_nil in H. contradiction.
  - cbn [show processed_documents ui]. rewrite Hdocs.
    destruct (chroma_add_documents E w1 (doc :: docs) (store_ids (doc :: docs)))
      as [[]|e] eqn:Hc.
    + destruct (rag_add_documents_stored E (doc :: docs) w1 Hc)
        as (r & Hr & Hs & _ & Hn).
      unfold bind. rewrite Hr, Hs. unfold ret. cbn [fst snd].
      eexists _, _, _. split; [reflexivity|].
      split; [reflexivity|]. split; [reflexivity|]. split.
      * intros ev Hev. rewrite <- !app_assoc. apply elem_of_app. left. exact Hev.
      * cbn zeta. split; [reflexivity|].
        cbn [vector_db emit_in with_vector_db]. split; [reflexivity|].
        unfold success_message. rewrite Hn.
        apply elem_of_app. left. apply elem_of_app. right.
        apply list_elem_of_here.
    + unfold bind. rewrite (rag_add_documents_caught E (doc :: docs) w1 e Hc).
      cbn [add_success add_message]. unfold ret. cbn [fst snd].
      eexists _, _, _. split; [reflexivity|].
      split; [reflexivity|]. split; [reflexivity|]. split.
      * intros ev Hev. rewrite <- !app_assoc. apply elem_of_app. left. exact Hev.
      * cbn zeta. split.
        -- split; [reflexivity|]. split; [reflexivity|].
           intros msg H. rewrite <- !app_assoc in H.
           apply elem_of_app in H as [H|H]; [exact H|].
           repeat (apply elem_of_cons in H as [H|H]; [discriminate|]).
           apply elem_of_nil in H. contradiction.
        -- apply elem_of_app. left. apply elem_of_app. right.
           apply list_elem_of_here.
Qed.

(** X24: [process_uploaded_files] never raises and leaves the state file
    alone.  The chunks it handles are those of the files whose temporary
    copy could be created, written and processed, file after file.  When
    there is none, or when the store refuses them, nothing is stored, the
    list of uploaded names is as before and no success is shown (the
    refusal is shown as an error); otherwise these chunks are written to
    the store in one batch, under distinct identifiers, the names of all
    uploaded files are appended to the list, those of the files that
    failed included, and the success message counts every uploaded file
    and these chunks. *)
Theorem process_uploaded_files_result (E : Env) (T : TempFiles) (session : list string)
    (uploads : list UploadedFile) (w : World) :
  let w' := (process_uploaded_files E T session uploads w).2 in
  let docs := all_upload_chunks E T uploads w in
  let w_end := world_at E T uploads (length uploads) w in
  exists shown session',
    (process_uploaded_files E T session uploads w).1 = Ok (shown, session') /\
    state_file w' = state_file w /\
    let nothing_stored :=
      session' = session /\ vector_db w' = vector_db w /\
      forall msg, UiSuccess msg ∉ shown in
    match docs with
    | [] => nothing_stored
    | _ :: _ =>
        match chroma_add_documents E w_end docs (store_ids docs) with
        | Raise e => nothing_stored /\ upload_store_error e ∈ shown
        | Ok _ =>
            session' = session ++ (up_name <$> uploads) /\
            vector_db w' = upsert_all (store_ids docs) docs (vector_db w) /\
            NoDup (store_ids docs) /\
            UiSuccess ("Successfully processed "
                         +:+ str_of_int (Z.of_nat (length uploads))
                         +:+ " files and added " +:+ str_of_int (Z.of_nat (length docs))
                         +:+ " chunks to the knowledge base!") ∈ shown
        end
    end.
Proof.
  cbn zeta.
  destruct (upload_steps_progress E T (length uploads) (imap pair uploads)
              {| processed_documents := []; ui := [UiProgressStart] |} w)
    as (vars & w1 & Hloop & Hd & Hs & (more & Hui & Hmore) & _).
  destruct (upload_loop_chunks E T uploads w vars w1 Hloop) as [Hdocs Hw1].
  destruct (after_upload_loop E T session uploads w vars w1 Hloop)
    as (shown & session' & w' & Hrun & _ & Hstate & _ & Hcases).
  rewrite Hrun. cbn [fst snd]. cbn zeta in Hcases.
  rewrite Hdocs in Hcases. rewrite <- Hw1.
  exists shown, session'. split; [reflexivity|]. split; [congruence|].
  assert (Hnone : session' = session /\ vector_db w' = vector_db w1 /\
                  (forall msg, UiSuccess msg ∈ shown -> UiSuccess msg ∈ ui vars) ->
                  session' = session /\ vector_db w' = vector_db w /\
                  forall msg, UiSuccess msg ∉ shown).
  { intros (Hsess & Hdb & Hno). split; [exact Hsess|]. split; [congruence|].
    intros msg Hin. apply Hno in Hin. rewrite Hui in Hin. cbn [ui] in Hin.
    apply elem_of_cons in Hin as [Hin|Hin]; [discriminate|].
    rewrite Forall_forall in Hmore. specialize (Hmore _ Hin). discriminate. }
  destruct (all_upload_chunks E T uploads w) as [|doc docs]; [apply Hnone, Hcases|].
  destruct (chroma_add_documents E _ (doc :: docs) _) as [[]|e].
  - destruct Hcases as (Hsess & Hdb & Hmsg).
    split; [exact Hsess|]. split; [rewrite Hdb, Hd; reflexivity|].
    split; [apply store_ids_NoDup | exact Hmsg].
  - destruct Hcases as [Hn Herr]. split; [apply Hnone, Hn | exact Herr].
Qed.

(** X25: A file whose processing raises leaves its temporary file behind: the
    [unlink] is skipped, the error is shown, and the file is still there
    when [process_uploaded_files] returns. *)
Theorem failed_upload_leaves_temp_file (E : Env) (T : TempFiles) (session : list string)
    (uploads : list UploadedFile) (n : nat) (f : UploadedFile) (p e : string)
    (w : World) :
  fresh_names T ->
  uploads !! n = Some f ->
  let w_n := world_at E T uploads n w in
  let w_p := with_temp_files ({[p]} ∪ temp_files w_n) w_n in
  mkstemp T w_n ("." +:+ split_last (up_name f)) = Ok p ->
  write_buffer T w_p p (up_buffer f) = Ok tt ->
  (process_document E p w_p).1 = Raise e ->
  p ∈ temp_files (process_uploaded_files E T session uploads w).2 /\
  exists shown session',
    (process_uploaded_files E T session uploads w).1 = Ok (shown, session') /\
    UiError ("Error processing " +:+ up_name f +:+ ": " +:+ e) ∈ shown.
Proof.
  intros Hfresh Hn. cbn zeta. intros Hm Hwr Hp.
  set (L := imap pair uploads).
  assert (HL : L !! n = Some (n, f)).
  { unfold L. rewrite list_lookup_imap, Hn. reflexivity. }
  pose proof (take_drop_middle L n (n, f) HL) as Hsplit.
  destruct (upload_steps_progress E T (length uploads) (take n L)
              {| processed_documents := []; ui := [UiProgressStart] |} w)
    as (v1 & w1 & Hrun1 & _).
  assert (Hw1 : world_at E T uploads n w = w1).
  { unfold world_at. fold L. rewrite Hrun1. reflexivity. }
  rewrite Hw1 in Hm, Hwr, Hp.
  pose proof (upload_step_cases E T (length uploads) v1 n f w1) as Hstep.
  cbn zeta in Hstep. rewrite Hm, Hwr, Hp in Hstep.
  destruct (upload_steps_progress E T (length uploads) (drop (S n) L)
              (upload_failed f e v1) (with_temp_files ({[p]} ∪ temp_files w1) w1))
    as (v3 & w3 & Hrun3 & _ & _ & (more & Hui & _) & Hkeep).
  assert (Hloop : upload_loop E T uploads w = (Ok v3, w3)).
  { unfold upload_loop. fold L. rewrite <- Hsplit, for_each_app, Hrun1.
    cbn [for_each]. unfold bind. rewrite Hstep. exact Hrun3. }
  destruct (after_upload_loop E T session uploads w v3 w3 Hloop)
    as (shown & session' & w' & Hrun & Hfiles & _ & Hshown & _).
  rewrite Hrun. cbn [fst snd]. split.
  - rewrite Hfiles. apply (Hkeep Hfresh). cbn [temp_files with_temp_files].
    apply elem_of_union_l, elem_of_singleton. reflexivity.
  - exists shown, session'. split; [reflexivity|]. apply Hshown.
    rewrite Hui. apply elem_of_app. left. unfold upload_failed, show. cbn [ui].
    apply elem_of_app. right. apply list_elem_of_here.
Qed.

(** A source of temporary names that refuses a name that is taken. *)
Definition demo_temp_files : TempFiles :=
  {| mkstemp := fun w suffix =>
       if decide ("/tmp/tmpx" +:+ suffix ∈ temp_files w)
       then Raise "[Errno 17] File exists"
       else Ok ("/tmp/tmpx" +:+ suffix);
     write_buffer := fun _ _ _ => Ok tt |}.

(** Two uploads, of which the second cannot be processed: the chunk of
    the first is stored and both names are appended. *)
Lemma process_uploaded_files_result_witness :
  exists shown session',
    (process_uploaded_files demo_env demo_temp_files ["old.pdf"]
       [{| up_name := "notes.txt"; up_buffer := "hello" |};
        {| up_name := "setup.exe"; up_buffer := "MZ" |}] empty_world).1
    = Ok (shown, session') /\
    session' = ["old.pdf"; "notes.txt"; "setup.exe"] /\
    UiSuccess "Successfully processed 2 files and added 1 chunks to the knowledge base!"
      ∈ shown.
Proof.
  destruct (process_uploaded_files_result demo_env demo_temp_files ["old.pdf"]
              [{| up_name := "notes.txt"; up_buffer := "hello" |};
               {| up_name := "setup.exe"; up_buffer := "MZ" |}] empty_world)
    as (shown & session' & Hrun & _ & Hcases).
  exists shown, session'. split; [exact Hrun|].
  destruct Hcases as (Hsess & _ & _ & Hmsg). split; [exact Hsess | exact Hmsg].
Defined.

Lemma failed_upload_leaves_temp_file_witness :
  "/tmp/tmpx.exe"
  ∈ temp_files (process_uploaded_files demo_env demo_temp_files []
                  [{| up_name := "setup.exe"; up_buffer := "MZ" |}] empty_world).2.
Proof.
  apply (failed_upload_leaves_temp_file demo_env demo_temp_files []
           [{| up_name := "setup.exe"; up_buffer := "MZ" |}] 0
           {| up_name := "setup.exe"; up_buffer := "MZ" |}
           "/tmp/tmpx.exe" "Unsupported file type: .exe" empty_world).
  - intros w suffix p. unfold demo_temp_files. cbn [mkstemp].
    destruct (decide _) as [|Hn]; [discriminate|]. intros [= <-]. exact Hn.
  - reflexivity.
  - reflexivity.
  - reflexivity.
  - vm_compute. reflexivity.
Defined.

(** * Failures and the next run *)

(** No document of the list that carries the id of [d] can be synced. *)
Definition never_synced (E : Env) (docs : list DocumentRecord) (d : DocumentRecord)
    : Prop :=
  forall d' w, d' ∈ docs -> doc_id d' = doc_id d -> sync_succeeded E d' w = false.

Lemma sync_loop_never_synced E d docs :
  never_synced E docs d ->
  forall vars w vars' w',
    for_each (sync_step E) docs vars w = (Ok vars', w') ->
    (forall k, doc_id d = Some k ->
       synced_documents (v_sync_state vars') !! k
       = synced_documents (v_sync_state vars) !! k) /\
    exists new,
      v_failed_docs vars' = v_failed_docs vars ++ new /\
      (d ∈ docs -> should_sync_document d (v_sync_state vars) = Ok true ->
       exists msg, failure_of d (Some msg) ∈ new).
Proof.
  induction docs as [|x l IH]; intros Hnever vars w vars' w' Hrun.
  - cbn [for_each] in Hrun. injection Hrun as <- <-. split; [auto|].
    exists []. rewrite app_nil_r. split; [reflexivity|].
    intros Hin. apply elem_of_nil in Hin. contradiction.
  - cbn [for_each] in Hrun. unfold bind in Hrun.
    assert (Hl : never_synced E l d).
    { intros d' w0 Hin. apply Hnever. apply elem_of_cons. auto. }
    destruct (sync_step_cases E vars x w)
      as [(Hskip & Hstep)|[(Hel & Hfail & msg & w1 & Hdoc & Hstep)
                          |[(Hel & Hok & w1 & Hdoc & Hstep)|(e & Hel & Hstep)]]];
      rewrite Hstep in Hrun; [| | |discriminate].
    + destruct (IH Hl _ _ _ _ Hrun) as (Hk & new & Hnew & Hd).
      split; [exact Hk|]. exists new. split; [exact Hnew|].
      intros [->|Hin]%elem_of_cons Hs; [congruence | auto].
    + destruct (IH Hl _ _ _ _ Hrun) as (Hk & new & Hnew & Hd).
      cbn [vars_failed v_sync_state v_failed_docs] in Hk, Hnew, Hd.
      split; [exact Hk|]. exists (failure_of x (Some msg) :: new). split.
      * rewrite Hnew, <- app_assoc. reflexivity.
      * intros [->|Hin]%elem_of_cons Hs.
        -- exists msg. apply list_elem_of_here.
        -- destruct (Hd Hin Hs) as (m & Hm). exists m. apply list_elem_of_further, Hm.
    + destruct (IH Hl _ _ _ _ Hrun) as (Hk & new & Hnew & Hd).
      cbn [vars_synced v_sync_state v_failed_docs] in Hk, Hnew, Hd.
      assert (Hne : doc_id x <> doc_id d).
      { intros Heq. rewrite (Hnever x w) in Hok; [discriminate| |exact Heq].
        apply list_elem_of_here. }
      assert (Hsame : forall k, doc_id d = Some k ->
                synced_documents
                  (record_synced x (isoformat_now E (clock w1)) (v_sync_state vars)) !! k
                = synced_documents (v_sync_state vars) !! k).
      { intros k Hdk. apply record_synced_lookup_ne. congruence. }
      split.
      * intros k Hdk. rewrite (Hk k Hdk). apply Hsame, Hdk.
      * exists new. split; [exact Hnew|].
        intros [->|Hin]%elem_of_cons Hs; [congruence|].
        apply Hd; [exact Hin|].
        rewrite <- Hs. symmetry. apply should_sync_document_ext.
        intros k Hdk. symmetry. apply Hsame, Hdk.
Qed.

(** X26: A document that cannot be synced stays as eligible as it was: a
    batch that returns leaves the entry under its id untouched, so the
    decision of [should_sync_document] for it is the same in the state
    written as in the state loaded, and if it was eligible, its failure
    is in the report and in the state.  The next run attempts it again.
    The batch returns when every record of the list can be checked. *)
Theorem failed_document_stays_eligible (E : Env) (docs : list DocumentRecord)
    (d : DocumentRecord) (w : World) :
  d ∈ docs ->
  (forall d' w', d' ∈ docs -> doc_id d' = doc_id d -> sync_succeeded E d' w' = false) ->
  (Forall (fun d => checkable d = true) docs ->
   exists report, (sync_documents E docs w).1 = Ok report) /\
  forall report,
    (sync_documents E docs w).1 = Ok report ->
    exists st',
      state_file (sync_documents E docs w).2 = Some st' /\
      (forall k, doc_id d = Some k ->
         synced_documents st' !! k = synced_documents (loaded w) !! k) /\
      should_sync_document d st' = should_sync_document d (loaded w) /\
      (should_sync_document d (loaded w) = Ok true ->
       exists msg,
         failure_of d (Some msg) ∈ report_failed_documents report /\
         failure_of d (Some msg) ∈ failed_documents st').
Proof.
  intros Hin Hnever. split.
  { intros Hc. destruct (sync_documents_total E docs w Hc) as (report & w' & H).
    exists report. rewrite H. reflexivity. }
  intros report Hret.
  destruct (sync_documents_returns E docs w report Hret) as (vars & w1 & Hloop & ->).
  rewrite (sync_documents_eq E docs w vars w1 Hloop). cbn [fst snd].
  destruct (sync_loop_never_synced E d docs Hnever _ _ _ _ Hloop)
    as (Hk & new & Hnew & Hfail).
  cbn [init_vars v_sync_state v_failed_docs app] in Hk, Hnew, Hfail.
  unfold commit_world. rewrite log_sync_activity_eq.
  cbn [snd state_file emit_in tick_in with_state_file].
  eexists. split; [reflexivity|].
  cbn [final_state synced_documents failed_documents report_of report_failed_documents].
  split; [exact Hk|]. split.
  - apply should_sync_document_ext. intros k Hdk. cbn [synced_documents]. apply Hk, Hdk.
  - intros Hs. destruct (Hfail Hin Hs) as (msg & Hm). exists msg.
    rewrite Hnew. split; exact Hm.
Qed.

Lemma failed_document_stays_eligible_witness :
  exists st',
    state_file (sync_documents demo_env [doc_a; doc_b] empty_world).2 = Some st' /\
    should_sync_document doc_b st' = Ok true.
Proof.
  destruct (failed_document_stays_eligible demo_env [doc_a; doc_b] doc_b empty_world)
    as [Hret Hstate].
  - apply list_elem_of_further, list_elem_of_here.
  - intros d' w' Hin Hid.
    assert (Hd' : doc_id d' = Some "B") by (rewrite Hid; reflexivity).
    unfold sync_succeeded.
    destruct (sync_document_download_fails demo_env d') with (w := w')
      as (msg & w2 & ->); [|reflexivity].
    intros w0. rewrite Hd'. exact I.
  - destruct Hret as [report Hr]; [repeat constructor|].
    destruct (Hstate report Hr) as (st' & Hst & _ & Hs & _).
    exists st'. split; [exact Hst|]. rewrite Hs. reflexivity.
Defined.

(** * The download requests of a batch *)

(** From [w] to [w'] the trace grows by events whose download requests
    are [ids]. *)
Definition requests (ids : list (option string)) (w w' : World) : Prop :=
  exists evs, trace w' = trace w ++ evs /\ downloads_in evs = ids.

Lemma downloads_in_app a b : downloads_in (a ++ b) = downloads_in a ++ downloads_in b.
Proof. apply omap_app. Qed.

Lemma requests_refl w : requests [] w w.
Proof. exists []. rewrite app_nil_r. split; reflexivity. Qed.

Lemma requests_app a b w1 w2 w3 :
  requests a w1 w2 -> requests b w2 w3 -> requests (a ++ b) w1 w3.
Proof.
  intros (e1 & T1 & D1) (e2 & T2 & D2). exists (e1 ++ e2).
  rewrite T2, T1, <- app_assoc, downloads_in_app, D1, D2. split; reflexivity.
Qed.

Lemma no_requests_trans w1 w2 w3 :
  requests [] w1 w2 -> requests [] w2 w3 -> requests [] w1 w3.
Proof. intros H1 H2. exact (requests_app [] [] _ _ _ H1 H2). Qed.

Lemma no_requests_same_trace w w' : trace w' = trace w -> requests [] w w'.
Proof. intros H. exists []. rewrite app_nil_r. split; [exact H | reflexivity]. Qed.

Lemma no_requests_log E m l : preserves (requests []) (log_sync_activity E m l).
Proof.
  intros w. rewrite log_sync_activity_eq. cbn [snd]. eexists. split; reflexivity.
Qed.

Lemma no_requests_failure E (m : string) :
  preserves (requests [])
    (log_sync_activity E m "ERROR" ;;; ret (false, Some m)).
Proof.
  apply (preserves_bind (requests []) no_requests_trans); [apply no_requests_log|].
  intros _. apply preserves_ret, requests_refl.
Qed.

Lemma no_requests_rag_add_documents E docs :
  preserves (requests []) (rag_add_documents E docs).
Proof.
  intros w.
  destruct (chroma_add_documents E w docs (store_ids docs)) as [[]|e] eqn:Hc.
  - destruct (rag_add_documents_stored E docs w Hc) as (r & -> & _).
    cbn [snd]. eexists. split; reflexivity.
  - rewrite (rag_add_documents_caught E docs w e Hc). apply requests_refl.
Qed.

Lemma no_requests_process_and_index E d p :
  preserves (requests []) (process_and_index E d p).
Proof.
  unfold process_and_index.
  apply (preserves_bind (requests []) no_requests_trans).
  { intros w. rewrite process_document_world. apply requests_refl. }
  intros docs. apply (preserves_bind (requests []) no_requests_trans).
  { intros w. apply no_requests_same_trace.
    apply (map_m_metadata_world E d (name_or_default d) docs w). }
  intros docs'. apply (preserves_bind (requests []) no_requests_trans).
  - destruct (rag_pipeline E); [|apply preserves_ret, requests_refl].
    apply (preserves_bind (requests []) no_requests_trans);
      [apply no_requests_rag_add_documents|].
    intros r. destruct (negb _); [|apply preserves_ret, requests_refl].
    apply (preserves_bind (requests []) no_requests_trans); [apply no_requests_log|].
    intros _. apply preserves_ret, requests_refl.
  - intros [msg|]; [apply preserves_ret, requests_refl|].
    apply (preserves_bind (requests []) no_requests_trans); [apply no_requests_log|].
    intros _. apply preserves_ret, requests_refl.
Qed.

Lemma no_requests_cleanup p : preserves (requests []) (cleanup p).
Proof.
  intros w. unfold cleanup, bind, os_path_exists, os_unlink.
  destruct (bool_decide _); cbn [snd]; [|apply requests_refl].
  eexists. split; reflexivity.
Qed.

(** One attempt issues one download request, for the id of the document. *)
Lemma sync_document_requests E d w :
  requests [doc_id d] w (sync_document E d w).2.
Proof.
  assert (Hexc : forall e, preserves (requests []) (sync_document_except E d e)).
  { intros e. apply no_requests_failure. }
  assert (Hfin : forall p, preserves (requests [])
                             (try_finally (process_and_index E d p) (cleanup p))).
  { intros p. apply (preserves_try_finally (requests []) no_requests_trans);
      [apply no_requests_process_and_index | apply no_requests_cleanup]. }
  unfold sync_document, try_except, sync_document_try.
  unfold bind at 1. rewrite log_sync_activity_eq.
  set (w1 := emit_in _ (tick_in w)).
  unfold bind at 1. unfold api_download at 1.
  set (w2 := emit_in (EvDownload (doc_id d)) w1).
  assert (Hw2 : requests [doc_id d] w w2).
  { subst w2 w1. eexists. cbn [trace emit_in tick_in]. rewrite <- app_assoc.
    split; reflexivity. }
  assert (Hgoal : forall w3, requests [] w2 w3 -> requests [doc_id d] w w3).
  { intros w3 H. exact (requests_app [doc_id d] [] _ _ _ Hw2 H). }
  destruct (api_download_document E w1 (doc_id d)) as [[p|]|e].
  - set (w3 := with_temp_files _ w2).
    assert (H23 : requests [] w2 w3) by (apply no_requests_same_trace; reflexivity).
    destruct (nonempty p).
    + pose proof (Hfin p w3) as H.
      destruct (try_finally _ _ w3) as [[r|e] w4]; cbn [snd] in H; apply Hgoal.
      * exact (no_requests_trans _ _ _ H23 H).
      * exact (no_requests_trans _ _ _ (no_requests_trans _ _ _ H23 H) (Hexc e w4)).
    + pose proof (no_requests_failure E
                    ("Failed to download document " +:+ display_name d) w3) as H.
      destruct (bind _ _ w3) as [[r|e] w4]; cbn [snd] in H; apply Hgoal.
      * exact (no_requests_trans _ _ _ H23 H).
      * exact (no_requests_trans _ _ _ (no_requests_trans _ _ _ H23 H) (Hexc e w4)).
  - pose proof (no_requests_failure E
                  ("Failed to download document " +:+ display_name d) w2) as H.
    destruct (bind _ _ w2) as [[r|e'] w4]; cbn [snd] in H; apply Hgoal.
    + exact H.
    + exact (no_requests_trans _ _ _ H (Hexc e' w4)).
  - apply Hgoal. apply Hexc.
Qed.

Lemma sync_loop_requests E docs :
  forall vars w vars' w',
    for_each (sync_step E) docs vars w = (Ok vars', w') ->
    exists ids,
      requests ids w w' /\
      ids `sublist_of` (doc_id <$> docs) /\
      v_synced_count vars' + v_failed_count vars'
      = v_synced_count vars + v_failed_count vars + length ids.
Proof.
  induction docs as [|x l IH]; intros vars w vars' w' Hrun.
  - cbn [for_each] in Hrun. injection Hrun as <- <-.
    exists []. split; [apply requests_refl|]. split; [constructor | cbn; lia].
  - cbn [for_each] in Hrun. unfold bind in Hrun.
    pose proof (sync_document_requests E x w) as Hx.
    destruct (sync_step_cases E vars x w)
      as [(Hskip & Hstep)|[(Hel & Hfail & msg & w1 & Hdoc & Hstep)
                          |[(Hel & Hok & w1 & Hdoc & Hstep)|(e & Hel & Hstep)]]];
      rewrite Hstep in Hrun; [| | |discriminate];
      destruct (IH _ _ _ _ Hrun) as (ids & Hreq & Hsub & Hcount).
    + exists ids. split; [exact Hreq|]. split; [|exact Hcount].
      rewrite fmap_cons. apply sublist_cons, Hsub.
    + rewrite Hdoc in Hx. cbn [snd] in Hx.
      exists (doc_id x :: ids). split; [exact (requests_app [_] ids _ _ _ Hx Hreq)|].
      split; [rewrite fmap_cons; apply sublist_skip, Hsub|].
      cbn [vars_failed v_synced_count v_failed_count] in Hcount. cbn [length]. lia.
    + rewrite Hdoc in Hx. cbn [snd] in Hx.
      assert (Htick : requests [] w1 (tick_in w1))
        by (apply no_requests_same_trace; reflexivity).
      exists (doc_id x :: ids). split.
      * replace (doc_id x :: ids) with (([doc_id x] ++ []) ++ ids) by reflexivity.
        exact (requests_app _ ids _ _ _ (requests_app _ _ _ _ _ Hx Htick) Hreq).
      * split; [rewrite fmap_cons; apply sublist_skip, Hsub|].
        cbn [vars_synced v_synced_count v_failed_count] in Hcount. cbn [length]. lia.
Qed.

(** X27: A batch requests one download per attempted document and none for a
    skipped one: the ids of the download requests, in the order in which
    they were made, are a sublist of the ids of the list, also when the
    batch raises, and in a batch that returns their number is
    [synced_count + failed_count].  The batch returns when every record
    of the list can be checked. *)
Theorem one_download_per_attempt (E : Env) (docs : list DocumentRecord) (w : World) :
  (exists evs,
      trace (sync_documents E docs w).2 = trace w ++ evs /\
      downloads_in evs `sublist_of` (doc_id <$> docs)) /\
  (Forall (fun d => checkable d = true) docs ->
   exists report, (sync_documents E docs w).1 = Ok report) /\
  forall report,
    (sync_documents E docs w).1 = Ok report ->
    exists evs,
      trace (sync_documents E docs w).2 = trace w ++ evs /\
      downloads_in evs `sublist_of` (doc_id <$> docs) /\
      length (downloads_in evs) = synced_count report + failed_count report.
Proof.
  assert (Hlog : forall ts l m, downloads_in [EvLog ts l m] = []) by reflexivity.
  assert (Hreturns : forall vars w1,
            for_each (sync_step E) docs (init_vars (loaded w)) (start_world E docs w)
              = (Ok vars, w1) ->
            exists evs,
              trace (sync_documents E docs w).2 = trace w ++ evs /\
              downloads_in evs `sublist_of` (doc_id <$> docs) /\
              length (downloads_in evs)
              = synced_count (report_of vars docs) + failed_count (report_of vars docs)).
  { intros vars w1 Hloop.
    rewrite (sync_documents_eq E docs w vars w1 Hloop). cbn [fst snd].
    destruct (sync_loop_requests E docs _ _ _ _ Hloop)
      as (ids & (evs & Htr & Hids) & Hsub & Hn).
    cbn [init_vars v_synced_count v_failed_count] in Hn.
    unfold commit_world, start_world in *. rewrite !log_sync_activity_eq in *.
    cbn [snd trace emit_in tick_in with_state_file] in *.
    eexists. split.
    { rewrite Htr, <- !app_assoc. reflexivity. }
    cbn [report_of synced_count failed_count].
    rewrite !downloads_in_app. cbn [downloads_in omap app]. rewrite Hids, app_nil_r.
    rewrite ?Hlog. cbn [app]. split; [exact Hsub | lia]. }
  split; [|split].
  - destruct (for_each (sync_step E) docs (init_vars (loaded w)) (start_world E docs w))
      as [[vars|e] w1] eqn:Hloop.
    + destruct (Hreturns vars w1 eq_refl) as (evs & Htr & Hsub & _). eauto.
    + rewrite (sync_documents_raise E docs w e w1 Hloop). cbn [snd].
      destruct (sync_loop_raises E _ _ _ _ _ Hloop)
        as (_ & l1 & d & l2 & Hdocs & _ & _ & _ & vars1 & Hl1).
      destruct (sync_loop_requests E l1 _ _ _ _ Hl1)
        as (ids & (evs & Htr & Hids) & Hsub & _).
      unfold start_world in Htr. rewrite log_sync_activity_eq in Htr.
      cbn [snd trace emit_in tick_in] in Htr.
      eexists. split; [rewrite Htr, <- app_assoc; reflexivity|].
      rewrite downloads_in_app, Hlog, Hids. cbn [app].
      rewrite Hdocs, fmap_app. etransitivity; [exact Hsub|].
      apply sublist_inserts_r. reflexivity.
  - intros Hc. destruct (sync_documents_total E docs w Hc) as (report & w' & H).
    exists report. rewrite H. reflexivity.
  - intros report Hret.
    destruct (sync_documents_returns E docs w report Hret) as (vars & w1 & Hloop & ->).
    apply (Hreturns vars w1 Hloop).
Qed.

Lemma one_download_per_attempt_witness :
  exists evs,
    trace (sync_documents demo_env [doc_a; doc_b; doc_c] empty_world).2
      = trace empty_world ++ evs /\
    length (downloads_in evs) = 3.
Proof.
  edestruct (proj2 (proj2 (one_download_per_attempt demo_env [doc_a; doc_b; doc_c]
                             empty_world)))
    as (evs & Htr & _ & Hn).
  - vm_compute. reflexivity.
  - exists evs. split; [exact Htr|]. rewrite Hn. reflexivity.
Defined.
